(** * WebSocket Connection Security Gateway

    A shallow embedding of the security subsystem of the dashboard
    (src/lib/security): the token authenticator (websocket-auth.ts), the
    fixed-window rate limiter (websocket-rate-limiter.ts) and the gateway
    that composes them (websocket-security.ts), followed by the properties
    the design document states about them.

    Conventions of the embedding.
    - JavaScript numbers that the code uses as counters, quotas and
      millisecond timestamps are integers [Z].  Where the code can meet a
      value that is no number (the quota and window read off a limit
      configuration, a reset time, and what is computed from them) the
      value is a [Num]: an integer, [NaN], [undefined] or [null].
    - JavaScript strings are [string]; case folding and trimming are those
      of 7-bit text (letters A-Z, the six ASCII white-space characters).
    - Plain objects used as dictionaries ([memoryStorage], [messageLimits])
      and the [Map] of connection contexts are finite maps over their own
      keys.  A read of [messageLimits] also finds the members inherited
      from [Object.prototype] ([limitConfigFor]); in [memoryStorage] such
      a member behaves like an absent entry (it has no [resetTime] and
      cannot be deleted), and every key the limiter builds begins with
      [ws:].
    - Every method runs to completion on its own: the interleaving of
      several pending promises is not represented.
    - Effects are threaded through a state-and-exception monad over a
      [World]: the stores, the logger's output, and the positions reached
      in the streams of clock readings and random draws. *)

From Stdlib Require Import ZArith Ascii String List Bool Lia.
From stdpp Require Import base option list gmap strings pretty.

Open Scope Z_scope.

(** ** JavaScript built-ins used by the code *)

Module JS.

(** What a [throw] carries: an [Error] object (name and message) or any
    other value. *)
Inductive Thrown :=
| ErrorObject (name message : string)
| NonError.

(** Completion of an evaluation: a value, or an exception on its way up. *)
Inductive Completion (A : Type) :=
| Normal (a : A)
| Throw (e : Thrown).
Arguments Normal {A} a.
Arguments Throw {A} e.

Definition isUpper (c : ascii) : bool :=
  let n := nat_of_ascii c in (65 <=? n)%nat && (n <=? 90)%nat.

Definition lowerChar (c : ascii) : ascii :=
  if isUpper c then ascii_of_nat (nat_of_ascii c + 32) else c.

(** [String.prototype.toLowerCase] *)
Fixpoint toLowerCase (s : string) : string :=
  match s with
  | EmptyString => EmptyString
  | String c s' => String (lowerChar c) (toLowerCase s')
  end.

(** White space of [String.prototype.trim] below code point 128:
    TAB, LF, VT, FF, CR and SPACE. *)
Definition isWhiteSpace (c : ascii) : bool :=
  let n := nat_of_ascii c in
  ((9 <=? n)%nat && (n <=? 13)%nat) || (n =? 32)%nat.

Fixpoint trimStart (s : string) : string :=
  match s with
  | EmptyString => EmptyString
  | String c s' => if isWhiteSpace c then trimStart s' else s
  end.

Fixpoint trimEnd (s : string) : string :=
  match s with
  | EmptyString => EmptyString
  | String c s' =>
      match trimEnd s' with
      | EmptyString => if isWhiteSpace c then EmptyString else String c EmptyString
      | r => String c r
      end
  end.

(** [String.prototype.trim] *)
Definition trim (s : string) : string := trimEnd (trimStart s).

(** [String.prototype.startsWith] *)
Definition startsWith (s p : string) : bool := String.prefix p s.

(** [String.prototype.endsWith]: [s] is [suffix], or its tail ends with
    [suffix]. *)
Fixpoint endsWith (s suffix : string) : bool :=
  String.eqb s suffix ||
  match s with
  | EmptyString => false
  | String _ s' => endsWith s' suffix
  end.

Definition dropChars (n : nat) (s : string) : string :=
  String.substring n (String.length s - n) s.

(** [s.replace(/^https?:\/\//, '')]: the regular expression is anchored
    at the start, so at most one scheme prefix is removed. *)
Definition stripScheme (s : string) : string :=
  if startsWith s "https://" then dropChars 8 s
  else if startsWith s "http://" then dropChars 7 s
  else s.

(** [s.split(',')[0]]: the text before the first comma. *)
Fixpoint beforeComma (s : string) : string :=
  match s with
  | EmptyString => EmptyString
  | String c s' =>
      if Ascii.eqb c ","%char then EmptyString else String c (beforeComma s')
  end.

(** Truthiness of a string: only the empty string is falsy. *)
Definition truthy (s : string) : bool := negb (String.eqb s "").

(** [Math.ceil(x / 1000)] for an integer [x]. *)
Definition ceilDiv1000 (x : Z) : Z := - ((- x) / 1000).

(** A value where the code expects a number: an integer, [NaN],
    [undefined] (the value of a property that an object does not have) or
    [null] (what JSON writes for [NaN]). *)
Inductive Num :=
| Int (z : Z)
| NaN
| Undefined
| Null.

(** The number an arithmetic operator or a comparison takes a value for:
    [null] counts as 0, [undefined] and [NaN] as no number. *)
Definition toNumber (a : Num) : option Z :=
  match a with
  | Int z => Some z
  | Null => Some 0
  | NaN | Undefined => None
  end.

(** [a + b] and [a - b] *)
Definition plus (a b : Num) : Num :=
  match toNumber a, toNumber b with
  | Some x, Some y => Int (x + y)
  | _, _ => NaN
  end.

Definition minus (a b : Num) : Num :=
  match toNumber a, toNumber b with
  | Some x, Some y => Int (x - y)
  | _, _ => NaN
  end.

(** [a > b], [a >= b] and [a <= b]: false as soon as one side is no
    number. *)
Definition gt (a b : Num) : bool :=
  match toNumber a, toNumber b with
  | Some x, Some y => x >? y
  | _, _ => false
  end.

Definition ge (a b : Num) : bool :=
  match toNumber a, toNumber b with
  | Some x, Some y => x >=? y
  | _, _ => false
  end.

Definition le (a b : Num) : bool :=
  match toNumber a, toNumber b with
  | Some x, Some y => x <=? y
  | _, _ => false
  end.

(** [Math.min(a, b)] and [Math.max(a, b)] *)
Definition Math_min (a b : Num) : Num :=
  match toNumber a, toNumber b with
  | Some x, Some y => Int (Z.min x y)
  | _, _ => NaN
  end.

Definition Math_max (a b : Num) : Num :=
  match toNumber a, toNumber b with
  | Some x, Some y => Int (Z.max x y)
  | _, _ => NaN
  end.

(** [Math.ceil(a / 1000)] *)
Definition ceilSeconds (a : Num) : Num :=
  match toNumber a with
  | Some x => Int (ceilDiv1000 x)
  | None => NaN
  end.

Arguments plus !a !b /.
Arguments minus !a !b /.
Arguments gt !a !b /.
Arguments ge !a !b /.
Arguments le !a !b /.
Arguments Math_min !a !b /.
Arguments Math_max !a !b /.
Arguments ceilSeconds !a /.

(** The names every plain object inherits from [Object.prototype]: a
    property read [o[name]] of such a name on an object that has no own
    property [name] yields the inherited member (a function, or the
    prototype itself for [__proto__]), not [undefined]. *)
Definition inheritedNames : list string :=
  ["constructor"; "toString"; "toLocaleString"; "valueOf"; "hasOwnProperty";
   "isPrototypeOf"; "propertyIsEnumerable"; "__proto__"; "__defineGetter__";
   "__defineSetter__"; "__lookupGetter__"; "__lookupSetter__"].

Definition inherited (name : string) : bool :=
  existsb (String.eqb name) inheritedNames.

End JS.

Import JS.

(** ** Data model (websocket-security-types.ts) *)

Record RateLimitConfig := {
  windowMs : Z;
  maxRequests : Z;
}.

Record ConnectionRateLimitConfig := {
  maxConnectionsPerUser : Z;
  maxConnectionsPerIp : Z;
  connWindowMs : Z;              (* [windowMs] of the connection quota *)
}.

Record WebSocketSecurityConfig := {
  allowedOrigins : list string;
  jwtSecret : string;
  jwtAlgorithm : string;
  connectionRateLimit : ConnectionRateLimitConfig;
  messageRateLimits : gmap string RateLimitConfig;
  defaultRateLimit : RateLimitConfig;
  enableLogging : bool;
}.

Record AuthenticatedUser := {
  user_id : string;              (* [id] *)
  email : string;
  roles : list string;
  permissions : list string;
  sessionId : string;
}.

Record WebSocketConnectionContext := {
  ctx_user : option AuthenticatedUser;
  ctx_ip : string;
  ctx_origin : string;
  userAgent : string;
  connectionTime : Z;
  lastActivity : Z;
  messageCount : Z;
  connectionId : string;
}.

Record RateLimitState := {
  count : Z;
  resetTime : Num;
}.

Inductive SecurityEventType :=
| ORIGIN_VALIDATION_FAILED
| ORIGIN_VALIDATION_PASSED
| AUTHENTICATION_FAILED
| AUTHENTICATION_SUCCESS
| CONNECTION_RATE_LIMIT_EXCEEDED
| MESSAGE_RATE_LIMIT_EXCEEDED
| CONNECTION_ACCEPTED
| CONNECTION_REJECTED
| CONNECTION_CLOSED
| SUSPICIOUS_ACTIVITY.

(** A value of the [details] record of an audit event. *)
Inductive Detail :=
| DString (s : option string)
| DNumber (n : option Num)
| DStrings (l : list string).

Record SecurityAuditLog := {
  timestamp : Z;
  event : SecurityEventType;
  log_connectionId : string;
  log_ip : string;
  log_origin : option string;
  log_userId : option string;
  details : list (string * Detail);
  blocked : bool;
}.

Record ValidationResult := {
  valid : bool;
  v_error : option string;
  v_code : option Z;
}.

Record AuthenticationResult := {
  success : bool;
  user : option AuthenticatedUser;
  a_error : option string;
  a_code : option Z;
}.

Record RateLimitResult := {
  allowed : bool;
  remaining : Num;
  r_resetTime : Num;
  retryAfter : option Num;
}.

Record ParsedToken := { token : string }.

(** A header value as Node delivers it: missing, one string, or a list. *)
Inductive HeaderValue :=
| HAbsent
| HString (s : string)
| HArray (l : list string).

Record Headers := {
  h_origin : HeaderValue;
  h_user_agent : option string;
  h_x_forwarded_for : HeaderValue;
  h_x_real_ip : HeaderValue;
}.

Record WebSocketUpgradeRequest := {
  headers : Headers;
  remoteAddress : option string;     (* [socket.remoteAddress] *)
  url : option string;
}.

Definition DEFAULT_MESSAGE_RATE_LIMITS : gmap string RateLimitConfig :=
  <["AGENT_STATUS_UPDATE" := {| windowMs := 60000; maxRequests := 100 |}]>
  (<["CHAT_MESSAGE" := {| windowMs := 60000; maxRequests := 50 |}]>
  (<["METRICS_REQUEST" := {| windowMs := 60000; maxRequests := 200 |}]> ∅)).

Definition DEFAULT_CONNECTION_RATE_LIMIT : ConnectionRateLimitConfig :=
  {| maxConnectionsPerUser := 5; maxConnectionsPerIp := 10; connWindowMs := 60000 |}.

Definition DEFAULT_RATE_LIMIT : RateLimitConfig :=
  {| windowMs := 60000; maxRequests := 100 |}.

Definition ALLOWED_ORIGINS : list string :=
  ["https://app.antigravity.dev"; "https://staging.antigravity.dev";
   "http://localhost:3000"].

Definition CSWSH_PROTECTION_ERROR : string :=
  "Cross-Site WebSocket Hijacking attempt detected".
Definition AUTHENTICATION_ERROR : string := "Authentication failed".
Definition RATE_LIMIT_ERROR : string := "Rate limit exceeded".
Definition UNAUTHORIZED_ORIGIN_ERROR : string := "Origin not allowed".

(** ** The world the gateway runs in *)

(** Verified claims of a token, as [jose] hands them back.  A field that is
    [None] is absent from the payload. *)
Record JWTPayload := {
  sub : option string;
  p_email : option string;
  p_roles : option (list string);
  p_permissions : option (list string);
  sid : option string;
}.

(** What lies outside the repository: the clock, the sources of
    randomness, the [jose] verifier, the WHATWG URL parser and the JSON
    codec.  [clock n] is the [n]-th reading of [Date.now()]; [random36 n]
    is [Math.random().toString(36).substring(2, 11)] at the [n]-th draw and
    [randomUUID n] is [crypto.randomUUID()] there.  [URL_parse] returns the
    query parameters of a URL in order, or [None] where [new URL] throws.
    [JSON_parse] is [None] where [JSON.parse] throws, and is taken to
    return a state with an integer [count] otherwise. *)
Record Env := {
  clock : nat -> Z;
  random36 : nat -> string;
  randomUUID : nat -> string;
  jwtVerify : string -> string -> string -> Completion JWTPayload;
  URL_parse : string -> option (list (string * string));
  JSON_stringify : RateLimitState -> string;
  JSON_parse : string -> option RateLimitState;
}.

(** An entry of the external store, as the test double keeps it. *)
Record RedisItem := {
  value : string;
  px : option Z;
}.

(** What the logger received. *)
Inductive LogRecord :=
| LogEvent (e : SecurityAuditLog)
| LogWarn (message : string) (meta : list (string * Detail)).

(** Calls that cross a component boundary, as a spy placed on the
    collaborator would record them. *)
Inductive Call :=
| CallAuthenticate (request : WebSocketUpgradeRequest)
| CallJwtVerify (tok : string)
| CallCheckConnectionRateLimit (userId ip : string)
| CallCheckMessageRateLimit (connId messageType : string)
| CallDecrementConnectionCounter (userId ip : string).

Record World := {
  ticks : nat;                   (* clock readings taken so far *)
  draws : nat;                   (* random draws taken so far *)
  memoryStorage : gmap string RateLimitState;
  redisStorage : gmap string RedisItem;
  connectionContexts : gmap string WebSocketConnectionContext;
  logged : list LogRecord;       (* oldest first *)
  calls : list Call;             (* oldest first *)
}.

Definition set_ticks (n : nat) (w : World) : World :=
  {| ticks := n; draws := draws w; memoryStorage := memoryStorage w;
     redisStorage := redisStorage w; connectionContexts := connectionContexts w;
     logged := logged w; calls := calls w |}.

Definition set_draws (n : nat) (w : World) : World :=
  {| ticks := ticks w; draws := n; memoryStorage := memoryStorage w;
     redisStorage := redisStorage w; connectionContexts := connectionContexts w;
     logged := logged w; calls := calls w |}.

Definition set_memoryStorage (m : gmap string RateLimitState) (w : World) : World :=
  {| ticks := ticks w; draws := draws w; memoryStorage := m;
     redisStorage := redisStorage w; connectionContexts := connectionContexts w;
     logged := logged w; calls := calls w |}.

Definition set_redisStorage (m : gmap string RedisItem) (w : World) : World :=
  {| ticks := ticks w; draws := draws w; memoryStorage := memoryStorage w;
     redisStorage := m; connectionContexts := connectionContexts w;
     logged := logged w; calls := calls w |}.

Definition set_connectionContexts
    (m : gmap string WebSocketConnectionContext) (w : World) : World :=
  {| ticks := ticks w; draws := draws w; memoryStorage := memoryStorage w;
     redisStorage := redisStorage w; connectionContexts := m;
     logged := logged w; calls := calls w |}.

Definition set_logged (l : list LogRecord) (w : World) : World :=
  {| ticks := ticks w; draws := draws w; memoryStorage := memoryStorage w;
     redisStorage := redisStorage w; connectionContexts := connectionContexts w;
     logged := l; calls := calls w |}.

Definition set_calls (l : list Call) (w : World) : World :=
  {| ticks := ticks w; draws := draws w; memoryStorage := memoryStorage w;
     redisStorage := redisStorage w; connectionContexts := connectionContexts w;
     logged := logged w; calls := l |}.

(** The state-and-exception monad of the embedding. *)
Definition M (A : Type) : Type := World -> Completion A * World.

Definition ret {A} (a : A) : M A := fun w => (Normal a, w).

Definition bind {A B} (m : M A) (k : A -> M B) : M B :=
  fun w =>
    match m w with
    | (Normal a, w') => k a w'
    | (Throw e, w') => (Throw e, w')
    end.

Definition throw {A} (e : Thrown) : M A := fun w => (Throw e, w).

Definition tryCatch {A} (body : M A) (handler : Thrown -> M A) : M A :=
  fun w =>
    match body w with
    | (Normal a, w') => (Normal a, w')
    | (Throw e, w') => handler e w'
    end.

Definition liftC {A} (c : Completion A) : M A := fun w => (c, w).

Notation "'let*' x := m 'in' k" := (bind m (fun x => k))
  (at level 10, x name, m at level 100, k at level 200).

Section Effects.
Variable E : Env.

(** [Date.now()], also the instant of [new Date()]. *)
Definition Date_now : M Z :=
  fun w => (Normal (clock E (ticks w)), set_ticks (S (ticks w)) w).

Definition Math_random36 : M string :=
  fun w => (Normal (random36 E (draws w)), set_draws (S (draws w)) w).

Definition crypto_randomUUID : M string :=
  fun w => (Normal (randomUUID E (draws w)), set_draws (S (draws w)) w).

Definition spy (c : Call) : M unit :=
  fun w => (Normal tt, set_calls (calls w ++ [c]) w).

Definition logger_log (e : SecurityAuditLog) : M unit :=
  fun w => (Normal tt, set_logged (logged w ++ [LogEvent e]) w).

Definition logger_warn (message : string) (meta : list (string * Detail)) : M unit :=
  fun w => (Normal tt, set_logged (logged w ++ [LogWarn message meta]) w).
End Effects.

(** ** Token authenticator (websocket-auth.ts) *)

Module WebSocketAuthHandler.

(** [JWTConfig]: the secret (before encoding) and the algorithm. *)
Record t := {
  secret : string;
  algorithm : string;
}.

(** [constructor(secret, algorithm = 'HS256')] *)
Definition new (secret : string) (algorithm : option string) : t :=
  {| secret := secret; algorithm := default "HS256" algorithm |}.

Definition failure (error : string) (code : Z) : AuthenticationResult :=
  {| success := false; user := None; a_error := Some error; a_code := Some code |}.

Section Methods.
Variable E : Env.
Variable this : t.

(** [new URL(urlString)] *)
Definition new_URL (urlString : string) : Completion (list (string * string)) :=
  match URL_parse E urlString with
  | Some searchParams => Normal searchParams
  | None => Throw (ErrorObject "TypeError" "Invalid URL")
  end.

(** [searchParams.get(name)]: the first value under [name]. *)
Fixpoint searchParams_get (searchParams : list (string * string)) (name : string)
    : option string :=
  match searchParams with
  | [] => None
  | (k, v) :: rest =>
      if String.eqb k name then Some v else searchParams_get rest name
  end.

(** Relative and absolute URLs: [urlString] of [extractTokenFromUrl]. *)
Definition urlString (url : string) : string :=
  if startsWith url "ws://" || startsWith url "wss://" then url
  else "ws://localhost" +:+ url.

Definition extractTokenFromUrl (request : WebSocketUpgradeRequest)
    : Completion (option ParsedToken) :=
  match url request with
  | None => Normal None
  | Some url =>
      if negb (truthy url) then Normal None
      else
        (* try *)
        match new_URL (urlString url) with
        | Normal urlObj =>
            match searchParams_get urlObj "token" with
            | None => Normal None
            | Some token =>
                if negb (truthy token) then Normal None
                else Normal (Some {| token := token |})
            end
        (* catch (error) *)
        | Throw _ => Normal None
        end
  end.

Definition extractUserFromPayload (payload : JWTPayload)
    : M (option AuthenticatedUser) :=
  match sub payload, p_email payload with
  | Some id, Some email =>
      let* sessionId :=
        match sid payload with
        | Some s => if truthy s then ret s else crypto_randomUUID E
        | None => crypto_randomUUID E
        end in
      ret (Some {| user_id := id;
                   email := email;
                   roles := default [] (p_roles payload);
                   permissions := default [] (p_permissions payload);
                   sessionId := sessionId |})
  | _, _ => ret None
  end.

Definition verifyToken (token : string) : M AuthenticationResult :=
  tryCatch
    (let* _ := spy (CallJwtVerify token) in
     let* payload := liftC (jwtVerify E token (secret this) (algorithm this)) in
     let* user := extractUserFromPayload payload in
     match user with
     | None => ret (failure "Invalid token payload: missing required fields" 401)
     | Some u =>
         ret {| success := true; user := Some u; a_error := None; a_code := None |}
     end)
    (fun error =>
       match error with
       | ErrorObject name message =>
           if String.eqb name "JWTExpired" then
             ret (failure "Token has expired" 401)
           else if String.eqb name "JWTInvalid" then
             ret (failure "Invalid token signature" 401)
           else
             ret (failure ("Token verification failed: " +:+ message) 401)
       | NonError => ret (failure AUTHENTICATION_ERROR 401)
       end).

Definition authenticate (request : WebSocketUpgradeRequest)
    : M AuthenticationResult :=
  let* parsedToken := liftC (extractTokenFromUrl request) in
  match parsedToken with
  | None => ret (failure "Missing authentication token" 401)
  | Some parsed => verifyToken (token parsed)
  end.

End Methods.

(** The factory, with its guard on the secret. *)
Definition createWebSocketAuthHandler (secret : string) (algorithm : option string)
    : Completion t :=
  if negb (truthy secret) || (String.length secret <? 32)%nat then
    Throw (ErrorObject "Error" "JWT secret must be at least 32 characters long")
  else Normal (new secret algorithm).

End WebSocketAuthHandler.

(** ** Rate limiter (websocket-rate-limiter.ts) *)

Module WebSocketRateLimiter.

Record PartialConnectionRateLimitConfig := {
  opt_maxConnectionsPerUser : option Z;
  opt_maxConnectionsPerIp : option Z;
  opt_connWindowMs : option Z;
}.

Record PartialRateLimitConfig := {
  opt_windowMs : option Z;
  opt_maxRequests : option Z;
}.

(** [{ ...DEFAULT_CONNECTION_RATE_LIMIT, ...connectionConfig }] *)
Definition mergeConnectionConfig (c : PartialConnectionRateLimitConfig)
    : ConnectionRateLimitConfig :=
  {| maxConnectionsPerUser :=
       default (maxConnectionsPerUser DEFAULT_CONNECTION_RATE_LIMIT)
               (opt_maxConnectionsPerUser c);
     maxConnectionsPerIp :=
       default (maxConnectionsPerIp DEFAULT_CONNECTION_RATE_LIMIT)
               (opt_maxConnectionsPerIp c);
     connWindowMs :=
       default (connWindowMs DEFAULT_CONNECTION_RATE_LIMIT) (opt_connWindowMs c) |}.

(** [{ ...DEFAULT_RATE_LIMIT, ...defaultLimit }] *)
Definition mergeRateLimitConfig (c : PartialRateLimitConfig) : RateLimitConfig :=
  {| windowMs := default (windowMs DEFAULT_RATE_LIMIT) (opt_windowMs c);
     maxRequests := default (maxRequests DEFAULT_RATE_LIMIT) (opt_maxRequests c) |}.

Definition noConnectionConfig : PartialConnectionRateLimitConfig :=
  {| opt_maxConnectionsPerUser := None; opt_maxConnectionsPerIp := None;
     opt_connWindowMs := None |}.

Definition noRateLimitConfig : PartialRateLimitConfig :=
  {| opt_windowMs := None; opt_maxRequests := None |}.

(** The limiter's fields; [redis] tells whether an external store was
    supplied.  The stores themselves live in the [World]. *)
Record t := {
  connectionConfig : ConnectionRateLimitConfig;
  messageLimits : gmap string RateLimitConfig;
  defaultLimit : RateLimitConfig;
  redis : bool;
}.

Definition new (connectionConfig : PartialConnectionRateLimitConfig)
    (messageLimits : gmap string RateLimitConfig)
    (defaultLimit : PartialRateLimitConfig) (redis : bool) : t :=
  {| connectionConfig := mergeConnectionConfig connectionConfig;
     messageLimits := messageLimits ∪ DEFAULT_MESSAGE_RATE_LIMITS;
     defaultLimit := mergeRateLimitConfig defaultLimit;
     redis := redis |}.

Definition createWebSocketRateLimiter := new.

Inductive KeyType := user_key | ip_key.

Definition getConnectionKey (type : KeyType) (identifier : string) : string :=
  match type with
  | user_key => "ws:conn:user:" +:+ identifier
  | ip_key => "ws:conn:ip:" +:+ identifier
  end.

Definition getMessageKey (connectionId messageType : string) : string :=
  "ws:msg:" +:+ connectionId +:+ ":" +:+ messageType.

(** The three verdicts of a check. *)
Definition freshQuota (maxRequests resetTime : Num) : RateLimitResult :=
  {| allowed := true; remaining := maxRequests; r_resetTime := resetTime;
     retryAfter := None |}.

Definition exhausted (state : RateLimitState) : RateLimitResult :=
  {| allowed := false; remaining := Int 0; r_resetTime := resetTime state;
     retryAfter := None |}.

Definition withinQuota (maxRequests : Num) (state : RateLimitState) : RateLimitResult :=
  {| allowed := true; remaining := minus maxRequests (Int (count state));
     r_resetTime := resetTime state; retryAfter := None |}.

(** [{ ...result, retryAfter }] *)
Definition withRetryAfter (result : RateLimitResult) (seconds : Num) : RateLimitResult :=
  {| allowed := allowed result; remaining := remaining result;
     r_resetTime := r_resetTime result; retryAfter := Some seconds |}.

Definition bump (state : RateLimitState) : RateLimitState :=
  {| count := count state + 1; resetTime := resetTime state |}.

Definition unbump (state : RateLimitState) : RateLimitState :=
  {| count := count state - 1; resetTime := resetTime state |}.

Definition notInitialized : Thrown :=
  ErrorObject "Error" "Redis client not initialized".

(** The external store: [get], [set] with [px], [del]. *)
Definition redis_get (key : string) : M (option string) :=
  fun w => (Normal (value <$> redisStorage w !! key), w).

Definition redis_set (key val : string) (px : option Z) : M unit :=
  fun w => (Normal tt,
            set_redisStorage (<[key := {| value := val; px := px |}]> (redisStorage w)) w).

Definition redis_del (key : string) : M unit :=
  fun w => (Normal tt, set_redisStorage (delete key (redisStorage w)) w).

(** What [this.messageLimits[messageType] || this.defaultLimit] yields: a
    limit configuration, or a member that every object inherits, which is
    truthy and has neither [maxRequests] nor [windowMs]. *)
Inductive LimitConfig :=
| Limits (c : RateLimitConfig)
| InheritedMember.

(** [limitConfig.maxRequests] and [limitConfig.windowMs] *)
Definition lc_maxRequests (limitConfig : LimitConfig) : Num :=
  match limitConfig with
  | Limits c => Int (maxRequests c)
  | InheritedMember => Undefined
  end.

Definition lc_windowMs (limitConfig : LimitConfig) : Num :=
  match limitConfig with
  | Limits c => Int (windowMs c)
  | InheritedMember => Undefined
  end.

(** [{ px: windowMs }] *)
Definition px_of (windowMs : Num) : option Z :=
  match windowMs with
  | Int ms => Some ms
  | _ => None
  end.

(** In the methods below the parameter the source calls [resetTime] is
    written [resetAt], the field of a stored state keeping the name. *)
Section Methods.
Variable E : Env.
Variable this : t.

(** [JSON.parse(value)] *)
Definition JSON_parse_state (val : string) : M RateLimitState :=
  match JSON_parse E val with
  | Some state => ret state
  | None => throw (ErrorObject "SyntaxError" "Unexpected token")
  end.

Definition checkRedisRateLimit (key : string) (maxRequests windowMs : Num) (now : Z)
    (resetAt : Num) : M RateLimitResult :=
  if negb (redis this) then throw notInitialized
  else
    let* val := redis_get key in
    match val with
    | None => ret (freshQuota maxRequests resetAt)
    | Some v =>
        if negb (truthy v) then ret (freshQuota maxRequests resetAt)
        else
          let* state := JSON_parse_state v in
          if gt (Int now) (resetTime state) then
            ret (freshQuota maxRequests resetAt)
          else if ge (Int (count state)) maxRequests then ret (exhausted state)
          else ret (withinQuota maxRequests state)
    end.

Definition checkMemoryRateLimit (key : string) (maxRequests windowMs : Num) (now : Z)
    (resetAt : Num) : M RateLimitResult :=
  fun w =>
    match memoryStorage w !! key with
    | None => (Normal (freshQuota maxRequests resetAt), w)
    | Some state =>
        if gt (Int now) (resetTime state) then
          (Normal (freshQuota maxRequests resetAt), w)
        else if ge (Int (count state)) maxRequests then (Normal (exhausted state), w)
        else (Normal (withinQuota maxRequests state), w)
    end.

Definition checkRateLimit (key : string) (maxRequests windowMs : Num)
    : M RateLimitResult :=
  let* now := Date_now E in
  let resetAt := plus (Int now) windowMs in
  if redis this then checkRedisRateLimit key maxRequests windowMs now resetAt
  else checkMemoryRateLimit key maxRequests windowMs now resetAt.

Definition incrementRedisCounter (key : string) (windowMs resetAt : Num) : M unit :=
  if negb (redis this) then throw notInitialized
  else
    let* val := redis_get key in
    let fresh := {| count := 1; resetTime := resetAt |} in
    match val with
    | None => redis_set key (JSON_stringify E fresh) (px_of windowMs)
    | Some v =>
        if negb (truthy v) then redis_set key (JSON_stringify E fresh) (px_of windowMs)
        else
          let* state := JSON_parse_state v in
          redis_set key (JSON_stringify E (bump state)) (px_of windowMs)
    end.

(** [!this.memoryStorage[key] || Date.now() > ...resetTime]: the clock
    is read only when the key is stored. *)
Definition incrementMemoryCounter (key : string) (resetAt : Num) : M unit :=
  fun w =>
    let fresh := {| count := 1; resetTime := resetAt |} in
    match memoryStorage w !! key with
    | None => (Normal tt, set_memoryStorage (<[key := fresh]> (memoryStorage w)) w)
    | Some state =>
        (let* now := Date_now E in
         fun w' =>
           if gt (Int now) (resetTime state) then
             (Normal tt, set_memoryStorage (<[key := fresh]> (memoryStorage w')) w')
           else
             (Normal tt, set_memoryStorage (<[key := bump state]> (memoryStorage w')) w')) w
    end.

Definition incrementCounter (key : string) (windowMs : Num) : M unit :=
  let* now := Date_now E in
  let resetAt := plus (Int now) windowMs in
  if redis this then incrementRedisCounter key windowMs resetAt
  else incrementMemoryCounter key resetAt.

Definition denyWithRetryAfter (result : RateLimitResult) : M RateLimitResult :=
  let* now := Date_now E in
  ret (withRetryAfter result (ceilSeconds (minus (r_resetTime result) (Int now)))).

Definition checkConnectionRateLimit (userId ip : string) : M RateLimitResult :=
  let userKey := getConnectionKey user_key userId in
  let ipKey := getConnectionKey ip_key ip in
  let* userResult :=
    checkRateLimit userKey (Int (maxConnectionsPerUser (connectionConfig this)))
                   (Int (connWindowMs (connectionConfig this))) in
  if negb (allowed userResult) then denyWithRetryAfter userResult
  else
    let* ipResult :=
      checkRateLimit ipKey (Int (maxConnectionsPerIp (connectionConfig this)))
                     (Int (connWindowMs (connectionConfig this))) in
    if negb (allowed ipResult) then denyWithRetryAfter ipResult
    else
      let* _ := incrementCounter userKey (Int (connWindowMs (connectionConfig this))) in
      let* _ := incrementCounter ipKey (Int (connWindowMs (connectionConfig this))) in
      ret {| allowed := true;
             remaining :=
               minus (Math_min (remaining userResult) (remaining ipResult)) (Int 1);
             r_resetTime := Math_max (r_resetTime userResult) (r_resetTime ipResult);
             retryAfter := None |}.

(** [this.messageLimits[messageType] || this.defaultLimit].  [messageLimits]
    is a plain object: the read finds the limiter's own entry for the type,
    else the member that the object inherits under that name, and only when
    there is neither is it [undefined], so that the default applies. *)
Definition limitConfigFor (messageType : string) : LimitConfig :=
  match messageLimits this !! messageType with
  | Some c => Limits c
  | None =>
      if inherited messageType then InheritedMember
      else Limits (defaultLimit this)
  end.

Definition checkMessageRateLimit (connectionId messageType : string)
    : M RateLimitResult :=
  let key := getMessageKey connectionId messageType in
  let limitConfig := limitConfigFor messageType in
  let* result :=
    checkRateLimit key (lc_maxRequests limitConfig) (lc_windowMs limitConfig) in
  if negb (allowed result) then denyWithRetryAfter result
  else
    let* _ := incrementCounter key (lc_windowMs limitConfig) in
    ret {| allowed := true; remaining := minus (remaining result) (Int 1);
           r_resetTime := r_resetTime result; retryAfter := None |}.

Definition decrementMemory (key : string) : M unit :=
  fun w =>
    match memoryStorage w !! key with
    | Some state =>
        if count state >? 0 then
          (Normal tt, set_memoryStorage (<[key := unbump state]> (memoryStorage w)) w)
        else (Normal tt, w)
    | None => (Normal tt, w)
    end.

Definition decrementConnectionCounter (userId ip : string) : M unit :=
  let userKey := getConnectionKey user_key userId in
  let ipKey := getConnectionKey ip_key ip in
  if redis this then ret tt
  else
    let* _ := decrementMemory userKey in
    decrementMemory ipKey.

Definition resetRateLimit (key : string) : M unit :=
  if redis this then redis_del key
  else fun w => (Normal tt, set_memoryStorage (delete key (memoryStorage w)) w).

Definition getRateLimitStatus (key : string) : M (option RateLimitState) :=
  if redis this then
    let* val := redis_get key in
    match val with
    | None => ret None
    | Some v =>
        if truthy v then
          let* state := JSON_parse_state v in ret (Some state)
        else ret None
    end
  else
    fun w =>
      match memoryStorage w !! key with
      | Some state =>
          (let* now := Date_now E in
           if le (Int now) (resetTime state) then ret (Some state)
           else ret None) w
      | None => (Normal None, w)
      end.

End Methods.

End WebSocketRateLimiter.

(** ** Security gateway (websocket-security.ts) *)

Module WebSocketSecurityMiddleware.

(** [Partial<WebSocketSecurityConfig> & { jwtSecret: string }] *)
Record PartialConfig := {
  cfg_allowedOrigins : option (list string);
  cfg_jwtSecret : string;
  cfg_jwtAlgorithm : option string;
  cfg_connectionRateLimit : option ConnectionRateLimitConfig;
  cfg_messageRateLimits : gmap string RateLimitConfig;
  cfg_defaultRateLimit : option RateLimitConfig;
  cfg_enableLogging : option bool;
}.

Record t := {
  config : WebSocketSecurityConfig;
  authHandler : WebSocketAuthHandler.t;
  rateLimiter : WebSocketRateLimiter.t;
}.

(** What [performSecurityCheck] resolves to. *)
Record SecurityCheckResult := {
  sc_allowed : bool;
  sc_result : option AuthenticationResult;
  sc_error : option string;
  sc_code : option Z;
}.

Definition asPartialConnection (c : ConnectionRateLimitConfig)
    : WebSocketRateLimiter.PartialConnectionRateLimitConfig :=
  {| WebSocketRateLimiter.opt_maxConnectionsPerUser := Some (maxConnectionsPerUser c);
     WebSocketRateLimiter.opt_maxConnectionsPerIp := Some (maxConnectionsPerIp c);
     WebSocketRateLimiter.opt_connWindowMs := Some (connWindowMs c) |}.

Definition asPartialRateLimit (c : RateLimitConfig)
    : WebSocketRateLimiter.PartialRateLimitConfig :=
  {| WebSocketRateLimiter.opt_windowMs := Some (windowMs c);
     WebSocketRateLimiter.opt_maxRequests := Some (maxRequests c) |}.

Definition mergedConfig (c : PartialConfig) : WebSocketSecurityConfig :=
  {| allowedOrigins := default ALLOWED_ORIGINS (cfg_allowedOrigins c);
     jwtSecret := cfg_jwtSecret c;
     jwtAlgorithm :=
       match cfg_jwtAlgorithm c with
       | Some a => if truthy a then a else "HS256"
       | None => "HS256"
       end;
     connectionRateLimit :=
       default DEFAULT_CONNECTION_RATE_LIMIT (cfg_connectionRateLimit c);
     messageRateLimits := cfg_messageRateLimits c ∪ DEFAULT_MESSAGE_RATE_LIMITS;
     defaultRateLimit := default DEFAULT_RATE_LIMIT (cfg_defaultRateLimit c);
     enableLogging := default true (cfg_enableLogging c) |}.

(** [constructor(config, redis?, logger?)]; [redis] tells whether an
    external store is supplied.  The exception of the authenticator's
    factory leaves the constructor. *)
Definition new (c : PartialConfig) (redis : bool) : Completion t :=
  let config := mergedConfig c in
  match WebSocketAuthHandler.createWebSocketAuthHandler
          (jwtSecret config) (Some (jwtAlgorithm config)) with
  | Throw e => Throw e
  | Normal authHandler =>
      Normal {| config := config;
                authHandler := authHandler;
                rateLimiter :=
                  WebSocketRateLimiter.createWebSocketRateLimiter
                    (asPartialConnection (connectionRateLimit config))
                    (messageRateLimits config)
                    (asPartialRateLimit (defaultRateLimit config))
                    redis |}
  end.

Definition createWebSocketSecurityMiddleware := new.

Definition extractOrigin (request : WebSocketUpgradeRequest) : option string :=
  match h_origin (headers request) with
  | HString origin => Some origin
  | HArray (origin :: _) => Some origin
  | _ => None
  end.

Definition extractIp (request : WebSocketUpgradeRequest) : string :=
  match h_x_forwarded_for (headers request) with
  | HString forwarded => trim (beforeComma forwarded)
  | HArray (forwarded :: _) => trim (beforeComma forwarded)
  | _ =>
      match h_x_real_ip (headers request) with
      | HString realIp => realIp
      | HArray (realIp :: _) => realIp
      | _ =>
          match remoteAddress request with
          | Some a => if truthy a then a else "unknown"
          | None => "unknown"
          end
      end
  end.

(** [x || 'unknown'] on an optional string. *)
Definition orUnknown (x : option string) : string :=
  match x with
  | Some s => if truthy s then s else "unknown"
  | None => "unknown"
  end.

(** One allow-list entry against the normalized origin, as in the
    callback given to [some]. *)
Definition originMatches (normalizedOrigin allowed : string) : bool :=
  let normalizedAllowed := trim (toLowerCase allowed) in
  String.eqb normalizedOrigin normalizedAllowed ||
  endsWith normalizedOrigin ("." +:+ stripScheme normalizedAllowed).

Section Methods.
Variable E : Env.
Variable this : t.

Definition generateConnectionId : M string :=
  let* now := Date_now E in
  let* r := Math_random36 E in
  ret ("ws_" +:+ pretty now +:+ "_" +:+ r).

Definition logSecurityEvent (e : SecurityAuditLog) : M unit :=
  if enableLogging (config this) then logger_log e else ret tt.

Definition validateOrigin (request : WebSocketUpgradeRequest) : M ValidationResult :=
  let origin := extractOrigin request in
  let ip := extractIp request in
  match origin with
  | Some origin =>
      if negb (truthy origin) then
        let* _ :=
          if enableLogging (config this) then
            logger_warn "Missing Origin header in WebSocket request"
                        [("ip", DString (Some ip))]
          else ret tt in
        ret {| valid := true; v_error := None; v_code := None |}
      else
        let normalizedOrigin := trim (toLowerCase origin) in
        let isAllowed :=
          existsb (originMatches normalizedOrigin) (allowedOrigins (config this)) in
        if negb isAllowed then
          let* now := Date_now E in
          let* connectionId := generateConnectionId in
          let* _ :=
            logSecurityEvent
              {| timestamp := now;
                 event := ORIGIN_VALIDATION_FAILED;
                 log_connectionId := connectionId;
                 log_ip := ip;
                 log_origin := Some origin;
                 log_userId := None;
                 details :=
                   [("reason", DString (Some CSWSH_PROTECTION_ERROR));
                    ("attemptedOrigin", DString (Some origin));
                    ("allowedOrigins", DStrings (allowedOrigins (config this)))];
                 blocked := true |} in
          ret {| valid := false;
                 v_error := Some UNAUTHORIZED_ORIGIN_ERROR;
                 v_code := Some 403 |}
        else
          let* now := Date_now E in
          let* connectionId := generateConnectionId in
          let* _ :=
            logSecurityEvent
              {| timestamp := now;
                 event := ORIGIN_VALIDATION_PASSED;
                 log_connectionId := connectionId;
                 log_ip := ip;
                 log_origin := Some origin;
                 log_userId := None;
                 details := [("validatedOrigin", DString (Some origin))];
                 blocked := false |} in
          ret {| valid := true; v_error := None; v_code := None |}
  | None =>
      let* _ :=
        if enableLogging (config this) then
          logger_warn "Missing Origin header in WebSocket request"
                      [("ip", DString (Some ip))]
        else ret tt in
      ret {| valid := true; v_error := None; v_code := None |}
  end.

Definition setContext (connectionId : string) (context : WebSocketConnectionContext)
    : M unit :=
  fun w => (Normal tt,
            set_connectionContexts (<[connectionId := context]> (connectionContexts w)) w).

Definition getContext (connectionId : string) : M (option WebSocketConnectionContext) :=
  fun w => (Normal (connectionContexts w !! connectionId), w).

Definition deleteContext (connectionId : string) : M unit :=
  fun w => (Normal tt,
            set_connectionContexts (delete connectionId (connectionContexts w)) w).

Definition authenticate (request : WebSocketUpgradeRequest) : M AuthenticationResult :=
  let origin := extractOrigin request in
  let ip := extractIp request in
  let* connectionId := generateConnectionId in
  let* _ := spy (CallAuthenticate request) in
  let* result := WebSocketAuthHandler.authenticate E (authHandler this) request in
  if negb (success result) then
    let* now := Date_now E in
    let* _ :=
      logSecurityEvent
        {| timestamp := now;
           event := AUTHENTICATION_FAILED;
           log_connectionId := connectionId;
           log_ip := ip;
           log_origin := origin;
           log_userId := None;
           details := [("reason", DString (a_error result));
                       ("code", DNumber (Int <$> a_code result))];
           blocked := true |} in
    ret result
  else
    let* connectionTime := Date_now E in
    let* lastActivity := Date_now E in
    let context :=
      {| ctx_user := user result;
         ctx_ip := ip;
         ctx_origin := orUnknown origin;
         userAgent := orUnknown (h_user_agent (headers request));
         connectionTime := connectionTime;
         lastActivity := lastActivity;
         messageCount := 0;
         connectionId := connectionId |} in
    let* _ := setContext connectionId context in
    let* now := Date_now E in
    let* _ :=
      logSecurityEvent
        {| timestamp := now;
           event := AUTHENTICATION_SUCCESS;
           log_connectionId := connectionId;
           log_ip := ip;
           log_origin := origin;
           log_userId := user_id <$> user result;
           details := [("userId", DString (user_id <$> user result));
                       ("email", DString (email <$> user result))];
           blocked := false |} in
    ret result.

Definition checkConnectionRateLimit (userId ip : string) : M RateLimitResult :=
  let* _ := spy (CallCheckConnectionRateLimit userId ip) in
  let* result :=
    WebSocketRateLimiter.checkConnectionRateLimit E (rateLimiter this) userId ip in
  if negb (allowed result) then
    let* now := Date_now E in
    let* connectionId := generateConnectionId in
    let* _ :=
      logSecurityEvent
        {| timestamp := now;
           event := CONNECTION_RATE_LIMIT_EXCEEDED;
           log_connectionId := connectionId;
           log_ip := ip;
           log_origin := None;
           log_userId := Some userId;
           details := [("retryAfter", DNumber (retryAfter result));
                       ("remaining", DNumber (Some (remaining result)))];
           blocked := true |} in
    ret result
  else ret result.

(** [context.messageCount += 1; context.lastActivity = new Date()] on
    the context object held by the registry. *)
Definition touch (context : WebSocketConnectionContext) (now : Z)
    : WebSocketConnectionContext :=
  {| ctx_user := ctx_user context;
     ctx_ip := ctx_ip context;
     ctx_origin := ctx_origin context;
     userAgent := userAgent context;
     connectionTime := connectionTime context;
     lastActivity := now;
     messageCount := messageCount context + 1;
     connectionId := connectionId context |}.

Definition checkMessageRateLimit (connectionId messageType : string)
    : M RateLimitResult :=
  let* _ := spy (CallCheckMessageRateLimit connectionId messageType) in
  let* result :=
    WebSocketRateLimiter.checkMessageRateLimit E (rateLimiter this)
      connectionId messageType in
  let* context := getContext connectionId in
  if negb (allowed result) then
    let* now := Date_now E in
    let* _ :=
      logSecurityEvent
        {| timestamp := now;
           event := MESSAGE_RATE_LIMIT_EXCEEDED;
           log_connectionId := connectionId;
           log_ip := orUnknown (ctx_ip <$> context);
           log_origin := None;
           log_userId := user_id <$> (context ≫= ctx_user);
           details := [("messageType", DString (Some messageType));
                       ("retryAfter", DNumber (retryAfter result))];
           blocked := true |} in
    ret result
  else
    match context with
    | Some ctx =>
        let* now := Date_now E in
        let* _ := setContext connectionId (touch ctx now) in
        ret result
    | None => ret result
    end.

Definition handleConnectionClose (connectionId : string) : M unit :=
  let* context := getContext connectionId in
  let* _ :=
    match context with
    | Some ctx =>
        match ctx_user ctx with
        | Some u =>
            let* _ := spy (CallDecrementConnectionCounter (user_id u) (ctx_ip ctx)) in
            WebSocketRateLimiter.decrementConnectionCounter (rateLimiter this)
              (user_id u) (ctx_ip ctx)
        | None => ret tt
        end
    | None => ret tt
    end in
  let* _ := deleteContext connectionId in
  let* now := Date_now E in
  let* duration :=
    match context with
    | Some ctx => let* t := Date_now E in ret (t - connectionTime ctx)
    | None => ret 0
    end in
  logSecurityEvent
    {| timestamp := now;
       event := CONNECTION_CLOSED;
       log_connectionId := connectionId;
       log_ip := orUnknown (ctx_ip <$> context);
       log_origin := None;
       log_userId := user_id <$> (context ≫= ctx_user);
       details := [("duration", DNumber (Some (Int duration)));
                   ("messageCount",
                    DNumber (Some (Int (default 0 (messageCount <$> context)))))];
       blocked := false |}.

Definition getConnectionContext (connectionId : string)
    : M (option WebSocketConnectionContext) :=
  getContext connectionId.

Definition denial (error : option string) (code : option Z) : SecurityCheckResult :=
  {| sc_allowed := false; sc_result := None; sc_error := error; sc_code := code |}.

Definition performSecurityCheck (request : WebSocketUpgradeRequest)
    : M SecurityCheckResult :=
  (* Step 1: Validate Origin (CSWSH Protection) *)
  let* originResult := validateOrigin request in
  if negb (valid originResult) then
    ret (denial (v_error originResult) (v_code originResult))
  else
    (* Step 2: Authenticate (extract and verify JWT) *)
    let* authResult := authenticate request in
    if negb (success authResult) then
      ret (denial (a_error authResult) (a_code authResult))
    else
      (* Step 3: Check connection rate limits *)
      let* rateLimited :=
        match user authResult with
        | Some u =>
            let ip := extractIp request in
            let* rateLimitResult := checkConnectionRateLimit (user_id u) ip in
            ret (negb (allowed rateLimitResult))
        | None => ret false
        end in
      if rateLimited then
        ret (denial (Some "Rate limit exceeded. Too many connections.") (Some 429))
      else
        (* Connection accepted *)
        let* now := Date_now E in
        let* connectionId := generateConnectionId in
        let* _ :=
          logSecurityEvent
            {| timestamp := now;
               event := CONNECTION_ACCEPTED;
               log_connectionId := connectionId;
               log_ip := extractIp request;
               log_origin := extractOrigin request;
               log_userId := user_id <$> user authResult;
               details := [("userId", DString (user_id <$> user authResult));
                           ("email", DString (email <$> user authResult))];
               blocked := false |} in
        ret {| sc_allowed := true; sc_result := Some authResult;
               sc_error := None; sc_code := None |}.

End Methods.

End WebSocketSecurityMiddleware.

(** * Properties *)

(** ** Vocabulary of the statements *)

Module Spec.

Import WebSocketRateLimiter.

(** A request from which no token can be read: no URL, a URL the parser
    rejects, or one without a [token] parameter. *)
Definition lacksToken (E : Env) (request : WebSocketUpgradeRequest) : Prop :=
  match url request with
  | None => True
  | Some u =>
      match URL_parse E (WebSocketAuthHandler.urlString u) with
      | None => True
      | Some searchParams =>
          WebSocketAuthHandler.searchParams_get searchParams "token" = None
      end
  end.

(** [s] ends with [suffix]. *)
Definition EndsWith (s suffix : string) : Prop :=
  exists front, s = front +:+ suffix.

(** The matching rule of the origin validator in the words of the design:
    the normalized origin is an allow-list entry, or ends with a dot
    followed by the entry without its scheme. *)
Definition entryMatches (normalizedOrigin entry : string) : Prop :=
  normalizedOrigin = entry \/
  EndsWith normalizedOrigin ("." +:+ stripScheme entry).

(** The rule as the claim words it: entries are taken as configured. *)
Definition originAllowedAsConfigured (allowList : list string) (origin : string) : Prop :=
  exists entry, In entry allowList /\ entryMatches (trim (toLowerCase origin)) entry.

(** The rule with entries normalized like the origin. *)
Definition originAllowed (allowList : list string) (origin : string) : Prop :=
  exists entry, In entry allowList /\
    entryMatches (trim (toLowerCase origin)) (trim (toLowerCase entry)).

Definition originDenied : ValidationResult :=
  {| valid := false; v_error := Some "Origin not allowed"; v_code := Some 403 |}.

Definition originAccepted : ValidationResult :=
  {| valid := true; v_error := None; v_code := None |}.

(** The verdict of the origin validator as a function of the header. *)
Definition originVerdict (allowList : list string) (origin : option string)
    : ValidationResult :=
  match origin with
  | Some o =>
      if truthy o then
        if existsb (WebSocketSecurityMiddleware.originMatches (trim (toLowerCase o)))
                   allowList
        then originAccepted else originDenied
      else originAccepted
  | None => originAccepted
  end.

Definition shortSecretError : Thrown :=
  ErrorObject "Error" "JWT secret must be at least 32 characters long".

Definition missingToken : AuthenticationResult :=
  WebSocketAuthHandler.failure "Missing authentication token" 401.

(** Two worlds hold the same stores and registry. *)
Definition sameStores (w w' : World) : Prop :=
  memoryStorage w' = memoryStorage w /\
  redisStorage w' = redisStorage w.

(** *** Rate limiter *)

Definition syntaxError : Thrown := ErrorObject "SyntaxError" "Unexpected token".

(** What an entry of the external store decodes to: nothing for an empty
    text, a state, or the parser's exception. *)
Definition decode (E : Env) (item : RedisItem) : Completion (option RateLimitState) :=
  if truthy (value item) then
    match JSON_parse E (value item) with
    | Some s => Normal (Some s)
    | None => Throw syntaxError
    end
  else Normal None.

(** The state the backend in use keeps under a key. *)
Definition stored (E : Env) (lim : t) (w : World) (key : string)
    : Completion (option RateLimitState) :=
  if redis lim then
    match redisStorage w !! key with
    | Some item => decode E item
    | None => Normal None
    end
  else Normal (memoryStorage w !! key).

(** The backend in use keeps state [s] under a key. *)
Definition holds (E : Env) (lim : t) (w : World) (key : string) (s : RateLimitState)
    : Prop :=
  if redis lim then value <$> redisStorage w !! key = Some (JSON_stringify E s)
  else memoryStorage w !! key = Some s.

(** The verdict of a check as a function of the stored state. *)
Definition verdict (st : option RateLimitState) (maxRequests : Num) (now : Z)
    (windowMs : Num) : RateLimitResult :=
  match st with
  | None => freshQuota maxRequests (plus (Int now) windowMs)
  | Some s =>
      if gt (Int now) (resetTime s) then freshQuota maxRequests (plus (Int now) windowMs)
      else if ge (Int (count s)) maxRequests then exhausted s
      else withinQuota maxRequests s
  end.

(** Both stores agree on every key but [key]. *)
Definition sameElsewhere (key : string) (w w' : World) : Prop :=
  forall k, k <> key ->
    memoryStorage w' !! k = memoryStorage w !! k /\
    redisStorage w' !! k = redisStorage w !! k.

(** Both stores agree on [key]. *)
Definition sameAt (key : string) (w w' : World) : Prop :=
  memoryStorage w' !! key = memoryStorage w !! key /\
  redisStorage w' !! key = redisStorage w !! key.

(** The state an increment leaves under a key that held [st]: the held
    state with one more; a window of its own that ends at [resetAt], with
    count 1, when nothing was held or when the in-process store finds the
    held window over at its clock reading [now]. *)
Definition afterIncrement (lim : t) (st : option RateLimitState) (resetAt : Num)
    (now : Z) : RateLimitState :=
  match st with
  | None => {| count := 1; resetTime := resetAt |}
  | Some s =>
      if negb (redis lim) && gt (Int now) (resetTime s)
      then {| count := 1; resetTime := resetAt |}
      else bump s
  end.

(** The number of clock readings an increment takes over state [st]. *)
Definition incrementTicks (lim : t) (st : option RateLimitState) : nat :=
  if redis lim then 1 else match st with Some _ => 2 | None => 1 end.

(** The counter under [key] was incremented between [w] and [w'] by a call
    whose first clock reading was number [n]: the backend now keeps what an
    increment leaves of the state it kept in [w]. *)
Definition incremented (E : Env) (lim : t) (key : string) (windowMs : Z) (n : nat)
    (w w' : World) : Prop :=
  exists st, stored E lim w key = Normal st /\
    holds E lim w' key
      (afterIncrement lim st (Int (clock E n + windowMs)) (clock E (S n))).

(** A paired check-then-increment call on one key. *)
Definition attempt (E : Env) (lim : t) (key : string) (maxRequests windowMs : Z)
    : M bool :=
  let* result := checkRateLimit E lim key (Int maxRequests) (Int windowMs) in
  if allowed result then
    let* _ := incrementCounter E lim key (Int windowMs) in ret true
  else ret false.

(** A sequence of attempts on [key], each preceded by some other
    activity; the verdicts in order and the world reached. *)
Fixpoint attempts (E : Env) (lim : t) (key : string) (maxRequests windowMs : Z)
    (interleaved : list (World -> World)) (w : World) : list bool * World :=
  match interleaved with
  | [] => ([], w)
  | other :: rest =>
      match attempt E lim key maxRequests windowMs (other w) with
      | (Normal v, w') =>
          let (vs, w'') := attempts E lim key maxRequests windowMs rest w' in
          (v :: vs, w'')
      | (Throw _, w') => ([], w')
      end
  end.



Fixpoint containsColon (s : string) : bool :=
  match s with
  | EmptyString => false
  | String c s' => Ascii.eqb c ":"%char || containsColon s'
  end.

(** Two pairs of connection id and message type that the limiter keeps
    apart: another type on the same connection, the same type on another
    connection, or any two distinct pairs of which the connection ids, or
    the message types, are free of colons. *)
Definition separate (c1 t1 c2 t2 : string) : Prop :=
  (c1 = c2 /\ t1 <> t2) \/
  (c1 <> c2 /\ t1 = t2) \/
  ((c1, t1) <> (c2, t2) /\
   ((containsColon c1 = false /\ containsColon c2 = false) \/
    (containsColon t1 = false /\ containsColon t2 = false))).

(** The limiter with message type [messageType] configured as [c]. *)
Definition configured (messageType : string) (c : RateLimitConfig) (lim : t) : t :=
  {| connectionConfig := connectionConfig lim;
     messageLimits := <[messageType := c]> (messageLimits lim);
     defaultLimit := defaultLimit lim;
     redis := redis lim |}.

(** [n] message checks in a row for one connection and type. *)
Fixpoint afterChecks (E : Env) (lim : t) (connectionId messageType : string)
    (n : nat) (w : World) : World :=
  match n with
  | O => w
  | S n' =>
      afterChecks E lim connectionId messageType n'
        (snd (checkMessageRateLimit E lim connectionId messageType w))
  end.

(** The limiter leaves everything but the clock and the stores alone. *)
Definition limiterOnly (w w' : World) : Prop :=
  connectionContexts w' = connectionContexts w /\
  calls w' = calls w /\
  logged w' = logged w /\
  draws w' = draws w.

(** *** Gateway *)

Definition rateLimited : WebSocketSecurityMiddleware.SecurityCheckResult :=
  WebSocketSecurityMiddleware.denial
    (Some "Rate limit exceeded. Too many connections.") (Some 429).

(** None of the calls in [l] reaches the rate limiter. *)
Definition noLimiterCall (l : list Call) : Prop :=
  forall c, In c l ->
    (exists request, c = CallAuthenticate request) \/ (exists tok, c = CallJwtVerify tok).

(** The registry gained the context of an authenticated user. *)
Definition registered (w w' : World) : Prop :=
  exists u ctx,
    ctx_user ctx = Some u /\
    connectionContexts w' = <[connectionId ctx := ctx]> (connectionContexts w).

End Spec.

(** ** Concrete inputs used to exercise the statements *)

Module Examples.

Import WebSocketSecurityMiddleware.

Definition secret32 : string := "0123456789abcdef0123456789abcdef".

Definition payloadU1 : JWTPayload :=
  {| sub := Some "u1"; p_email := Some "u1@x.com"; p_roles := None;
     p_permissions := None; sid := None |}.

(** A stopped clock, a verifier that accepts the token [good], a parser
    that knows three URLs. *)
Definition env : Env :=
  {| clock := fun _ => 0;
     random36 := fun n => pretty n;
     randomUUID := fun n => "uuid-" +:+ pretty n;
     jwtVerify := fun tok _ _ =>
       if String.eqb tok "good" then Normal payloadU1
       else Throw (ErrorObject "JWTInvalid" "signature verification failed");
     URL_parse := fun u =>
       if String.eqb u "ws://localhost/ws?token=good" then Some [("token", "good")]
       else if String.eqb u "ws://localhost/ws?token=bad" then Some [("token", "bad")]
       else if String.eqb u "ws://localhost/ws" then Some []
       else None;
     JSON_stringify := fun _ => "";
     JSON_parse := fun _ => None |}.

(** The same with a clock that reads 200 at every call. *)
Definition lateEnv : Env :=
  {| clock := fun _ => 200;
     random36 := random36 env;
     randomUUID := randomUUID env;
     jwtVerify := jwtVerify env;
     URL_parse := URL_parse env;
     JSON_stringify := JSON_stringify env;
     JSON_parse := JSON_parse env |}.

Definition emptyWorld : World :=
  {| ticks := 0; draws := 0; memoryStorage := ∅; redisStorage := ∅;
     connectionContexts := ∅; logged := []; calls := [] |}.

Definition partialConfig (allowList : option (list string)) : PartialConfig :=
  {| cfg_allowedOrigins := allowList;
     cfg_jwtSecret := secret32;
     cfg_jwtAlgorithm := None;
     cfg_connectionRateLimit := None;
     cfg_messageRateLimits := ∅;
     cfg_defaultRateLimit := None;
     cfg_enableLogging := None |}.

Definition shortSecretConfig : PartialConfig :=
  {| cfg_allowedOrigins := None;
     cfg_jwtSecret := "short";
     cfg_jwtAlgorithm := None;
     cfg_connectionRateLimit := None;
     cfg_messageRateLimits := ∅;
     cfg_defaultRateLimit := None;
     cfg_enableLogging := None |}.

Definition handler : WebSocketAuthHandler.t :=
  WebSocketAuthHandler.new secret32 None.

(** The gateway that [new (partialConfig allowList) false] constructs. *)
Definition gateway (allowList : option (list string)) : t :=
  {| config := mergedConfig (partialConfig allowList);
     authHandler := WebSocketAuthHandler.new secret32 (Some "HS256");
     rateLimiter :=
       WebSocketRateLimiter.createWebSocketRateLimiter
         (asPartialConnection DEFAULT_CONNECTION_RATE_LIMIT)
         (∅ ∪ DEFAULT_MESSAGE_RATE_LIMITS)
         (asPartialRateLimit DEFAULT_RATE_LIMIT)
         false |}.

Definition limiter : WebSocketRateLimiter.t := rateLimiter (gateway None).

(** The same limiter on the external store. *)
Definition redisLimiter : WebSocketRateLimiter.t :=
  WebSocketRateLimiter.createWebSocketRateLimiter
    WebSocketRateLimiter.noConnectionConfig ∅
    WebSocketRateLimiter.noRateLimitConfig true.

(** A stand-in for the JSON codec on the states of the examples: count
    and reset time in decimal, separated by a comma. *)
Definition showState (s : RateLimitState) : string :=
  pretty (count s) +:+ "," +:+
  match resetTime s with
  | Int r => pretty r
  | Undefined => ""
  | NaN | Null => "null"
  end.

Fixpoint afterComma (s : string) : string :=
  match s with
  | EmptyString => EmptyString
  | String c s' => if Ascii.eqb c ","%char then s' else afterComma s'
  end.

Fixpoint readDigits (s : string) (acc : Z) : option Z :=
  match s with
  | EmptyString => Some acc
  | String c s' =>
      match Ascii.is_nat c with
      | Some d => readDigits s' (10 * acc + Z.of_nat d)
      | None => None
      end
  end.

Definition readNum (v : string) : option Num :=
  if String.eqb v "null" then Some Null
  else if String.eqb v "" then Some Undefined
  else Int <$> readDigits v 0.

Definition readState (v : string) : option RateLimitState :=
  match readDigits (beforeComma v) 0, readNum (afterComma v) with
  | Some c, Some r => Some {| count := c; resetTime := r |}
  | _, _ => None
  end.

(** The late clock together with that codec. *)
Definition redisEnv : Env :=
  {| clock := fun _ => 200;
     random36 := random36 env;
     randomUUID := randomUUID env;
     jwtVerify := jwtVerify env;
     URL_parse := URL_parse env;
     JSON_stringify := showState;
     JSON_parse := readState |}.

(** A world whose external store holds [s] under [key]. *)
Definition redisWorldWith (key : string) (s : RateLimitState) : World :=
  set_redisStorage {[key := {| value := showState s; px := Some 1000 |}]} emptyWorld.

(** A world whose in-process store is [m]. *)
Definition worldWith (m : gmap string RateLimitState) : World :=
  set_memoryStorage m emptyWorld.

Definition sampleState : RateLimitState := {| count := 3; resetTime := Int 100 |}.

Definition request (origin : HeaderValue) (url : option string)
    : WebSocketUpgradeRequest :=
  {| headers := {| h_origin := origin; h_user_agent := None;
                   h_x_forwarded_for := HAbsent; h_x_real_ip := HAbsent |};
     remoteAddress := Some "192.168.1.1";
     url := url |}.

End Examples.

(** ** The rest of websocket-auth.ts *)

Module WebSocketAuth.

(** The character class [[A-Za-z0-9_-]]. *)
Definition isBase64UrlChar (c : ascii) : bool :=
  let n := nat_of_ascii c in
  ((65 <=? n)%nat && (n <=? 90)%nat) || ((97 <=? n)%nat && (n <=? 122)%nat) ||
  ((48 <=? n)%nat && (n <=? 57)%nat) || (n =? 95)%nat || (n =? 45)%nat.

Fixpoint allChars (p : ascii -> bool) (s : string) : bool :=
  match s with
  | EmptyString => true
  | String c s' => p c && allChars p s'
  end.

(** [/^[A-Za-z0-9_-]+$/.test(part)] *)
Definition base64UrlRegex_test (part : string) : bool :=
  truthy part && allChars isBase64UrlChar part.

(** [s.split(sep)] for a one-character separator: never an empty list. *)
Fixpoint split (sep : ascii) (s : string) : list string :=
  match s with
  | EmptyString => [EmptyString]
  | String c s' =>
      if Ascii.eqb c sep then EmptyString :: split sep s'
      else
        match split sep s' with
        | part :: parts => String c part :: parts
        | [] => [String c EmptyString]
        end
  end.

Definition isValidTokenFormat (token : string) : bool :=
  if negb (truthy token) then false
  else
    let parts := split "."%char token in
    if negb (length parts =? 3)%nat then false
    else
      forallb (fun part => base64UrlRegex_test part && (0 <? String.length part)%nat)
              parts.

Definition publicPaths : list string := ["/ws/health"; "/ws/public"].

Definition isAuthRequired (path : string) : bool :=
  negb (existsb (fun publicPath => startsWith path publicPath) publicPaths).

End WebSocketAuth.

(** ** The rest of websocket-rate-limiter.ts *)

Module RateLimiterMaintenance.

(** The periodic sweep of the in-process store: every entry whose
    [resetTime] is at or before the clock is deleted. *)
Definition cleanupMemoryStorage (E : Env) : M unit :=
  let* now := Date_now E in
  fun w =>
    (Normal tt,
     set_memoryStorage
       (filter (fun kv : string * RateLimitState => le (resetTime kv.2) (Int now) = false)
               (memoryStorage w))
       w).

(** [destroy()]: the timer is cleared and the in-process store emptied. *)
Definition destroy : M unit :=
  fun w => (Normal tt, set_memoryStorage ∅ w).

End RateLimiterMaintenance.

(** ** The rest of websocket-security.ts *)

Module GatewayLifecycle.

Import WebSocketSecurityMiddleware.

(** [destroy()] of the gateway. *)
Definition destroy : M unit :=
  let* _ := RateLimiterMaintenance.destroy in
  fun w => (Normal tt, set_connectionContexts ∅ w).

(** What the adapter built by [createWebSocketSecurityExpressMiddleware]
    did with its callbacks: answered through [response] (status of
    [writeHead], then the [error] and [code] of the JSON body), called
    [next()] after attaching the user and a connection id to the request, or
    called [next(error)]; [wrapped] tells that the thrown value was not an
    [Error] and went into [new Error(String(error))]. *)
Inductive AdapterOutcome :=
| Responded (status : Z) (error : option string) (code : option Z)
| Next (user : option AuthenticatedUser) (connectionId : string)
| NextError (wrapped : bool) (e : Thrown).

(** [result.code || 403] *)
Definition codeOr403 (code : option Z) : Z :=
  match code with
  | Some c => if c =? 0 then 403 else c
  | None => 403
  end.

Definition expressMiddleware (E : Env) (securityMiddleware : t)
    (request : WebSocketUpgradeRequest) : M AdapterOutcome :=
  tryCatch
    (let* result := performSecurityCheck E securityMiddleware request in
     if negb (sc_allowed result) then
       ret (Responded (codeOr403 (sc_code result)) (sc_error result) (sc_code result))
     else
       let* connectionId := generateConnectionId E in
       ret (Next (sc_result result ≫= user) connectionId))
    (fun error =>
       match error with
       | ErrorObject _ _ => ret (NextError false error)
       | NonError => ret (NextError true error)
       end).

End GatewayLifecycle.

(** ** Vocabulary of the further properties *)

Module Props.

Import WebSocketRateLimiter.

(** [s] contains the character [c]. *)
Fixpoint containsChar (c : ascii) (s : string) : bool :=
  match s with
  | EmptyString => false
  | String d s' => Ascii.eqb d c || containsChar c s'
  end.

(** A non-empty segment over the base64url alphabet. *)
Definition segment (s : string) : Prop :=
  s <> "" /\ WebSocketAuth.allChars WebSocketAuth.isBase64UrlChar s = true.

(** No stored counter is negative. *)
Definition nonNegative (m : gmap string RateLimitState) : Prop :=
  forall k s, m !! k = Some s -> 0 <= count s.

(** The session id the authenticator gives a user: the [sid] claim when it
    is a non-empty string, the next random UUID otherwise. *)
Definition sessionIdFor (E : Env) (payload : JWTPayload) (w : World) : string :=
  match sid payload with
  | Some s => if truthy s then s else randomUUID E (draws w)
  | None => randomUUID E (draws w)
  end.

(** The user the authenticator reads off a payload with [sub] and
    [email]. *)
Definition userOf (E : Env) (payload : JWTPayload) (id em : string) (w : World)
    : AuthenticatedUser :=
  {| user_id := id;
     email := em;
     roles := default [] (p_roles payload);
     permissions := default [] (p_permissions payload);
     sessionId := sessionIdFor E payload w |}.

(** The value [extractIp] reads from a header: the string itself, or the
    first element of a non-empty list. *)
Definition firstValue (h : HeaderValue) : option string :=
  match h with
  | HString s => Some s
  | HArray (s :: _) => Some s
  | _ => None
  end.

(** The state an in-process increment of [key] writes. *)
Definition incrementedState (E : Env) (key : string) (windowMs : Num) (w : World)
    : RateLimitState :=
  match memoryStorage w !! key with
  | None => {| count := 1; resetTime := plus (Int (clock E (ticks w))) windowMs |}
  | Some s =>
      if gt (Int (clock E (S (ticks w)))) (resetTime s)
      then {| count := 1; resetTime := plus (Int (clock E (ticks w))) windowMs |}
      else bump s
  end.

(** [secs] is the number of whole seconds that covers the time from [now]
    to [resetAt]. *)
Definition retrySeconds (resetAt now secs : Z) : Prop :=
  1000 * (secs - 1) < resetAt - now <= 1000 * secs.

(** The [retryAfter] that goes with a reset time at instant [now]: the
    whole seconds that cover the time between them, and not a number when
    the reset time is none. *)
Definition retryFor (resetAt : Num) (now : Z) (retry : Num) : Prop :=
  match toNumber resetAt with
  | Some t => exists secs, retry = Int secs /\ retrySeconds t now secs
  | None => retry = NaN
  end.

(** The shape of a verdict returned by a call that went from world [w] to
    world [w']: a positive one carries no [retryAfter]; a negative one has
    nothing remaining and a [retryAfter] computed from a clock reading
    taken during the call, after its first one. *)
Definition shaped (E : Env) (w w' : World) (r : RateLimitResult) : Prop :=
  if allowed r then retryAfter r = None
  else remaining r = Int 0 /\
       exists retry n, retryAfter r = Some retry /\ (ticks w < n < ticks w')%nat /\
                       retryFor (r_resetTime r) (clock E n) retry.

(** The count a stored state stands for at instant [now]: nothing once the
    window is over. *)
Definition countInEffect (st : option RateLimitState) (now : Z) : Z :=
  match st with
  | Some s => if gt (Int now) (resetTime s) then 0 else count s
  | None => 0
  end.

(** The JSON codec returns state [s] from its own text. *)
Definition roundTrips (E : Env) (s : RateLimitState) : Prop :=
  truthy (JSON_stringify E s) = true /\
  JSON_parse E (JSON_stringify E s) = Some s.

(** An activity that leaves the external entry of [key] alone. *)
Definition keepsItem (key : string) (other : World -> World) : Prop :=
  forall w, redisStorage (other w) !! key = redisStorage w !! key.

(** The id [generateConnectionId] builds from clock reading [t] and random
    draw [d]. *)
Definition connectionIdAt (E : Env) (t d : nat) : string :=
  "ws_" +:+ pretty (clock E t) +:+ "_" +:+ random36 E d.

(** The audit events among [l] that are marked as blocked, oldest first. *)
Definition blockedEvents (l : list LogRecord) : list SecurityAuditLog :=
  omap (fun r => match r with
                 | LogEvent e => if blocked e then Some e else None
                 | LogWarn _ _ => None
                 end) l.

(** The types of the blocked events a gateway with configuration [c]
    appended as [l]: nothing at all with logging off, [types] with
    logging on. *)
Definition audited (c : WebSocketSecurityConfig) (l : list LogRecord)
    (types : list SecurityEventType) : Prop :=
  if enableLogging c then map event (blockedEvents l) = types else l = [].

(** The blocked event that goes with the status code of a denial. *)
Definition eventsFor (code : option Z) : list SecurityEventType :=
  match code with
  | Some 403 => [ORIGIN_VALIDATION_FAILED]
  | Some 401 => [AUTHENTICATION_FAILED]
  | Some 429 => [CONNECTION_RATE_LIMIT_EXCEEDED]
  | _ => []
  end.

(** The clock and the random source only move forward. *)
Definition advances (w w' : World) : Prop :=
  (ticks w <= ticks w')%nat /\ (draws w <= draws w')%nat.

(** The limiter [lim] without and with an external store. *)
Definition inProcess (lim : t) : t :=
  {| connectionConfig := connectionConfig lim;
     messageLimits := messageLimits lim;
     defaultLimit := defaultLimit lim;
     redis := false |}.

Definition external (lim : t) : t :=
  {| connectionConfig := connectionConfig lim;
     messageLimits := messageLimits lim;
     defaultLimit := defaultLimit lim;
     redis := true |}.

(** The verdict of the message check number [k] (from 0) in one window
    with quota [quota]: the first one shows the [resetTime] it computed
    itself, the later ones the stored one. *)
Definition countdown (quota : Z) (k : nat) (firstReset storedReset : Z)
    : RateLimitResult :=
  if Z.of_nat k <? quota then
    {| allowed := true; remaining := Int (quota - Z.of_nat k - 1);
       r_resetTime := Int (match k with O => firstReset | S _ => storedReset end);
       retryAfter := None |}
  else
    {| allowed := false; remaining := Int 0; r_resetTime := Int storedReset;
       retryAfter := None |}.

(** The operations of the limiter, as a caller can issue them. *)
Inductive LimiterCall :=
| CheckConnection (userId ip : string)
| CheckMessage (connectionId messageType : string)
| Decrement (userId ip : string)
| Reset (key : string)
| Status (key : string)
| Sweep
| Destroy.

(** The world after one operation, whatever it returned. *)
Definition afterCall (E : Env) (lim : t) (c : LimiterCall) (w : World) : World :=
  match c with
  | CheckConnection userId ip => snd (checkConnectionRateLimit E lim userId ip w)
  | CheckMessage connectionId messageType =>
      snd (checkMessageRateLimit E lim connectionId messageType w)
  | Decrement userId ip => snd (decrementConnectionCounter lim userId ip w)
  | Reset key => snd (resetRateLimit lim key w)
  | Status key => snd (getRateLimitStatus E lim key w)
  | Sweep => snd (RateLimiterMaintenance.cleanupMemoryStorage E w)
  | Destroy => snd (RateLimiterMaintenance.destroy w)
  end.

(** The world after a sequence of operations. *)
Definition afterCalls (E : Env) (lim : t) (cs : list LimiterCall) (w : World) : World :=
  fold_left (fun w0 c => afterCall E lim c w0) cs w.

End Props.

(** ** Scenarios for the lifecycle of a connection *)

Module Scenarios.

Import WebSocketSecurityMiddleware.

(** A request without [Origin] header that carries the token the verifier
    of [Examples.env] accepts. *)
Definition goodRequest : WebSocketUpgradeRequest :=
  Examples.request HAbsent (Some "/ws?token=good").

(** A request from an origin outside the default allow list. *)
Definition foreignRequest : WebSocketUpgradeRequest :=
  Examples.request (HString "https://evil.example") (Some "/ws?token=good").

(** The in-process store with the connection counter of user [u1] at the
    default maximum, inside its window. *)
Definition fullForU1 : World :=
  Examples.worldWith
    {[WebSocketRateLimiter.getConnectionKey WebSocketRateLimiter.user_key "u1"
        := {| count := 5; resetTime := Int 100 |}]}.

(** A configuration that overrides one message quota and the logging
    switch. *)
Definition customConfig : PartialConfig :=
  {| cfg_allowedOrigins := None;
     cfg_jwtSecret := Examples.secret32;
     cfg_jwtAlgorithm := None;
     cfg_connectionRateLimit := None;
     cfg_messageRateLimits := {["CHAT_MESSAGE" := {| windowMs := 1000; maxRequests := 2 |}]};
     cfg_defaultRateLimit := None;
     cfg_enableLogging := Some false |}.

(** A message entry in the middle of its window, in either store. *)
Definition chatKey : string := WebSocketRateLimiter.getMessageKey "c1" "CHAT_MESSAGE".

Definition chatState : RateLimitState := {| count := 3; resetTime := Int 1000 |}.

Definition chatInProcess : World := Examples.worldWith {[chatKey := chatState]}.

Definition chatExternal : World := Examples.redisWorldWith chatKey chatState.

(** An origin and an allow list in mixed case with padding, and their
    normal forms. *)
Definition paddedRequest : WebSocketUpgradeRequest :=
  Examples.request (HString " https://APP.example ") None.

Definition normalRequest : WebSocketUpgradeRequest :=
  Examples.request (HString "https://app.example") None.

Definition paddedGateway : t := Examples.gateway (Some ["HTTPS://App.Example "]).

Definition normalGateway : t := Examples.gateway (Some ["https://app.example"]).

End Scenarios.

(** ** Strings *)

Section StringFacts.

Lemma truthy_true (s : string) : truthy s = true <-> s <> "".
Proof.
  unfold truthy. rewrite negb_true_iff. split.
  - intros H ->. rewrite String.eqb_refl in H. discriminate.
  - intros H. destruct (String.eqb s "") eqn:Heq; [|reflexivity].
    apply String.eqb_eq in Heq. contradiction.
Qed.

Lemma append_empty (s : string) : "" +:+ s = s.
Proof. reflexivity. Qed.

Lemma append_cons (c : ascii) (a b : string) :
  String c a +:+ b = String c (a +:+ b).
Proof. reflexivity. Qed.

Lemma endsWith_self (s : string) : endsWith s s = true.
Proof. destruct s; cbn [endsWith]; rewrite String.eqb_refl; reflexivity. Qed.

Lemma endsWith_front (front suffix : string) :
  endsWith (front +:+ suffix) suffix = true.
Proof.
  induction front as [|c front IH].
  - rewrite append_empty. apply endsWith_self.
  - rewrite append_cons. cbn [endsWith]. rewrite IH. apply orb_true_r.
Qed.

Lemma endsWith_spec (s suffix : string) :
  endsWith s suffix = true <-> Spec.EndsWith s suffix.
Proof.
  split.
  - induction s as [|c s IH]; cbn [endsWith]; intros H.
    + rewrite orb_false_r in H. apply String.eqb_eq in H. subst. by exists "".
    + apply orb_true_iff in H as [H|H].
      * apply String.eqb_eq in H. subst. by exists "".
      * destruct (IH H) as [front ->]. by exists (String c front).
  - intros [front ->]. apply endsWith_front.
Qed.

End StringFacts.

(** ** Token authenticator *)

Section Authenticator.

Import WebSocketAuthHandler.

Variable E : Env.

Lemma extractTokenFromUrl_never_throws (request : WebSocketUpgradeRequest) :
  exists parsed, extractTokenFromUrl E request = Normal parsed.
Proof.
  unfold extractTokenFromUrl.
  destruct (url request) as [u|]; [|by eexists].
  destruct (negb (truthy u)); [by eexists|].
  destruct (new_URL E (urlString u)) as [ps|e]; [|by eexists].
  destruct (searchParams_get ps "token") as [tok|]; [|by eexists].
  destruct (negb (truthy tok)); by eexists.
Qed.

Lemma extractTokenFromUrl_lacksToken (request : WebSocketUpgradeRequest) :
  Spec.lacksToken E request -> extractTokenFromUrl E request = Normal None.
Proof.
  unfold Spec.lacksToken, extractTokenFromUrl, new_URL.
  destruct (url request) as [u|]; [|reflexivity].
  destruct (negb (truthy u)); [reflexivity|].
  destruct (URL_parse E (urlString u)) as [ps|]; [|reflexivity].
  intros ->. reflexivity.
Qed.

Lemma verifyToken_never_throws (h : t) (tok : string) (w : World) :
  exists result w',
    verifyToken E h tok w = (Normal result, w') /\
    calls w' = calls w ++ [CallJwtVerify tok] /\
    memoryStorage w' = memoryStorage w /\
    redisStorage w' = redisStorage w /\
    connectionContexts w' = connectionContexts w /\
    (success result = true -> exists u, user result = Some u) /\
    (success result = false -> a_code result = Some 401).
Proof.
  assert (Hgo : forall (r : AuthenticationResult) (w' : World) (c : Completion AuthenticationResult * World),
    c = (Normal r, w') ->
    calls w' = calls w ++ [CallJwtVerify tok] ->
    memoryStorage w' = memoryStorage w ->
    redisStorage w' = redisStorage w ->
    connectionContexts w' = connectionContexts w ->
    (success r = true -> exists u, user r = Some u) ->
    (success r = false -> a_code r = Some 401) ->
    exists result w'',
      c = (Normal result, w'') /\
      calls w'' = calls w ++ [CallJwtVerify tok] /\
      memoryStorage w'' = memoryStorage w /\
      redisStorage w'' = redisStorage w /\
      connectionContexts w'' = connectionContexts w /\
      (success result = true -> exists u, user result = Some u) /\
      (success result = false -> a_code result = Some 401)).
  { intros r w' c -> ? ? ? ? ? ?. exists r, w'. repeat apply conj; first [reflexivity | assumption]. }
  unfold verifyToken, tryCatch, bind, spy, liftC, ret. cbn.
  destruct (jwtVerify E tok (secret h) (algorithm h)) as [payload|e].
  - unfold extractUserFromPayload, bind, ret, crypto_randomUUID.
    destruct (sub payload), (p_email payload);
      try (eapply Hgo; [reflexivity|reflexivity..|discriminate|reflexivity]).
    destruct (sid payload) as [sid0|]; [destruct (truthy sid0)|];
      (eapply Hgo; [reflexivity|reflexivity..|cbn; eauto|discriminate]).
  - destruct e as [name message|].
    + destruct (String.eqb name "JWTExpired"); [|destruct (String.eqb name "JWTInvalid")];
        (eapply Hgo; [reflexivity|reflexivity..|discriminate|reflexivity]).
    + eapply Hgo; [reflexivity|reflexivity..|discriminate|reflexivity].
Qed.

Lemma authenticate_never_throws (h : t) (request : WebSocketUpgradeRequest) (w : World) :
  exists result w',
    authenticate E h request w = (Normal result, w') /\
    (exists l, calls w' = calls w ++ l /\
               forall c, In c l -> exists tok, c = CallJwtVerify tok) /\
    memoryStorage w' = memoryStorage w /\
    redisStorage w' = redisStorage w /\
    connectionContexts w' = connectionContexts w /\
    (success result = true -> exists u, user result = Some u) /\
    (success result = false -> a_code result = Some 401).
Proof.
  unfold authenticate, bind, liftC.
  destruct (extractTokenFromUrl_never_throws request) as [parsed ->].
  destruct parsed as [parsed|].
  - destruct (verifyToken_never_throws h (token parsed) w)
      as (result & w' & -> & Hc & Hm & Hr & Hx & Hs & Hf).
    exists result, w'. split; [reflexivity|]. split; [|repeat apply conj; assumption].
    exists [CallJwtVerify (token parsed)]. split; [assumption|].
    intros c [<-|[]]. by eexists.
  - exists (failure "Missing authentication token" 401), w. cbn.
    split; [reflexivity|]. split; [|repeat apply conj; first [reflexivity|discriminate]].
    exists []. split; [by rewrite app_nil_r|]. intros c [].
Qed.

End Authenticator.

Section AuthenticatorClaims.

Import WebSocketAuthHandler Spec.

(** C9. A secret of fewer than 32 characters makes the authenticator's
    factory throw, so no authenticator is produced, and the gateway's
    constructor, which calls the factory, throws the same error: no
    gateway exists that could serve a request. *)
Theorem short_secret_is_fatal (secret : string) (algorithm : option string) :
  (String.length secret < 32)%nat ->
  createWebSocketAuthHandler secret algorithm = Throw shortSecretError /\
  forall (c : WebSocketSecurityMiddleware.PartialConfig) (redis : bool),
    WebSocketSecurityMiddleware.cfg_jwtSecret c = secret ->
    WebSocketSecurityMiddleware.new c redis = Throw shortSecretError.
Proof.
  intros Hlen.
  assert (Hguard : forall a, createWebSocketAuthHandler secret a = Throw shortSecretError).
  { intros a. unfold createWebSocketAuthHandler.
    apply Nat.ltb_lt in Hlen. rewrite Hlen, orb_true_r. reflexivity. }
  split; [apply Hguard|].
  intros c redis Hc. unfold WebSocketSecurityMiddleware.new. cbn.
  rewrite Hc, Hguard. reflexivity.
Qed.

Lemma short_secret_is_fatal_witness :
  createWebSocketAuthHandler "short" None = Throw shortSecretError /\
  forall (c : WebSocketSecurityMiddleware.PartialConfig) (redis : bool),
    WebSocketSecurityMiddleware.cfg_jwtSecret c = "short" ->
    WebSocketSecurityMiddleware.new c redis = Throw shortSecretError.
Proof. apply (short_secret_is_fatal "short" None). cbn. lia. Defined.

End AuthenticatorClaims.

(** ** Gateway stages *)

Section GatewayStages.

Import WebSocketSecurityMiddleware Spec.

Variable E : Env.
Variable g : t.

Lemma logSecurityEvent_run (e : SecurityAuditLog) (w : World) :
  exists w',
    logSecurityEvent g e w = (Normal tt, w') /\
    ticks w' = ticks w /\ draws w' = draws w /\ calls w' = calls w /\
    memoryStorage w' = memoryStorage w /\ redisStorage w' = redisStorage w /\
    connectionContexts w' = connectionContexts w.
Proof.
  unfold logSecurityEvent, logger_log, ret.
  destruct (enableLogging (config g)); eexists; (split; [reflexivity|]); by cbn.
Qed.

Lemma validateOrigin_run (request : WebSocketUpgradeRequest) (w : World) :
  exists w',
    validateOrigin E g request w
      = (Normal (originVerdict (allowedOrigins (config g)) (extractOrigin request)), w') /\
    calls w' = calls w /\
    memoryStorage w' = memoryStorage w /\
    redisStorage w' = redisStorage w /\
    connectionContexts w' = connectionContexts w.
Proof.
  unfold validateOrigin, originVerdict.
  destruct (extractOrigin request) as [o|].
  - destruct (truthy o); cbn [negb].
    + destruct (existsb _ _); cbn [negb];
        unfold bind, generateConnectionId, bind, Date_now, Math_random36, ret; cbn;
        match goal with
        | |- context [logSecurityEvent g ?e ?w0] =>
            destruct (logSecurityEvent_run e w0) as (w' & -> & _ & _ & ? & ? & ? & ?)
        end; exists w'; repeat apply conj; first [reflexivity | assumption].
    + unfold bind, ret, logger_warn.
      destruct (enableLogging (config g)); eexists; (split; [reflexivity|]); by cbn.
  - unfold bind, ret, logger_warn.
    destruct (enableLogging (config g)); eexists; (split; [reflexivity|]); by cbn.
Qed.

Lemma authenticate_run (request : WebSocketUpgradeRequest) (w : World) :
  exists result w',
    authenticate E g request w = (Normal result, w') /\
    (exists w0, fst (WebSocketAuthHandler.authenticate E (authHandler g) request w0)
                = Normal result) /\
    (exists l, calls w' = calls w ++ CallAuthenticate request :: l /\
               forall c, In c l -> exists tok, c = CallJwtVerify tok) /\
    memoryStorage w' = memoryStorage w /\
    redisStorage w' = redisStorage w /\
    (success result = false ->
       connectionContexts w' = connectionContexts w /\ a_code result = Some 401) /\
    (success result = true ->
       exists u ctx,
         user result = Some u /\ ctx_user ctx = Some u /\
         connectionContexts w'
           = <[connectionId ctx := ctx]> (connectionContexts w)).
Proof.
  unfold authenticate, bind, generateConnectionId, bind, Date_now, Math_random36,
    spy, ret. cbn -[WebSocketAuthHandler.authenticate].
  match goal with
  | |- context [WebSocketAuthHandler.authenticate E ?h ?r ?w0] =>
      destruct (authenticate_never_throws E h r w0)
        as (result & w1 & Hrun & (l & Hcalls & Hl) & Hm & Hr & Hx & Hs & Hf);
      pose proof (f_equal fst Hrun) as Hfst; cbn [fst] in Hfst;
      rewrite Hrun
  end.
  cbn in Hcalls, Hm, Hr, Hx.
  destruct (success result) eqn:Hsucc; cbn [negb].
  - destruct (Hs eq_refl) as [u Hu].
    unfold setContext. cbn.
    match goal with
    | |- context [logSecurityEvent g ?e ?w0] =>
        destruct (logSecurityEvent_run e w0) as (w' & -> & _ & _ & Hc' & Hm' & Hr' & Hx')
    end.
    cbn in Hc', Hm', Hr', Hx'.
    exists result, w'. split; [reflexivity|]. split; [eexists; exact Hfst|].
    split; [exists l; split; [rewrite Hc', Hcalls, <- app_assoc; reflexivity|exact Hl]|].
    split; [congruence|]. split; [congruence|]. split; [intros; congruence|].
    intros _. rewrite Hx', Hx.
    match goal with
    | |- context [<[_ := ?c]> (connectionContexts w)] => exists u, c
    end.
    repeat apply conj; first [exact Hu | reflexivity].
  - match goal with
    | |- context [logSecurityEvent g ?e ?w0] =>
        destruct (logSecurityEvent_run e w0) as (w' & -> & _ & _ & Hc' & Hm' & Hr' & Hx')
    end.
    cbn in Hc', Hm', Hr', Hx'.
    exists result, w'. split; [reflexivity|]. split; [eexists; exact Hfst|].
    split; [exists l; split; [rewrite Hc', Hcalls, <- app_assoc; reflexivity|exact Hl]|].
    split; [congruence|]. split; [congruence|]. split; [|intros; congruence].
    intros _. split; [congruence|]. by apply Hf.
Qed.

End GatewayStages.

(** ** Claims on the authentication stage and the origin validator *)

Section StageClaims.

Import WebSocketSecurityMiddleware Spec.

(** C7. A request whose URL is absent, is rejected by the URL parser, or
    carries no [token] parameter yields no token; the authenticator
    answers with the 401 denial [Missing authentication token] as a
    value, and so does the gateway's authentication stage, which leaves
    the registry as it was.  Nothing is thrown. *)
Theorem missing_token_is_denied
    (E : Env) (h : WebSocketAuthHandler.t) (g : t)
    (request : WebSocketUpgradeRequest) :
  lacksToken E request ->
  WebSocketAuthHandler.extractTokenFromUrl E request = Normal None /\
  success missingToken = false /\
  a_code missingToken = Some 401 /\
  (forall w,
     WebSocketAuthHandler.authenticate E h request w = (Normal missingToken, w)) /\
  (forall w, exists w',
     authenticate E g request w = (Normal missingToken, w') /\
     connectionContexts w' = connectionContexts w).
Proof.
  intros Hno.
  pose proof (extractTokenFromUrl_lacksToken E request Hno) as Hex.
  assert (Hh : forall h0 w,
    WebSocketAuthHandler.authenticate E h0 request w = (Normal missingToken, w)).
  { intros h0 w. unfold WebSocketAuthHandler.authenticate, bind, liftC.
    rewrite Hex. reflexivity. }
  repeat apply conj; try reflexivity; try assumption; [apply Hh|].
  intros w.
  destruct (authenticate_run E g request w)
    as (result & w' & Hrun & (w0 & Hres) & _ & _ & _ & Hfail & _).
  rewrite Hh in Hres. cbn in Hres. injection Hres as <-.
  exists w'. split; [exact Hrun|]. by apply Hfail.
Qed.

Lemma missing_token_is_denied_witness :
  WebSocketAuthHandler.extractTokenFromUrl Examples.env
    (Examples.request HAbsent (Some "not-a-valid-url")) = Normal None /\
  success missingToken = false /\
  a_code missingToken = Some 401 /\
  (forall w,
     WebSocketAuthHandler.authenticate Examples.env Examples.handler
       (Examples.request HAbsent (Some "not-a-valid-url")) w
     = (Normal missingToken, w)) /\
  (forall w, exists w',
     authenticate Examples.env (Examples.gateway None)
       (Examples.request HAbsent (Some "not-a-valid-url")) w
     = (Normal missingToken, w') /\
     connectionContexts w' = connectionContexts w).
Proof.
  apply (missing_token_is_denied Examples.env Examples.handler (Examples.gateway None)
           (Examples.request HAbsent (Some "not-a-valid-url"))).
  vm_compute. exact I.
Defined.

Lemma originMatches_spec (normalizedOrigin allowed : string) :
  originMatches normalizedOrigin allowed = true <->
  entryMatches normalizedOrigin (trim (toLowerCase allowed)).
Proof.
  unfold originMatches, entryMatches.
  rewrite orb_true_iff, String.eqb_eq, endsWith_spec. reflexivity.
Qed.

Lemma isAllowed_spec (allowList : list string) (origin : string) :
  existsb (originMatches (trim (toLowerCase origin))) allowList = true <->
  originAllowed allowList origin.
Proof.
  unfold originAllowed. rewrite existsb_exists.
  split; intros (entry & Hin & Hm); exists entry; (split; [exact Hin|]);
    by apply originMatches_spec.
Qed.

(** C5 (amended). For a request that carries a non-empty [Origin] header
    the validator returns a verdict that is valid exactly when some
    allow-list entry, lower-cased and trimmed like the origin, equals the
    normalized origin or is matched as a suffix: the normalized origin
    ends with a dot followed by the normalized entry without its
    [http://] or [https://] prefix.  When no entry matches, the verdict is
    invalid with status 403 and the message [Origin not allowed]. *)
Theorem origin_valid_iff_matched
    (E : Env) (g : t) (request : WebSocketUpgradeRequest) (origin : string)
    (w : World) :
  extractOrigin request = Some origin ->
  origin <> "" ->
  exists r w',
    validateOrigin E g request w = (Normal r, w') /\
    (valid r = true <-> originAllowed (allowedOrigins (config g)) origin) /\
    (~ originAllowed (allowedOrigins (config g)) origin -> r = originDenied).
Proof.
  intros Ho Hne.
  destruct (validateOrigin_run E g request w) as (w' & Hrun & _).
  rewrite Ho in Hrun. unfold originVerdict in Hrun.
  apply truthy_true in Hne. rewrite Hne in Hrun.
  eexists _, w'. split; [exact Hrun|].
  rewrite <- isAllowed_spec.
  destruct (existsb _ _); cbn; split; [tauto|intros []; reflexivity|split; congruence|reflexivity].
Qed.

Lemma origin_valid_iff_matched_witness :
  exists r w',
    validateOrigin Examples.env (Examples.gateway None)
      (Examples.request (HString "HTTPS://App.Antigravity.Dev ") (Some "/ws"))
      Examples.emptyWorld = (Normal r, w') /\
    (valid r = true <->
     originAllowed ALLOWED_ORIGINS "HTTPS://App.Antigravity.Dev ") /\
    (~ originAllowed ALLOWED_ORIGINS "HTTPS://App.Antigravity.Dev " -> r = originDenied).
Proof.
  apply (origin_valid_iff_matched Examples.env (Examples.gateway None)
           (Examples.request (HString "HTTPS://App.Antigravity.Dev ") (Some "/ws"))
           "HTTPS://App.Antigravity.Dev " Examples.emptyWorld).
  - reflexivity.
  - discriminate.
Defined.

Lemma not_entryMatches (normalizedOrigin entry : string) :
  String.eqb normalizedOrigin entry = false ->
  endsWith normalizedOrigin ("." +:+ stripScheme entry) = false ->
  ~ entryMatches normalizedOrigin entry.
Proof.
  intros Hne Hsuf [Heq|Hend].
  - apply String.eqb_eq in Heq. congruence.
  - apply endsWith_spec in Hend. congruence.
Qed.

(** C5, as stated, fails in two ways.  An [Origin] header that is present
    but empty is accepted although no entry matches it; and an origin is
    accepted through an entry that matches only after the entry itself is
    lower-cased. *)
Lemma origin_claim_counterexample :
  (extractOrigin (Examples.request (HString "") (Some "/ws")) = Some "" /\
   fst (validateOrigin Examples.env (Examples.gateway None)
          (Examples.request (HString "") (Some "/ws")) Examples.emptyWorld)
     = Normal originAccepted /\
   ~ originAllowedAsConfigured ALLOWED_ORIGINS "") /\
  (fst (validateOrigin Examples.env
          (Examples.gateway (Some ["HTTPS://APP.EXAMPLE.DEV"]))
          (Examples.request (HString "https://app.example.dev") (Some "/ws"))
          Examples.emptyWorld)
     = Normal originAccepted /\
   ~ originAllowedAsConfigured ["HTTPS://APP.EXAMPLE.DEV"] "https://app.example.dev").
Proof.
  split; split; try split; try (vm_compute; reflexivity).
  - intros (entry & Hin & Hm). revert Hm.
    cbn in Hin. destruct Hin as [<-|[<-|[<-|[]]]];
      apply not_entryMatches; vm_compute; reflexivity.
  - intros (entry & Hin & Hm). revert Hm.
    cbn in Hin. destruct Hin as [<-|[]].
    apply not_entryMatches; vm_compute; reflexivity.
Qed.

End StageClaims.

(** ** Rate limiter: what a check and an increment do *)

Section Limiter.

Import WebSocketRateLimiter Spec.

Variable E : Env.
Variable lim : t.

Lemma stored_local (key : string) (w w' : World) :
  sameAt key w w' -> stored E lim w' key = stored E lim w key.
Proof. intros [Hm Hr]. unfold stored. by rewrite Hm, Hr. Qed.

Lemma checkRateLimit_run (key : string) (maxRequests windowMs : Num) (w : World) :
  checkRateLimit E lim key maxRequests windowMs w =
    (match stored E lim w key with
     | Normal st => Normal (verdict st maxRequests (clock E (ticks w)) windowMs)
     | Throw e => Throw e
     end,
     set_ticks (S (ticks w)) w).
Proof.
  unfold checkRateLimit, bind, Date_now, stored.
  destruct (redis lim) eqn:Hredis.
  - unfold checkRedisRateLimit, bind, redis_get, ret, decode, JSON_parse_state, throw.
    rewrite Hredis. cbn.
    destruct (redisStorage w !! key) as [item|]; cbn; [|reflexivity].
    destruct (truthy (value item)); cbn; [|reflexivity].
    destruct (JSON_parse E (value item)) as [s|]; cbn; [|reflexivity].
    unfold ret. destruct (gt _ _); [reflexivity|]. by destruct (ge _ _).
  - unfold checkMemoryRateLimit. cbn.
    destruct (memoryStorage w !! key) as [s|]; cbn; [|reflexivity].
    destruct (gt _ _); [reflexivity|]. by destruct (ge _ _).
Qed.

Lemma incrementCounter_memory (key : string) (windowMs : Num) (w : World) :
  redis lim = false ->
  incrementCounter E lim key windowMs w =
    (Normal tt,
     match memoryStorage w !! key with
     | None =>
         set_memoryStorage
           (<[key := {| count := 1;
                        resetTime := plus (Int (clock E (ticks w))) windowMs |}]>
              (memoryStorage w))
           (set_ticks (S (ticks w)) w)
     | Some s =>
         set_memoryStorage
           (<[key := if gt (Int (clock E (S (ticks w)))) (resetTime s)
                     then {| count := 1;
                             resetTime := plus (Int (clock E (ticks w))) windowMs |}
                     else bump s]> (memoryStorage w))
           (set_ticks (S (S (ticks w))) w)
     end).
Proof.
  intros Hredis.
  unfold incrementCounter, bind, Date_now. rewrite Hredis.
  unfold incrementMemoryCounter, bind, Date_now. cbn.
  destruct (memoryStorage w !! key) as [s|]; [|reflexivity].
  by destruct (gt _ _).
Qed.

Lemma incrementCounter_redis (key : string) (windowMs : Num) (w : World) :
  redis lim = true ->
  incrementCounter E lim key windowMs w =
    match stored E lim w key with
    | Normal st =>
        (Normal tt,
         set_redisStorage
           (<[key := {| value := JSON_stringify E
                          (match st with
                           | None =>
                               {| count := 1;
                                  resetTime := plus (Int (clock E (ticks w))) windowMs |}
                           | Some s => bump s
                           end);
                        px := px_of windowMs |}]> (redisStorage w))
           (set_ticks (S (ticks w)) w))
    | Throw e => (Throw e, set_ticks (S (ticks w)) w)
    end.
Proof.
  intros Hredis.
  unfold incrementCounter, bind, Date_now, stored. rewrite Hredis.
  unfold incrementRedisCounter, bind, redis_get, redis_set, decode,
    JSON_parse_state, throw, ret.
  rewrite Hredis. cbn.
  destruct (redisStorage w !! key) as [item|]; cbn; [|reflexivity].
  destruct (truthy (value item)); cbn; [|reflexivity].
  by destruct (JSON_parse E (value item)) as [s|].
Qed.

Lemma incrementCounter_run (key : string) (windowMs : Num) (w : World)
    (st : option RateLimitState) :
  stored E lim w key = Normal st ->
  exists w',
    incrementCounter E lim key windowMs w = (Normal tt, w') /\
    holds E lim w' key
      (afterIncrement lim st (plus (Int (clock E (ticks w))) windowMs)
         (clock E (S (ticks w)))) /\
    ticks w' = (incrementTicks lim st + ticks w)%nat /\
    sameElsewhere key w w' /\
    calls w' = calls w /\
    connectionContexts w' = connectionContexts w /\
    logged w' = logged w /\
    draws w' = draws w.
Proof.
  intros Hst. unfold incrementTicks, afterIncrement.
  destruct (redis lim) eqn:Hredis.
  - rewrite incrementCounter_redis, Hst by assumption.
    eexists. split; [reflexivity|]. repeat apply conj; try reflexivity.
    + unfold holds. rewrite Hredis. cbn. rewrite lookup_insert_eq. cbn.
      by destruct st.
    + intros k Hk. cbn. split; [reflexivity|]. by rewrite lookup_insert_ne.
  - rewrite incrementCounter_memory by assumption.
    unfold stored in Hst. rewrite Hredis in Hst. injection Hst as Hst.
    eexists. split; [reflexivity|].
    destruct (memoryStorage w !! key) as [s|] eqn:Hlook; subst st;
      (repeat apply conj; try reflexivity;
       [|intros k Hk; cbn; split; [by rewrite lookup_insert_ne|reflexivity]]);
      unfold holds; rewrite Hredis; cbn; by rewrite lookup_insert_eq.
Qed.

End Limiter.

(** ** The quota of one key on the in-process backend *)

Section HardCeiling.

Import WebSocketRateLimiter Spec.

Variable E : Env.
Variable lim : t.
Variable key : string.
Variables N W : Z.

Hypothesis in_process : redis lim = false.





End HardCeiling.

Section HardCeilingClaim.

Import WebSocketRateLimiter Spec.




End HardCeilingClaim.

(** ** Connection admission *)

Section ConnectionAdmission.

Import WebSocketRateLimiter Spec.

Variable E : Env.
Variable lim : t.

Lemma connection_keys_differ (userId ip : string) :
  getConnectionKey user_key userId <> getConnectionKey ip_key ip.
Proof. unfold getConnectionKey. rewrite !append_cons. discriminate. Qed.

Lemma checkRateLimit_normal (key : string) (maxRequests windowMs : Num)
    (w w1 : World) (r : RateLimitResult) :
  checkRateLimit E lim key maxRequests windowMs w = (Normal r, w1) ->
  w1 = set_ticks (S (ticks w)) w /\
  exists st, stored E lim w key = Normal st /\
             r = verdict st maxRequests (clock E (ticks w)) windowMs.
Proof.
  rewrite checkRateLimit_run. intros H. injection H as Hr Hw. split; [done|].
  destruct (stored E lim w key) as [st|e]; [|discriminate].
  injection Hr as <-. by exists st.
Qed.

Lemma sameAt_refl (key : string) (w : World) : sameAt key w w.
Proof. by split. Qed.

Lemma sameAt_trans (key : string) (w1 w2 w3 : World) :
  sameAt key w1 w2 -> sameAt key w2 w3 -> sameAt key w1 w3.
Proof. intros [? ?] [? ?]. split; congruence. Qed.

Lemma sameAt_sym (key : string) (w1 w2 : World) : sameAt key w1 w2 -> sameAt key w2 w1.
Proof. intros [? ?]. by split. Qed.

Lemma sameElsewhere_sameAt (key k : string) (w w' : World) :
  sameElsewhere key w w' -> k <> key -> sameAt k w w'.
Proof. intros H Hk. exact (H k Hk). Qed.

Lemma holds_local (key : string) (w w' : World) (s : RateLimitState) :
  sameAt key w w' -> holds E lim w key s -> holds E lim w' key s.
Proof. intros [Hm Hr]. unfold holds. by rewrite Hm, Hr. Qed.

Lemma verdict_remaining (st : option RateLimitState) (maxRequests now windowMs : Z) :
  exists a, remaining (verdict st (Int maxRequests) now (Int windowMs)) = Int a.
Proof.
  unfold verdict. destruct st as [s|]; [|by eexists].
  destruct (gt _ _); [by eexists|]. destruct (ge _ _); by eexists.
Qed.

Lemma denyWithRetryAfter_run (result : RateLimitResult) (w : World) :
  denyWithRetryAfter E result w
    = (Normal (withRetryAfter result
                 (ceilSeconds (minus (r_resetTime result) (Int (clock E (ticks w)))))),
       set_ticks (S (ticks w)) w).
Proof. reflexivity. Qed.

End ConnectionAdmission.

Section ConnectionAdmissionClaim.

Import WebSocketRateLimiter Spec.

(** C4 (amended). Connection admission checks the per-user key and then,
    on unchanged stores, the per-IP key, and is allowed only if both
    checks pass.  When it is allowed, the reported [remaining] is the
    minimum of the two values the checks returned, minus one for the
    connection being let in, and both counters have been incremented: each
    key now holds the state it held before with a count one higher, or a
    window of its own with count 1 when it held nothing or when the
    in-process store found the held window over; the user key is written
    by the call's third clock reading, the IP key by the readings after
    those of the user increment.  When either check denies, the stores are
    left as they were: no counter is incremented. *)
Theorem connection_admission
    (E : Env) (lim : t) (userId ip : string) (w w1 : World)
    (userResult : RateLimitResult) :
  checkRateLimit E lim (getConnectionKey user_key userId)
    (Int (maxConnectionsPerUser (connectionConfig lim)))
    (Int (connWindowMs (connectionConfig lim))) w = (Normal userResult, w1) ->
  sameStores w w1 /\
  (allowed userResult = false ->
     exists r w',
       checkConnectionRateLimit E lim userId ip w = (Normal r, w') /\
       allowed r = false /\ sameStores w w') /\
  (allowed userResult = true ->
     forall (ipResult : RateLimitResult) (w2 : World),
       checkRateLimit E lim (getConnectionKey ip_key ip)
         (Int (maxConnectionsPerIp (connectionConfig lim)))
         (Int (connWindowMs (connectionConfig lim))) w1 = (Normal ipResult, w2) ->
       exists r w',
         checkConnectionRateLimit E lim userId ip w = (Normal r, w') /\
         allowed r = allowed ipResult /\
         (allowed ipResult = false -> sameStores w w') /\
         (allowed ipResult = true ->
            (exists a b,
               remaining userResult = Int a /\ remaining ipResult = Int b /\
               remaining r = Int (Z.min a b - 1)) /\
            exists stU,
              stored E lim w (getConnectionKey user_key userId) = Normal stU /\
              incremented E lim (getConnectionKey user_key userId)
                (connWindowMs (connectionConfig lim)) (2 + ticks w) w w' /\
              incremented E lim (getConnectionKey ip_key ip)
                (connWindowMs (connectionConfig lim))
                (incrementTicks lim stU + (2 + ticks w)) w w')).
Proof.
  intros Huser.
  destruct (checkRateLimit_normal E lim _ _ _ _ _ _ Huser) as (Hw1 & stU & HstU & HrU).
  split; [subst w1; by split|]. split.
  - intros Hdeny. unfold checkConnectionRateLimit, bind.
    rewrite Huser, Hdeny. cbn [negb]. rewrite denyWithRetryAfter_run.
    eexists _, _. split; [reflexivity|]. split; [exact Hdeny|]. subst w1. by split.
  - intros Hpass ipResult w2 Hip.
    destruct (checkRateLimit_normal E lim _ _ _ _ _ _ Hip) as (Hw2 & stI & HstI & HrI).
    unfold checkConnectionRateLimit, bind.
    rewrite Huser, Hpass. cbn [negb]. rewrite Hip.
    destruct (allowed ipResult) eqn:Hipa; cbn [negb].
    + assert (HU : stored E lim w2 (getConnectionKey user_key userId) = Normal stU).
      { subst w2 w1. exact HstU. }
      assert (Ht2 : ticks w2 = (2 + ticks w)%nat) by (subst w2 w1; reflexivity).
      destruct (incrementCounter_run E lim _ (Int (connWindowMs (connectionConfig lim)))
                  w2 stU HU)
        as (w3 & -> & HincU & Ht3 & HelseU & _).
      assert (HI : stored E lim w3 (getConnectionKey ip_key ip) = Normal stI).
      { rewrite (stored_local E lim _ w2 w3); [subst w2; exact HstI|].
        apply (sameElsewhere_sameAt (getConnectionKey user_key userId)); [exact HelseU|].
        intros Heq. by apply (connection_keys_differ userId ip). }
      destruct (incrementCounter_run E lim _ (Int (connWindowMs (connectionConfig lim)))
                  w3 stI HI)
        as (w4 & -> & HincI & _ & HelseI & _).
      rewrite Ht2 in HincU, Ht3. rewrite Ht3 in HincI.
      eexists _, w4. split; [reflexivity|]. split; [reflexivity|].
      split; [discriminate|]. intros _. split.
      { destruct (verdict_remaining stU (maxConnectionsPerUser (connectionConfig lim))
                    (clock E (ticks w)) (connWindowMs (connectionConfig lim)))
          as [a Ha].
        destruct (verdict_remaining stI (maxConnectionsPerIp (connectionConfig lim))
                    (clock E (ticks w1)) (connWindowMs (connectionConfig lim)))
          as [b Hb].
        rewrite <- HrU in Ha. rewrite <- HrI in Hb.
        exists a, b. split; [exact Ha|]. split; [exact Hb|].
        cbn [remaining]. by rewrite Ha, Hb. }
      exists stU. split; [exact HstU|]. split.
      * exists stU. split; [exact HstU|].
        apply (holds_local E lim _ w3 w4); [|exact HincU].
        apply (sameElsewhere_sameAt (getConnectionKey ip_key ip)); [exact HelseI|].
        apply connection_keys_differ.
      * exists stI. split; [|exact HincI].
        rewrite <- HI. symmetry. apply stored_local.
        apply (sameAt_trans _ w w2 w3); [subst w2 w1; by split|].
        apply (sameElsewhere_sameAt (getConnectionKey user_key userId)); [exact HelseU|].
        intros Heq. by apply (connection_keys_differ userId ip).
    + rewrite denyWithRetryAfter_run.
      eexists _, _. split; [reflexivity|]. split; [exact Hipa|].
      split; [|discriminate]. intros _. subst w2 w1. by split.
Qed.

Lemma connection_admission_witness :
  exists r w',
    checkConnectionRateLimit Examples.env Examples.limiter "u1" "192.168.1.1"
      Examples.emptyWorld = (Normal r, w') /\
    allowed r = true /\
    remaining r = Int 4 /\
    memoryStorage w' !! getConnectionKey user_key "u1"
      = Some {| count := 1; resetTime := Int 60000 |} /\
    memoryStorage w' !! getConnectionKey ip_key "192.168.1.1"
      = Some {| count := 1; resetTime := Int 60000 |}.
Proof.
  destruct (connection_admission Examples.env Examples.limiter "u1" "192.168.1.1"
              Examples.emptyWorld (set_ticks 1 Examples.emptyWorld)
              (freshQuota (Int 5) (Int 60000)))
    as (_ & _ & Hpass).
  - reflexivity.
  - destruct (Hpass eq_refl (freshQuota (Int 10) (Int 60000))
                (set_ticks 2 Examples.emptyWorld) eq_refl)
      as (r & w' & Hrun & Hallowed & _ & Hmin).
    destruct (Hmin eq_refl)
      as ((a & b & Ha & Hb & Hrem) & stU & HstU & (sU & HsU & HU) & (sI & HsI & HI)).
    exists r, w'.
    injection Ha as <-. injection Hb as <-.
    vm_compute in HstU. injection HstU as <-.
    vm_compute in HsU. injection HsU as <-.
    vm_compute in HsI. injection HsI as <-.
    repeat apply conj; assumption.
Defined.

(** C4, as stated, fails on the reported [remaining]: with quotas 5 and
    10 and nothing stored, both checks report their full quota, and the
    admission reports 4, not the minimum 5. *)
Lemma remaining_counterexample :
  fst (checkRateLimit Examples.env Examples.limiter (getConnectionKey user_key "u1")
         (Int 5) (Int 60000) Examples.emptyWorld)
    = Normal (freshQuota (Int 5) (Int 60000)) /\
  fst (checkRateLimit Examples.env Examples.limiter
         (getConnectionKey ip_key "192.168.1.1") (Int 10) (Int 60000)
         (set_ticks 1 Examples.emptyWorld))
    = Normal (freshQuota (Int 10) (Int 60000)) /\
  fst (checkConnectionRateLimit Examples.env Examples.limiter "u1" "192.168.1.1"
         Examples.emptyWorld)
    = Normal {| allowed := true; remaining := Int 4; r_resetTime := Int 60000;
                retryAfter := None |} /\
  Int 4 <> Math_min (remaining (freshQuota (Int 5) (Int 60000)))
                    (remaining (freshQuota (Int 10) (Int 60000))).
Proof. repeat apply conj; vm_compute; first [reflexivity | discriminate]. Qed.

End ConnectionAdmissionClaim.

(** ** Message admission *)

Section MessageAdmission.

Import WebSocketRateLimiter Spec.

Variable E : Env.
Variable lim : t.

Lemma colon_split (c1 c2 t1 t2 : string) :
  containsColon c1 = false -> containsColon c2 = false ->
  c1 +:+ ":" +:+ t1 = c2 +:+ ":" +:+ t2 ->
  c1 = c2 /\ t1 = t2.
Proof.
  revert c2. induction c1 as [|a c1 IH]; intros [|b c2] H1 H2 Heq.
  - change (String ":" t1 = String ":" t2) in Heq. injection Heq as ->. by split.
  - change (String ":" t1 = String b (c2 +:+ ":" +:+ t2)) in Heq.
    injection Heq as <- _. cbn in H2. discriminate.
  - change (String a (c1 +:+ ":" +:+ t1) = String ":" t2) in Heq.
    injection Heq as -> _. cbn in H1. discriminate.
  - change (String a (c1 +:+ ":" +:+ t1) = String b (c2 +:+ ":" +:+ t2)) in Heq.
    injection Heq as -> Heq.
    cbn in H1, H2. apply orb_false_iff in H1 as [_ H1], H2 as [_ H2].
    destruct (IH c2 H1 H2 Heq) as [-> ->]. by split.
Qed.

Lemma length_append (a b : string) :
  String.length (a +:+ b) = (String.length a + String.length b)%nat.
Proof.
  induction a as [|x a IH]; [reflexivity|].
  change (S (String.length (a +:+ b)) = S (String.length a + String.length b)).
  by rewrite IH.
Qed.

Lemma append_cancel_r (a b s : string) : a +:+ s = b +:+ s -> a = b.
Proof.
  revert b. induction a as [|x a IH]; intros [|y b] H.
  - reflexivity.
  - exfalso. apply (f_equal String.length) in H.
    rewrite (length_append (String y b)) in H.
    change (String.length s = S (String.length b + String.length s)) in H. lia.
  - exfalso. apply (f_equal String.length) in H.
    rewrite (length_append (String x a)) in H.
    change (S (String.length a + String.length s) = String.length s) in H. lia.
  - change (String x (a +:+ s) = String y (b +:+ s)) in H.
    injection H as -> H. f_equal. by apply IH.
Qed.

Lemma containsColon_separator (a b : string) : containsColon (a +:+ ":" +:+ b) = true.
Proof.
  induction a as [|x a IH]; [reflexivity|].
  change (Ascii.eqb x ":"%char || containsColon (a +:+ ":" +:+ b) = true).
  rewrite IH. apply orb_true_r.
Qed.

Lemma colon_split_types (c1 c2 t1 t2 : string) :
  containsColon t1 = false -> containsColon t2 = false ->
  c1 +:+ ":" +:+ t1 = c2 +:+ ":" +:+ t2 ->
  c1 = c2 /\ t1 = t2.
Proof.
  intros H1 H2. revert c2. induction c1 as [|a c1 IH]; intros [|b c2] Heq.
  - change (String ":" t1 = String ":" t2) in Heq. injection Heq as ->. by split.
  - change (String ":" t1 = String b (c2 +:+ ":" +:+ t2)) in Heq.
    injection Heq as _ Heq. rewrite Heq, containsColon_separator in H1. discriminate.
  - change (String a (c1 +:+ ":" +:+ t1) = String ":" t2) in Heq.
    injection Heq as _ Heq. rewrite <- Heq, containsColon_separator in H2. discriminate.
  - change (String a (c1 +:+ ":" +:+ t1) = String b (c2 +:+ ":" +:+ t2)) in Heq.
    injection Heq as -> Heq.
    destruct (IH c2 Heq) as [-> ->]. by split.
Qed.

(** The pairs of which the keys cannot coincide. *)
Lemma separate_keys (c1 t1 c2 t2 : string) :
  separate c1 t1 c2 t2 -> getMessageKey c2 t2 <> getMessageKey c1 t1.
Proof.
  unfold getMessageKey.
  intros [[-> Hne]|[[Hne ->]|[Hne [[H1 H2]|[H1 H2]]]]] Heq.
  - do 3 apply String.app_inj in Heq. by apply Hne.
  - apply String.app_inj, append_cancel_r in Heq. by apply Hne.
  - apply String.app_inj in Heq.
    destruct (colon_split c2 c1 t2 t1 H2 H1 Heq) as [-> ->]. by apply Hne.
  - apply String.app_inj in Heq.
    destruct (colon_split_types c2 c1 t2 t1 H2 H1 Heq) as [-> ->]. by apply Hne.
Qed.

(** A message check touches the stores at its own key only. *)
Lemma checkMessageRateLimit_frame (connectionId messageType : string) (w : World) :
  sameElsewhere (getMessageKey connectionId messageType) w
    (snd (checkMessageRateLimit E lim connectionId messageType w)).
Proof.
  unfold checkMessageRateLimit, bind. rewrite checkRateLimit_run.
  destruct (stored E lim w _) as [st|e] eqn:Hst; [|by intros k _].
  destruct (allowed (verdict st _ _ _)); cbn [negb]; [|by intros k _].
  destruct (incrementCounter_run E lim (getMessageKey connectionId messageType)
              (lc_windowMs (limitConfigFor lim messageType))
              (set_ticks (S (ticks w)) w) st Hst)
    as (w' & -> & _ & _ & Helse & _).
  exact Helse.
Qed.

(** Its verdict depends on the clock position and on its own key only. *)
Lemma checkMessageRateLimit_local (connectionId messageType : string) (w1 w2 : World) :
  ticks w1 = ticks w2 ->
  sameAt (getMessageKey connectionId messageType) w1 w2 ->
  fst (checkMessageRateLimit E lim connectionId messageType w1)
    = fst (checkMessageRateLimit E lim connectionId messageType w2).
Proof.
  intros Ht Hsame.
  unfold checkMessageRateLimit, bind. rewrite !checkRateLimit_run.
  rewrite (stored_local E lim _ w1 w2 Hsame), Ht.
  destruct (stored E lim w1 _) as [st|e] eqn:Hst; [|reflexivity].
  destruct (allowed (verdict st _ _ _)); cbn [negb].
  - destruct (incrementCounter_run E lim (getMessageKey connectionId messageType)
                (lc_windowMs (limitConfigFor lim messageType))
                (set_ticks (S (ticks w2)) w1) st Hst) as (w1' & -> & _).
    assert (Hst2 : stored E lim (set_ticks (S (ticks w2)) w2)
                     (getMessageKey connectionId messageType) = Normal st).
    { rewrite <- Hst. apply stored_local. exact Hsame. }
    destruct (incrementCounter_run E lim (getMessageKey connectionId messageType)
                (lc_windowMs (limitConfigFor lim messageType))
                (set_ticks (S (ticks w2)) w2) st Hst2) as (w2' & -> & _).
    reflexivity.
  - rewrite !denyWithRetryAfter_run. reflexivity.
Qed.

Lemma afterChecks_frame (c1 t1 : string) (key : string) (n : nat) (w : World) :
  key <> getMessageKey c1 t1 ->
  sameAt key w (afterChecks E lim c1 t1 n w).
Proof.
  intros Hne. revert w. induction n as [|n IH]; intros w; [apply sameAt_refl|].
  cbn [afterChecks].
  apply (sameAt_trans _ w (snd (checkMessageRateLimit E lim c1 t1 w))); [|apply IH].
  by apply (sameElsewhere_sameAt (getMessageKey c1 t1)); [apply checkMessageRateLimit_frame|].
Qed.

Lemma unconfigured_uses_default (connectionId messageType : string) (w : World) :
  messageLimits lim !! messageType = None ->
  inherited messageType = false ->
  checkMessageRateLimit E lim connectionId messageType w
    = checkMessageRateLimit E (configured messageType (defaultLimit lim) lim)
        connectionId messageType w.
Proof.
  intros Hnone Hown. unfold checkMessageRateLimit, limitConfigFor.
  rewrite Hnone, Hown. cbn [configured messageLimits defaultLimit].
  rewrite lookup_insert_eq. reflexivity.
Qed.

End MessageAdmission.

Section MessageAdmissionClaims.

Import WebSocketRateLimiter Spec.

(** C6 (amended). Message-level limiting is isolated between a message
    type and another type on the same connection, between a connection and
    another connection for the same type, and between any two distinct
    pairs of connection id and message type when neither connection id, or
    neither message type, contains a colon: any number of checks on the
    first pair leaves the stored counter of the second untouched, and the
    verdict of a check on the second pair is the one it would get had those
    checks never taken place.  A message type without an entry of its own
    in the configured limits, whose name is not one that every object
    inherits, gets the default limit and is checked as if it were
    configured with it. *)
Theorem message_quota_isolation
    (E : Env) (lim : t) (c1 t1 c2 t2 : string) (n : nat) (w : World) :
  (separate c1 t1 c2 t2 ->
   sameAt (getMessageKey c2 t2) w (afterChecks E lim c1 t1 n w) /\
   fst (checkMessageRateLimit E lim c2 t2 (afterChecks E lim c1 t1 n w))
     = fst (checkMessageRateLimit E lim c2 t2
              (set_ticks (ticks (afterChecks E lim c1 t1 n w)) w))) /\
  (messageLimits lim !! t2 = None ->
   inherited t2 = false ->
   limitConfigFor lim t2 = Limits (defaultLimit lim) /\
   checkMessageRateLimit E lim c2 t2 w
     = checkMessageRateLimit E (configured t2 (defaultLimit lim) lim) c2 t2 w).
Proof.
  split.
  - intros Hsep.
    pose proof (afterChecks_frame E lim c1 t1 _ n w (separate_keys _ _ _ _ Hsep))
      as Hframe.
    split; [exact Hframe|].
    apply checkMessageRateLimit_local; [reflexivity|].
    apply sameAt_sym. exact Hframe.
  - intros Hnone Hown. split; [|by apply unconfigured_uses_default].
    unfold limitConfigFor. by rewrite Hnone, Hown.
Qed.

Lemma message_quota_isolation_witness :
  (sameAt (getMessageKey "conn:1" "STATUS") Examples.emptyWorld
     (afterChecks Examples.env Examples.limiter "conn:1" "CHAT_MESSAGE" 51
        Examples.emptyWorld) /\
   fst (checkMessageRateLimit Examples.env Examples.limiter "conn:1" "STATUS"
          (afterChecks Examples.env Examples.limiter "conn:1" "CHAT_MESSAGE" 51
             Examples.emptyWorld))
     = fst (checkMessageRateLimit Examples.env Examples.limiter "conn:1" "STATUS"
              (set_ticks
                 (ticks (afterChecks Examples.env Examples.limiter "conn:1"
                           "CHAT_MESSAGE" 51 Examples.emptyWorld))
                 Examples.emptyWorld))) /\
  checkMessageRateLimit Examples.env Examples.limiter "conn:1" "STATUS"
    Examples.emptyWorld
    = checkMessageRateLimit Examples.env
        (configured "STATUS" (defaultLimit Examples.limiter) Examples.limiter)
        "conn:1" "STATUS" Examples.emptyWorld.
Proof.
  destruct (message_quota_isolation Examples.env Examples.limiter
              "conn:1" "CHAT_MESSAGE" "conn:1" "STATUS" 51 Examples.emptyWorld)
    as [Hiso Hdefault].
  split.
  - apply Hiso. left. split; [reflexivity|discriminate].
  - exact (proj2 (Hdefault eq_refl eq_refl)).
Defined.

(** C6, as stated, fails in two ways.  Connection ids and message types
    that both contain a colon can collide: the distinct pairs [(a:b, c)]
    and [(a, b:c)] share one key, so exhausting the default quota of 100
    on the first makes the check on the second a denial, where it would
    otherwise be allowed.  And a message type named like a member that
    every object inherits does not get the default quota: [constructor]
    has no entry in the limits, yet after 100 checks the next one is still
    allowed, with nothing to count down, where the default quota denies
    it. *)
Lemma message_quota_counterexample :
  (("a:b", "c") <> ("a", "b:c") /\
   getMessageKey "a:b" "c" = getMessageKey "a" "b:c" /\
   fst (checkMessageRateLimit Examples.env Examples.limiter "a" "b:c"
          (afterChecks Examples.env Examples.limiter "a:b" "c" 100 Examples.emptyWorld))
     = Normal {| allowed := false; remaining := Int 0; r_resetTime := Int 60000;
                 retryAfter := Some (Int 60) |} /\
   fst (checkMessageRateLimit Examples.env Examples.limiter "a" "b:c"
          (set_ticks
             (ticks (afterChecks Examples.env Examples.limiter "a:b" "c" 100
                       Examples.emptyWorld))
             Examples.emptyWorld))
     = Normal {| allowed := true; remaining := Int 99; r_resetTime := Int 60000;
                 retryAfter := None |}) /\
  (messageLimits Examples.limiter !! "constructor" = None /\
   fst (checkMessageRateLimit Examples.env Examples.limiter "c1" "constructor"
          (afterChecks Examples.env Examples.limiter "c1" "constructor" 100
             Examples.emptyWorld))
     = Normal {| allowed := true; remaining := NaN; r_resetTime := NaN;
                 retryAfter := None |} /\
   fst (checkMessageRateLimit Examples.env
          (configured "constructor" (defaultLimit Examples.limiter) Examples.limiter)
          "c1" "constructor"
          (afterChecks Examples.env
             (configured "constructor" (defaultLimit Examples.limiter) Examples.limiter)
             "c1" "constructor" 100 Examples.emptyWorld))
     = Normal {| allowed := false; remaining := Int 0; r_resetTime := Int 60000;
                 retryAfter := Some (Int 60) |}).
Proof. repeat apply conj; vm_compute; first [reflexivity | discriminate]. Qed.

(** C8 (amended). [resetRateLimit] clears the key's state in the backend
    in use and touches no other key, after which the status of the key is
    [null].  On the external store [getRateLimitStatus] returns the
    stored state as decoded, without consulting the clock.  On the
    in-process backend it applies the window: it returns the stored state
    only while the clock has not passed its [resetTime], and [null]
    otherwise or when nothing is stored. *)
Theorem status_and_reset (E : Env) (lim : t) (key : string) (w : World) :
  (exists w',
     resetRateLimit lim key w = (Normal tt, w') /\
     stored E lim w' key = Normal None /\
     sameElsewhere key w w' /\
     fst (getRateLimitStatus E lim key w') = Normal None) /\
  (redis lim = true ->
     getRateLimitStatus E lim key w = (stored E lim w key, w)) /\
  (redis lim = false ->
     fst (getRateLimitStatus E lim key w)
       = Normal (match memoryStorage w !! key with
                 | Some s =>
                     if le (Int (clock E (ticks w))) (resetTime s) then Some s else None
                 | None => None
                 end)).
Proof.
  repeat apply conj.
  - unfold resetRateLimit, getRateLimitStatus, stored, redis_del, redis_get, bind, ret.
    destruct (redis lim) eqn:Hredis; eexists; (split; [reflexivity|]);
      cbn [memoryStorage redisStorage set_memoryStorage set_redisStorage fst snd];
      rewrite lookup_delete_eq; (repeat apply conj; try reflexivity);
      intros k Hk; cbn [memoryStorage redisStorage set_memoryStorage set_redisStorage];
      by rewrite lookup_delete_ne.
  - intros Hredis.
    unfold getRateLimitStatus, stored, decode, redis_get, bind, ret,
      JSON_parse_state, throw.
    rewrite Hredis. cbn.
    destruct (redisStorage w !! key) as [item|]; cbn; [|reflexivity].
    destruct (truthy (value item)); [|reflexivity].
    by destruct (JSON_parse E (value item)).
  - intros Hredis. unfold getRateLimitStatus, bind, Date_now, ret. rewrite Hredis.
    destruct (memoryStorage w !! key) as [s|]; [|reflexivity]. cbn.
    by destruct (le _ _).
Qed.

Lemma status_and_reset_witness :
  getRateLimitStatus Examples.redisEnv Examples.redisLimiter "k"
    (Examples.redisWorldWith "k" Examples.sampleState)
    = (Normal (Some Examples.sampleState),
       Examples.redisWorldWith "k" Examples.sampleState) /\
  fst (getRateLimitStatus Examples.env Examples.limiter "k"
         (Examples.worldWith {["k" := Examples.sampleState]}))
    = Normal (Some Examples.sampleState).
Proof.
  split.
  - destruct (status_and_reset Examples.redisEnv Examples.redisLimiter "k"
                (Examples.redisWorldWith "k" Examples.sampleState)) as (_ & Hredis & _).
    rewrite (Hredis eq_refl). f_equal.
  - destruct (status_and_reset Examples.env Examples.limiter "k"
                (Examples.worldWith {["k" := Examples.sampleState]})) as (_ & _ & Hmem).
    rewrite (Hmem eq_refl). reflexivity.
Defined.

(** C8, as stated, fails on the in-process backend: with a state stored
    under the key and the clock past its [resetTime], the status is
    [null], not the stored state. *)
Lemma status_counterexample :
  memoryStorage (Examples.worldWith {["k" := Examples.sampleState]}) !! "k"
    = Some Examples.sampleState /\
  fst (getRateLimitStatus Examples.lateEnv Examples.limiter "k"
         (Examples.worldWith {["k" := Examples.sampleState]}))
    = Normal None.
Proof. split; vm_compute; reflexivity. Qed.

End MessageAdmissionClaims.

(** ** The limiter seen from the gateway *)

Section LimiterFromGateway.

Import WebSocketRateLimiter Spec.

Variable E : Env.
Variable lim : t.

Lemma limiterOnly_refl (w : World) : limiterOnly w w.
Proof. by repeat split. Qed.

Lemma limiterOnly_trans (w1 w2 w3 : World) :
  limiterOnly w1 w2 -> limiterOnly w2 w3 -> limiterOnly w1 w3.
Proof.
  intros (? & ? & ? & ?) (? & ? & ? & ?). repeat split; congruence.
Qed.

Lemma incrementCounter_limiterOnly (key : string) (windowMs : Num) (w : World) :
  limiterOnly w (snd (incrementCounter E lim key windowMs w)).
Proof.
  destruct (redis lim) eqn:Hredis.
  - rewrite incrementCounter_redis by assumption.
    destruct (stored E lim w key); by repeat split.
  - rewrite incrementCounter_memory by assumption.
    destruct (memoryStorage w !! key); by repeat split.
Qed.

Lemma incrementCounter_in_process (key : string) (windowMs : Num) (w : World) :
  redis lim = false ->
  fst (incrementCounter E lim key windowMs w) = Normal tt.
Proof. intros Hredis. by rewrite incrementCounter_memory. Qed.

Lemma stored_in_process (key : string) (w : World) :
  redis lim = false -> stored E lim w key = Normal (memoryStorage w !! key).
Proof. intros Hredis. unfold stored. by rewrite Hredis. Qed.

Lemma checkConnectionRateLimit_limiterOnly (userId ip : string) (w : World) :
  limiterOnly w (snd (checkConnectionRateLimit E lim userId ip w)).
Proof.
  unfold checkConnectionRateLimit, bind. rewrite checkRateLimit_run.
  destruct (stored E lim w _) as [stU|e]; [|by repeat split].
  destruct (allowed (verdict stU _ _ _)); cbn [negb]; [|by repeat split].
  rewrite checkRateLimit_run.
  destruct (stored E lim _ (getConnectionKey ip_key ip)) as [stI|e]; [|by repeat split].
  destruct (allowed (verdict stI _ _ _)); cbn [negb]; [|by repeat split].
  match goal with
  | |- context [incrementCounter E lim ?k ?W ?w0] =>
      pose proof (incrementCounter_limiterOnly k W w0) as H1;
      destruct (incrementCounter E lim k W w0) as [[[]|e] w1]; cbn [snd] in H1
  end; [|exact H1].
  match goal with
  | |- context [incrementCounter E lim ?k ?W w1] =>
      pose proof (incrementCounter_limiterOnly k W w1) as H2;
      destruct (incrementCounter E lim k W w1) as [[[]|e] w2]; cbn [snd] in H2
  end; cbn [snd ret]; by apply (limiterOnly_trans _ w1).
Qed.

Lemma checkConnectionRateLimit_in_process (userId ip : string) (w : World) :
  redis lim = false ->
  exists r, fst (checkConnectionRateLimit E lim userId ip w) = Normal r.
Proof.
  intros Hredis.
  unfold checkConnectionRateLimit, bind. rewrite checkRateLimit_run.
  rewrite stored_in_process by assumption.
  destruct (allowed (verdict _ _ _ _)); cbn [negb]; [|by eexists].
  rewrite checkRateLimit_run, stored_in_process by assumption.
  destruct (allowed (verdict _ _ _ _)); cbn [negb]; [|by eexists].
  rewrite incrementCounter_memory by assumption.
  rewrite incrementCounter_memory by assumption.
  by eexists.
Qed.


Lemma checkMessageRateLimit_in_process (connectionId messageType : string) (w : World) :
  redis lim = false ->
  exists r, fst (checkMessageRateLimit E lim connectionId messageType w) = Normal r.
Proof.
  intros Hredis.
  unfold checkMessageRateLimit, bind. rewrite checkRateLimit_run.
  rewrite stored_in_process by assumption.
  destruct (allowed (verdict _ _ _ _)); cbn [negb]; [|by eexists].
  rewrite incrementCounter_memory by assumption. by eexists.
Qed.


End LimiterFromGateway.

(** ** The admission pipeline, stage by stage *)

Section Pipeline.

Import WebSocketSecurityMiddleware Spec.

Variable E : Env.
Variable g : t.

Lemma checkConnectionRateLimit_run (userId ip : string) (w : World) :
  exists res w',
    checkConnectionRateLimit E g userId ip w = (res, w') /\
    connectionContexts w' = connectionContexts w /\
    (WebSocketRateLimiter.redis (rateLimiter g) = false -> exists r, res = Normal r).
Proof.
  unfold checkConnectionRateLimit, bind, spy.
  match goal with
  | |- context [WebSocketRateLimiter.checkConnectionRateLimit E ?lim ?u ?i ?w0] =>
      pose proof (checkConnectionRateLimit_limiterOnly E lim u i w0) as (Hx & _);
      pose proof (checkConnectionRateLimit_in_process E lim u i w0) as Htotal;
      destruct (WebSocketRateLimiter.checkConnectionRateLimit E lim u i w0)
        as [[r|e] w1]
  end; cbn [fst snd] in Hx, Htotal; cbn [connectionContexts set_calls] in Hx.
  - destruct (allowed r); cbn [negb].
    + exists (Normal r), w1. split; [reflexivity|]. split; [exact Hx|]. by eexists.
    + unfold generateConnectionId, bind, Date_now, Math_random36, ret. cbn.
      match goal with
      | |- context [logSecurityEvent g ?e ?w0] =>
          destruct (logSecurityEvent_run g e w0) as (w' & -> & _ & _ & _ & _ & _ & Hx')
      end.
      cbn in Hx'. exists (Normal r), w'. split; [reflexivity|].
      split; [congruence|]. by eexists.
  - exists (Throw e), w1. split; [reflexivity|]. split; [exact Hx|].
    intros Hredis. destruct (Htotal Hredis) as [r Hr]. discriminate.
Qed.

Lemma checkConnectionRateLimit_calls_grow (userId ip : string) (w : World) :
  exists l,
    calls (snd (checkConnectionRateLimit E g userId ip w))
      = calls w ++ CallCheckConnectionRateLimit userId ip :: l.
Proof.
  unfold checkConnectionRateLimit, bind, spy.
  match goal with
  | |- context [WebSocketRateLimiter.checkConnectionRateLimit E ?lim ?u ?i ?w0] =>
      pose proof (checkConnectionRateLimit_limiterOnly E lim u i w0) as (_ & Hc & _);
      destruct (WebSocketRateLimiter.checkConnectionRateLimit E lim u i w0)
        as [[r|e] w1]
  end; cbn [fst snd] in Hc; cbn [calls set_calls] in Hc.
  - destruct (allowed r); cbn [negb].
    + exists []. exact Hc.
    + unfold generateConnectionId, bind, Date_now, Math_random36, ret. cbn.
      match goal with
      | |- context [logSecurityEvent g ?e ?w0] =>
          destruct (logSecurityEvent_run g e w0) as (w' & -> & _ & _ & Hc' & _)
      end.
      cbn in Hc'. exists []. cbn. congruence.
  - exists []. exact Hc.
Qed.

(** The pipeline unfolded along its three stages. *)
Lemma performSecurityCheck_run (request : WebSocketUpgradeRequest) (w : World)
    (originResult : ValidationResult) (w1 : World) :
  validateOrigin E g request w = (Normal originResult, w1) ->
  (valid originResult = false ->
     performSecurityCheck E g request w
       = (Normal (denial (v_error originResult) (v_code originResult)), w1)) /\
  (valid originResult = true ->
     forall (authResult : AuthenticationResult) (w2 : World),
       authenticate E g request w1 = (Normal authResult, w2) ->
       (success authResult = false ->
          performSecurityCheck E g request w
            = (Normal (denial (a_error authResult) (a_code authResult)), w2)) /\
       (success authResult = true ->
          forall u, user authResult = Some u ->
            forall res w3,
              checkConnectionRateLimit E g (user_id u) (extractIp request) w2 = (res, w3) ->
              match res with
              | Throw e => performSecurityCheck E g request w = (Throw e, w3)
              | Normal rateLimitResult =>
                  if allowed rateLimitResult then
                    exists w4,
                      performSecurityCheck E g request w
                        = (Normal {| sc_allowed := true; sc_result := Some authResult;
                                     sc_error := None; sc_code := None |}, w4) /\
                      connectionContexts w4 = connectionContexts w3 /\
                      sameStores w3 w4
                  else performSecurityCheck E g request w = (Normal rateLimited, w3)
              end)).
Proof.
  intros Horigin. split.
  - intros Hv. unfold performSecurityCheck, bind. rewrite Horigin, Hv. reflexivity.
  - intros Hv authResult w2 Hauth. split.
    + intros Hs. unfold performSecurityCheck, bind.
      rewrite Horigin, Hv. cbn [negb]. rewrite Hauth, Hs. reflexivity.
    + intros Hs u Hu res w3 Hrate. unfold performSecurityCheck, bind.
      rewrite Horigin, Hv. cbn [negb]. rewrite Hauth, Hs, Hu. cbn [negb].
      rewrite Hrate. destruct res as [r|e]; [|reflexivity].
      unfold ret at 1. destruct (allowed r); cbn [negb]; [|reflexivity].
      unfold generateConnectionId, bind, Date_now, Math_random36, ret. cbn.
      match goal with
      | |- context [logSecurityEvent g ?e ?w0] =>
          destruct (logSecurityEvent_run g e w0) as (w4 & -> & _ & _ & _ & Hm & Hr & Hx)
      end.
      cbn in Hm, Hr, Hx. exists w4. split; [reflexivity|]. by repeat split.
Qed.

End Pipeline.

Section PipelineFacts.

Import WebSocketSecurityMiddleware Spec.

Variable E : Env.
Variable g : t.

Lemma originVerdict_denied (allowList : list string) (origin : option string) :
  valid (originVerdict allowList origin) = false ->
  originVerdict allowList origin = originDenied.
Proof.
  unfold originVerdict. destruct origin as [o|]; [|discriminate].
  destruct (truthy o); [|discriminate]. by destruct (existsb _ _).
Qed.

Lemma decrementConnectionCounter_contexts (userId ip : string) (w : World) :
  exists w',
    WebSocketRateLimiter.decrementConnectionCounter (rateLimiter g) userId ip w
      = (Normal tt, w') /\
    connectionContexts w' = connectionContexts w.
Proof.
  unfold WebSocketRateLimiter.decrementConnectionCounter, bind, ret,
    WebSocketRateLimiter.decrementMemory.
  destruct (WebSocketRateLimiter.redis (rateLimiter g)); [by eexists|].
  destruct (memoryStorage w !! _) as [s|]; [destruct (count s >? 0)|]; cbn;
    (destruct (_ !! _) as [s'|]; [destruct (count s' >? 0)|]); by eexists.
Qed.

Lemma handleConnectionClose_contexts (connectionId : string) (w : World) :
  connectionContexts (snd (handleConnectionClose E g connectionId w))
    = delete connectionId (connectionContexts w).
Proof.
  unfold handleConnectionClose, bind, getContext, deleteContext, spy, Date_now, ret.
  destruct (connectionContexts w !! connectionId) as [ctx|]; [destruct (ctx_user ctx) as [u|]|].
  - match goal with
    | |- context [WebSocketRateLimiter.decrementConnectionCounter ?lim ?a ?b ?w0] =>
        destruct (decrementConnectionCounter_contexts a b w0) as (w1 & -> & Hx)
    end.
    cbn in Hx. cbn.
    match goal with
    | |- context [logSecurityEvent g ?e ?w0] =>
        destruct (logSecurityEvent_run g e w0) as (w' & -> & _ & _ & _ & _ & _ & Hx')
    end.
    cbn in Hx'. cbn. congruence.
  - cbn.
    match goal with
    | |- context [logSecurityEvent g ?e ?w0] =>
        destruct (logSecurityEvent_run g e w0) as (w' & -> & _ & _ & _ & _ & _ & Hx')
    end.
    exact Hx'.
  - cbn.
    match goal with
    | |- context [logSecurityEvent g ?e ?w0] =>
        destruct (logSecurityEvent_run g e w0) as (w' & -> & _ & _ & _ & _ & _ & Hx')
    end.
    exact Hx'.
Qed.

End PipelineFacts.

(** ** Claims on the gateway *)

Section GatewayClaims.

Import WebSocketSecurityMiddleware Spec.

(** C1. The security check runs origin validation first.  If the origin
    is rejected, the check answers with that denial (message [Origin not
    allowed], status 403) in the world origin validation left: neither the
    authenticator nor the limiter has been called.  Otherwise
    authentication runs next; if it fails, the check answers with the
    authenticator's message and status in the world authentication left,
    the limiter not having been called and its stores untouched.
    Otherwise the connection rate limit runs last; if it denies, the check
    answers with status 429. *)
Theorem security_check_short_circuits
    (E : Env) (g : t) (request : WebSocketUpgradeRequest) (w : World) :
  exists originResult w1,
    validateOrigin E g request w = (Normal originResult, w1) /\
    (valid originResult = false ->
       originResult = originDenied /\
       performSecurityCheck E g request w
         = (Normal (denial (v_error originResult) (v_code originResult)), w1) /\
       calls w1 = calls w /\
       sameStores w w1) /\
    (valid originResult = true ->
       exists authResult w2,
         authenticate E g request w1 = (Normal authResult, w2) /\
         (success authResult = false ->
            performSecurityCheck E g request w
              = (Normal (denial (a_error authResult) (a_code authResult)), w2) /\
            sameStores w w2 /\
            exists l, calls w2 = calls w ++ l /\ noLimiterCall l) /\
         (success authResult = true ->
            exists u,
              user authResult = Some u /\
              forall rateLimitResult w3,
                checkConnectionRateLimit E g (user_id u) (extractIp request) w2
                  = (Normal rateLimitResult, w3) ->
                allowed rateLimitResult = false ->
                performSecurityCheck E g request w = (Normal rateLimited, w3))).
Proof.
  destruct (validateOrigin_run E g request w) as (w1 & Horigin & Hc1 & Hm1 & Hr1 & Hx1).
  eexists _, w1. split; [exact Horigin|].
  pose proof (performSecurityCheck_run E g request w _ w1 Horigin) as [Hdeny Hpass].
  split.
  - intros Hv. split; [by apply originVerdict_denied|].
    split; [by apply Hdeny|]. by repeat split.
  - intros Hv.
    destruct (authenticate_run E g request w1)
      as (authResult & w2 & Hauth & _ & (l & Hc2 & Hl) & Hm2 & Hr2 & _ & Hsucc).
    exists authResult, w2. split; [exact Hauth|].
    destruct (Hpass Hv authResult w2 Hauth) as [Hfail Hok]. split.
    + intros Hs. split; [by apply Hfail|]. split; [split; congruence|].
      exists (CallAuthenticate request :: l). split; [congruence|].
      intros c [<-|Hin]; [left; by eexists|right; by apply Hl].
    + intros Hs. destruct (Hsucc Hs) as (u & ctx & Hu & _).
      exists u. split; [exact Hu|].
      intros rateLimitResult w3 Hrate Hdenied.
      pose proof (Hok Hs u Hu _ _ Hrate) as Hrun. cbn in Hrun.
      by rewrite Hdenied in Hrun.
Qed.

Lemma security_check_short_circuits_witness :
  performSecurityCheck Examples.env (Examples.gateway None)
    (Examples.request (HString "https://evil.com") (Some "/ws?token=good"))
    Examples.emptyWorld
  = (Normal (denial (Some "Origin not allowed") (Some 403)),
     snd (validateOrigin Examples.env (Examples.gateway None)
            (Examples.request (HString "https://evil.com") (Some "/ws?token=good"))
            Examples.emptyWorld)) /\
  calls (snd (validateOrigin Examples.env (Examples.gateway None)
                (Examples.request (HString "https://evil.com") (Some "/ws?token=good"))
                Examples.emptyWorld)) = [].
Proof.
  destruct (security_check_short_circuits Examples.env (Examples.gateway None)
              (Examples.request (HString "https://evil.com") (Some "/ws?token=good"))
              Examples.emptyWorld)
    as (originResult & w1 & Horigin & Hdeny & _).
  assert (Hv : valid originResult = false).
  { apply (f_equal fst) in Horigin. vm_compute in Horigin. by injection Horigin as <-. }
  destruct (Hdeny Hv) as (-> & Hrun & Hcalls & _).
  rewrite Horigin. cbn [snd]. split; [exact Hrun|exact Hcalls].
Defined.

End GatewayClaims.

Section RegistryClaims.

Import WebSocketSecurityMiddleware Spec.

(** C3 (amended). A connection context is inserted into the registry as
    soon as authentication succeeds, before the connection rate limit is
    checked.  An attempt denied at the origin or at authentication leaves
    the registry as it was; an attempt that is accepted, and likewise one
    denied at the rate-limit stage (status 429), leaves the new context in
    the registry.  On the in-process backend the check always returns.
    Closing a connection removes its context. *)
Theorem registry_follows_authentication
    (E : Env) (g : t) (request : WebSocketUpgradeRequest) (w : World) :
  (forall r w',
     performSecurityCheck E g request w = (Normal r, w') ->
     (sc_allowed r = false -> sc_code r <> Some 429 ->
        connectionContexts w' = connectionContexts w) /\
     (sc_allowed r = true \/ sc_code r = Some 429 -> registered w w')) /\
  (WebSocketRateLimiter.redis (rateLimiter g) = false ->
     exists r w', performSecurityCheck E g request w = (Normal r, w')) /\
  (forall connectionId,
     connectionContexts (snd (handleConnectionClose E g connectionId w))
       = delete connectionId (connectionContexts w)).
Proof.
  destruct (validateOrigin_run E g request w) as (w1 & Horigin & _ & _ & _ & Hx1).
  pose proof (performSecurityCheck_run E g request w _ w1 Horigin) as [Hdeny Hpass].
  destruct (valid (originVerdict (allowedOrigins (config g)) (extractOrigin request)))
    eqn:Hv.
  - destruct (authenticate_run E g request w1)
      as (authResult & w2 & Hauth & _ & _ & _ & _ & Hfail & Hsucc).
    destruct (Hpass eq_refl authResult w2 Hauth) as [Hno Hok].
    destruct (success authResult) eqn:Hs.
    + destruct (Hsucc eq_refl) as (u & ctx & Hu & Hctx & Hx2).
      destruct (checkConnectionRateLimit_run E g (user_id u) (extractIp request) w2)
        as (res & w3 & Hrate & Hx3 & Htotal).
      pose proof (Hok eq_refl u Hu res w3 Hrate) as Hrun.
      assert (Hreg : registered w w3).
      { exists u, ctx. split; [exact Hctx|]. congruence. }
      destruct res as [rateLimitResult|e].
      * destruct (allowed rateLimitResult).
        -- destruct Hrun as (w4 & Hrun & Hx4 & _).
           repeat apply conj.
           ++ intros r w' Hr. rewrite Hrun in Hr. injection Hr as <- <-.
              split; [intros; discriminate|]. intros _.
              destruct Hreg as (u' & ctx' & ? & ?). exists u', ctx'. split; congruence.
           ++ intros _. by eexists _, _.
           ++ intros c; apply handleConnectionClose_contexts.
        -- repeat apply conj.
           ++ intros r w' Hr. rewrite Hrun in Hr. injection Hr as <- <-.
              split; [intros _ Hcode; by destruct Hcode|]. intros _. exact Hreg.
           ++ intros _. by eexists _, _.
           ++ intros c; apply handleConnectionClose_contexts.
      * repeat apply conj.
        -- intros r w' Hr. rewrite Hrun in Hr. discriminate.
        -- intros Hredis. destruct (Htotal Hredis) as [r Hr]. discriminate.
        -- intros c; apply handleConnectionClose_contexts.
    + destruct (Hfail eq_refl) as [Hx2 Hcode].
      pose proof (Hno eq_refl) as Hrun. repeat apply conj.
      * intros r w' Hr. rewrite Hrun in Hr. injection Hr as <- <-.
        split; [intros _ _; congruence|].
        cbn. rewrite Hcode. intros [?|?]; discriminate.
      * intros _. by eexists _, _.
      * intros c; apply handleConnectionClose_contexts.
  - pose proof (Hdeny eq_refl) as Hrun.
    pose proof (originVerdict_denied _ _ Hv) as Hdenied.
    repeat apply conj.
    + intros r w' Hr. rewrite Hrun in Hr. injection Hr as <- <-.
      split; [intros _ _; exact Hx1|].
      rewrite Hdenied. cbn. intros [?|?]; discriminate.
    + intros _. by eexists _, _.
    + intros c; apply handleConnectionClose_contexts.
Qed.

Lemma registry_follows_authentication_witness :
  registered Examples.emptyWorld
    (snd (performSecurityCheck Examples.env (Examples.gateway None)
            (Examples.request (HString "https://app.antigravity.dev")
               (Some "/ws?token=good"))
            Examples.emptyWorld)).
Proof.
  destruct (registry_follows_authentication Examples.env (Examples.gateway None)
              (Examples.request (HString "https://app.antigravity.dev")
                 (Some "/ws?token=good"))
              Examples.emptyWorld) as (Hreg & Htotal & _).
  destruct (Htotal eq_refl) as (r & w' & Hrun).
  destruct (Hreg r w' Hrun) as [_ Hin].
  rewrite Hrun. cbn [snd]. apply Hin. left.
  apply (f_equal fst) in Hrun. vm_compute in Hrun. by injection Hrun as <-.
Defined.

(** C3, as stated, fails: with the user's connection quota used up, an
    attempt with a good origin and a good token is denied with status 429,
    and the context inserted at authentication stays in the registry. *)
Lemma registry_counterexample :
  fst (performSecurityCheck Examples.env (Examples.gateway None)
         (Examples.request (HString "https://app.antigravity.dev")
            (Some "/ws?token=good"))
         (Examples.worldWith {["ws:conn:user:u1" := {| count := 5; resetTime := Int 1000 |}]}))
    = Normal rateLimited /\
  connectionContexts
    (Examples.worldWith {["ws:conn:user:u1" := {| count := 5; resetTime := Int 1000 |}]})
    !! "ws_0_1" = None /\
  ctx_user <$>
    connectionContexts
      (snd (performSecurityCheck Examples.env (Examples.gateway None)
              (Examples.request (HString "https://app.antigravity.dev")
                 (Some "/ws?token=good"))
              (Examples.worldWith
                 {["ws:conn:user:u1" := {| count := 5; resetTime := Int 1000 |}]})))
    !! "ws_0_1"
    = Some (Some {| user_id := "u1"; email := "u1@x.com"; roles := [];
                    permissions := []; sessionId := "uuid-2" |}).
Proof. repeat apply conj; vm_compute; reflexivity. Qed.



End RegistryClaims.

(** * Further properties of the code *)

(** ** Token format and public paths *)

Section TokenFormat.

Import WebSocketAuth Props.

Lemma split_nonempty (sep : ascii) (s : string) : split sep s <> [].
Proof.
  destruct s as [|c s]; cbn; [discriminate|].
  destruct (Ascii.eqb c sep); [discriminate|]. by destruct (split sep s).
Qed.

Lemma split_without (sep : ascii) (a : string) :
  containsChar sep a = false -> split sep a = [a].
Proof.
  induction a as [|c a IH]; cbn; [reflexivity|].
  intros H. apply orb_false_iff in H as [Hc Ha]. rewrite Hc, (IH Ha). reflexivity.
Qed.

Lemma split_at (sep : ascii) (a rest : string) :
  containsChar sep a = false ->
  split sep (a +:+ String sep rest) = a :: split sep rest.
Proof.
  induction a as [|c a IH]; intros H.
  - rewrite append_empty. cbn. by rewrite Ascii.eqb_refl.
  - rewrite append_cons. cbn in H |- *. apply orb_false_iff in H as [Hc Ha].
    rewrite Hc, (IH Ha). reflexivity.
Qed.

Lemma concat_split (sep : ascii) (s : string) :
  String.concat (String sep EmptyString) (split sep s) = s.
Proof.
  induction s as [|c s IH]; [reflexivity|]. cbn [split].
  destruct (Ascii.eqb_spec c sep) as [->|Hne].
  - pose proof (split_nonempty sep s) as Hne.
    destruct (split sep s) as [|p ps]; [done|].
    cbn [String.concat] in IH |- *. rewrite IH. reflexivity.
  - destruct (split sep s) as [|p ps] eqn:Hs; [by apply split_nonempty in Hs|].
    destruct ps as [|q qs]; cbn [String.concat] in IH |- *.
    + by rewrite IH.
    + rewrite append_cons. by rewrite IH.
Qed.

Lemma base64url_no_dot (s : string) :
  allChars isBase64UrlChar s = true -> containsChar "."%char s = false.
Proof.
  induction s as [|c s IH]; cbn; [reflexivity|].
  intros H. apply andb_true_iff in H as [Hc Hs]. rewrite (IH Hs), orb_false_r.
  destruct (Ascii.eqb_spec c "."%char) as [->|]; [discriminate|reflexivity].
Qed.

Lemma segment_test (s : string) :
  base64UrlRegex_test s && (0 <? String.length s)%nat = true <-> segment s.
Proof.
  unfold base64UrlRegex_test, segment.
  rewrite !andb_true_iff, truthy_true. split.
  - intros [[? ?] _]. by split.
  - intros [Hne Hall]. split; [by split|]. destruct s; [done|reflexivity].
Qed.

(** X1. A token has the valid format exactly when it consists of three
    non-empty segments over the alphabet [A-Za-z0-9_-], separated by two
    dots. *)
Theorem isValidTokenFormat_iff (token : string) :
  isValidTokenFormat token = true <->
  exists a b c,
    segment a /\ segment b /\ segment c /\
    token = a +:+ "." +:+ b +:+ "." +:+ c.
Proof.
  unfold isValidTokenFormat. split.
  - destruct (truthy token); cbn [negb]; [|discriminate].
    pose proof (concat_split "."%char token) as Hjoin.
    destruct (split "."%char token) as [|a [|b [|c [|d rest]]]];
      cbn [length Nat.eqb negb forallb]; try discriminate.
    intros H.
    apply andb_true_iff in H as [Ha H]. apply andb_true_iff in H as [Hb H].
    apply andb_true_iff in H as [Hc _]. apply segment_test in Ha, Hb, Hc.
    exists a, b, c. split; [exact Ha|]. split; [exact Hb|]. split; [exact Hc|].
    cbn [String.concat] in Hjoin. by rewrite <- Hjoin.
  - intros (a & b & c & Ha & Hb & Hc & ->).
    change (a +:+ "." +:+ b +:+ "." +:+ c)
      with (a +:+ String "." (b +:+ String "." c)).
    assert (Hta : truthy (a +:+ String "." (b +:+ String "." c)) = true).
    { apply truthy_true. destruct Ha as [Hne _]. destruct a; [done|discriminate]. }
    rewrite Hta. cbn [negb].
    rewrite (split_at "."%char a) by (apply base64url_no_dot, Ha).
    rewrite (split_at "."%char b) by (apply base64url_no_dot, Hb).
    rewrite (split_without "."%char c) by (apply base64url_no_dot, Hc).
    cbn [length Nat.eqb negb forallb].
    apply segment_test in Ha, Hb, Hc. by rewrite Ha, Hb, Hc.
Qed.

Lemma prefix_spec (p s : string) :
  String.prefix p s = true <-> exists rest, s = p +:+ rest.
Proof.
  revert s. induction p as [|c p IH]; intros s.
  - split; [intros _; by exists s|]. intros _. by destruct s.
  - destruct s as [|d s]; cbn.
    + split; [discriminate|]. intros [rest H]. discriminate.
    + destruct (Ascii.ascii_dec c d) as [->|Hne].
      * rewrite IH. split; intros [rest H]; exists rest.
        -- by rewrite append_cons, H.
        -- rewrite append_cons in H. by injection H.
      * split; [discriminate|]. intros [rest H].
        rewrite append_cons in H. injection H as ? _. congruence.
Qed.

Lemma append_associative (a b c : string) : (a +:+ b) +:+ c = a +:+ b +:+ c.
Proof.
  induction a as [|x a IH]; [reflexivity|]. rewrite !append_cons. by rewrite IH.
Qed.

(** X2. A path is exempt from authentication exactly when it begins with
    [/ws/health] or [/ws/public]; the rule is a prefix test, so every
    extension of an exempt path is exempt as well. *)
Theorem isAuthRequired_prefix_rule (path : string) :
  (isAuthRequired path = false <->
   (exists rest, path = "/ws/health" +:+ rest) \/
   (exists rest, path = "/ws/public" +:+ rest)) /\
  (forall suffix,
     isAuthRequired path = false -> isAuthRequired (path +:+ suffix) = false).
Proof.
  assert (Hiff : forall p,
    isAuthRequired p = false <->
    (exists rest, p = "/ws/health" +:+ rest) \/ (exists rest, p = "/ws/public" +:+ rest)).
  { intros p. unfold isAuthRequired, publicPaths, startsWith. cbn [existsb].
    rewrite negb_false_iff, orb_false_r, orb_true_iff, !prefix_spec. reflexivity. }
  split; [apply Hiff|].
  intros suffix H. apply Hiff in H. apply Hiff.
  destruct H as [[rest ->]|[rest ->]]; [left|right]; exists (rest +:+ suffix);
    apply append_associative.
Qed.

End TokenFormat.

(** ** Token verification *)

Section TokenVerification.

Import WebSocketAuthHandler Props.

(** X3. Token verification never throws.  It succeeds exactly when the
    verifier accepts the token and the payload carries both [sub] and
    [email]; the user then has these as id and email, [roles] and
    [permissions] default to the empty list, and the session id is the
    [sid] claim when non-empty and a fresh UUID otherwise.  Every failure
    is a result with status 401 and no user.  When the verifier throws,
    the message goes by the name of the error: [Token has expired] for an
    error named [JWTExpired], [Invalid token signature] for one named
    [JWTInvalid], [Token verification failed: ] followed by the error's own
    message for an error of any other name, and the generic
    authentication message for a thrown value that is no error. *)
Theorem verifyToken_outcomes (E : Env) (h : t) (tok : string) (w : World) :
  exists r w',
    verifyToken E h tok w = (Normal r, w') /\
    (success r = true <->
     exists payload id em,
       jwtVerify E tok (secret h) (algorithm h) = Normal payload /\
       sub payload = Some id /\ p_email payload = Some em) /\
    (forall payload id em,
       jwtVerify E tok (secret h) (algorithm h) = Normal payload ->
       sub payload = Some id -> p_email payload = Some em ->
       user r = Some (userOf E payload id em w)) /\
    (success r = false ->
       user r = None /\ a_code r = Some 401 /\ exists msg, a_error r = Some msg) /\
    (forall message,
       jwtVerify E tok (secret h) (algorithm h) = Throw (ErrorObject "JWTExpired" message) ->
       a_error r = Some "Token has expired") /\
    (forall message,
       jwtVerify E tok (secret h) (algorithm h) = Throw (ErrorObject "JWTInvalid" message) ->
       a_error r = Some "Invalid token signature") /\
    (forall name message,
       jwtVerify E tok (secret h) (algorithm h) = Throw (ErrorObject name message) ->
       name <> "JWTExpired" -> name <> "JWTInvalid" ->
       a_error r = Some ("Token verification failed: " +:+ message)) /\
    (jwtVerify E tok (secret h) (algorithm h) = Throw NonError ->
     a_error r = Some AUTHENTICATION_ERROR).
Proof.
  unfold verifyToken, tryCatch, bind, spy, liftC, ret. cbn.
  destruct (jwtVerify E tok (secret h) (algorithm h)) as [payload|e] eqn:Hjwt.
  - unfold extractUserFromPayload, bind, ret, crypto_randomUUID, userOf, sessionIdFor.
    destruct (sub payload) as [id|] eqn:Hsub; [destruct (p_email payload) as [em|] eqn:Hem|].
    + destruct (sid payload) as [s0|] eqn:Hsid; [destruct (truthy s0) eqn:Ht|]; cbn;
        (eexists _, _; split; [reflexivity|]; cbn;
         split; [split; [intros _; by exists payload, id, em|reflexivity]|];
         split; [|split; [discriminate|split; [discriminate|split; [discriminate|
           split; discriminate]]]];
         intros payload0 id0 em0 Hp Hs He; injection Hp as <-;
         rewrite Hsub in Hs; rewrite Hem in He;
         injection Hs as <-; injection He as <-; rewrite Hsid, ?Ht; reflexivity).
    + eexists _, _. split; [reflexivity|]. cbn.
      split; [split; [discriminate|]|].
      { intros (p0 & i0 & e0 & Hp & Hs & He). injection Hp as <-. congruence. }
      split; [intros p0 i0 e0 Hp Hs He; injection Hp as <-; congruence|].
      split; [intros _; repeat split; by eexists|].
      split; [discriminate|split; [discriminate|split; discriminate]].
    + eexists _, _. split; [reflexivity|]. cbn.
      split; [split; [discriminate|]|].
      { intros (p0 & i0 & e0 & Hp & Hs & He). injection Hp as <-. congruence. }
      split; [intros p0 i0 e0 Hp Hs He; injection Hp as <-; congruence|].
      split; [intros _; repeat split; by eexists|].
      split; [discriminate|split; [discriminate|split; discriminate]].
  - destruct e as [name message|];
      [destruct (String.eqb_spec name "JWTExpired") as [->|Hne1];
         [|destruct (String.eqb_spec name "JWTInvalid") as [->|Hne2]]|];
      (eexists _, _; split; [reflexivity|]; cbn;
       split; [split; [discriminate|intros (? & ? & ? & ? & _); discriminate]|];
       split; [discriminate|]; split; [intros _; repeat split; by eexists|];
       (split; [|split; [|split]]); intros;
       first [reflexivity | congruence
             | match goal with
               | H : Throw _ = Throw _ |- _ => injection H; intros; subst
               end; first [reflexivity | congruence]]).
Qed.

End TokenVerification.

(** ** Normalization of strings *)

Section Normalization.

Import Props.

Lemma lowerChar_idem (c : ascii) : lowerChar (lowerChar c) = lowerChar c.
Proof. destruct c as [[] [] [] [] [] [] [] []]; reflexivity. Qed.

Lemma isWhiteSpace_lowerChar (c : ascii) : isWhiteSpace (lowerChar c) = isWhiteSpace c.
Proof. destruct c as [[] [] [] [] [] [] [] []]; reflexivity. Qed.

Lemma toLowerCase_idem (s : string) : toLowerCase (toLowerCase s) = toLowerCase s.
Proof. induction s as [|c s IH]; cbn; [reflexivity|]. by rewrite lowerChar_idem, IH. Qed.

Lemma toLowerCase_append (a b : string) :
  toLowerCase (a +:+ b) = toLowerCase a +:+ toLowerCase b.
Proof.
  induction a as [|c a IH]; [reflexivity|].
  rewrite append_cons. cbn [toLowerCase]. by rewrite append_cons, IH.
Qed.

Lemma toLowerCase_trimStart (s : string) :
  toLowerCase (trimStart s) = trimStart (toLowerCase s).
Proof.
  induction s as [|c s IH]; cbn; [reflexivity|].
  rewrite isWhiteSpace_lowerChar. by destruct (isWhiteSpace c).
Qed.

Lemma toLowerCase_trimEnd (s : string) :
  toLowerCase (trimEnd s) = trimEnd (toLowerCase s).
Proof.
  induction s as [|c s IH]; cbn; [reflexivity|].
  rewrite <- IH, isWhiteSpace_lowerChar.
  destruct (trimEnd s); cbn; [by destruct (isWhiteSpace c)|reflexivity].
Qed.

Lemma toLowerCase_drop (n : nat) (s : string) :
  toLowerCase (dropChars n s) = dropChars n (toLowerCase s).
Proof.
  unfold dropChars.
  assert (Hlen : forall x, String.length (toLowerCase x) = String.length x).
  { induction x as [|c x IH]; cbn; [reflexivity|]. by rewrite IH. }
  rewrite Hlen. generalize (String.length s - n)%nat as m. revert n.
  induction s as [|c s IH]; intros n m.
  - by destruct n, m.
  - destruct n as [|n]; cbn.
    + destruct m as [|m]; cbn; [reflexivity|]. by rewrite <- (IH 0%nat m).
    + apply IH.
Qed.

Lemma trimEnd_idem (s : string) : trimEnd (trimEnd s) = trimEnd s.
Proof.
  induction s as [|c s IH]; cbn; [reflexivity|].
  destruct (trimEnd s) as [|d r] eqn:Hs.
  - destruct (isWhiteSpace c) eqn:Hc; cbn; [reflexivity|]. by rewrite Hc.
  - cbn [trimEnd]. cbn [trimEnd] in IH.
    destruct (trimEnd r) as [|e r'] eqn:Hr.
    + destruct (isWhiteSpace d); [discriminate|]. by rewrite IH.
    + by rewrite IH.
Qed.

(** A string with no white space at its end. *)
Lemma trimEnd_tail (c : ascii) (s : string) :
  trimEnd (String c s) = String c s -> trimEnd s = s.
Proof.
  cbn. destruct (trimEnd s) as [|d r] eqn:Hs.
  - destruct (isWhiteSpace c); [discriminate|]. intros H. by injection H as <-.
  - intros H. by injection H.
Qed.

Lemma trimEnd_drop (n : nat) (s : string) :
  trimEnd s = s -> trimEnd (dropChars n s) = dropChars n s.
Proof.
  assert (Hfull : forall x, String.substring 0 (String.length x) x = x).
  { induction x as [|c x IH]; cbn; [reflexivity|]. by rewrite IH. }
  unfold dropChars. revert n. induction s as [|c s IH]; intros n H.
  - by destruct n.
  - destruct n as [|n].
    + rewrite Nat.sub_0_r, Hfull. exact H.
    + cbn. apply IH. by apply (trimEnd_tail c).
Qed.

Lemma trimEnd_append (a b : string) :
  b <> "" -> trimEnd b = b -> trimEnd (a +:+ b) = a +:+ b.
Proof.
  intros Hne Hb. induction a as [|c a IH]; [exact Hb|].
  rewrite append_cons. cbn [trimEnd]. rewrite IH.
  destruct (a +:+ b) as [|d r] eqn:Hab; [|reflexivity].
  destruct a; [by rewrite append_empty in Hab|discriminate].
Qed.

Lemma trimStart_keeps (a : string) (c : ascii) (b : string) :
  isWhiteSpace c = false ->
  exists a', trimStart (a +:+ String c b) = a' +:+ String c b.
Proof.
  intros Hc. induction a as [|d a IH].
  - exists "". rewrite !append_empty. cbn. by rewrite Hc.
  - rewrite append_cons. cbn [trimStart].
    destruct (isWhiteSpace d); [exact IH|]. by exists (String d a).
Qed.

Lemma trimStart_trimEnd (s : string) :
  trimStart (trimEnd (trimStart s)) = trimEnd (trimStart s).
Proof.
  assert (Hhead : forall c u, isWhiteSpace c = false ->
            trimStart (trimEnd (String c u)) = trimEnd (String c u)).
  { intros c u Hc. cbn [trimEnd].
    destruct (trimEnd u); rewrite ?Hc; cbn; by rewrite Hc. }
  induction s as [|c s IH]; [reflexivity|]. cbn [trimStart].
  destruct (isWhiteSpace c) eqn:Hc; [exact IH|]. by apply Hhead.
Qed.

Lemma trim_idem (s : string) : trim (trim s) = trim s.
Proof. unfold trim. by rewrite trimStart_trimEnd, trimEnd_idem. Qed.

Lemma containsChar_trimStart (c : ascii) (s : string) :
  containsChar c s = false -> containsChar c (trimStart s) = false.
Proof.
  induction s as [|d s IH]; cbn; [done|]. intros H.
  destruct (isWhiteSpace d); [|exact H].
  apply orb_false_iff in H as [_ H]. by apply IH.
Qed.

Lemma containsChar_trimEnd (c : ascii) (s : string) :
  containsChar c s = false -> containsChar c (trimEnd s) = false.
Proof.
  induction s as [|d s IH]; cbn; [done|]. intros H.
  apply orb_false_iff in H as [Hd H]. specialize (IH H).
  destruct (trimEnd s); [destruct (isWhiteSpace d); cbn; by rewrite ?Hd|].
  cbn. cbn in IH. by rewrite Hd, IH.
Qed.

Lemma beforeComma_no_comma (s : string) : containsChar ","%char (beforeComma s) = false.
Proof.
  induction s as [|d s IH]; cbn; [reflexivity|].
  destruct (Ascii.eqb d ","%char) eqn:Hd; cbn; [reflexivity|]. by rewrite Hd, IH.
Qed.

End Normalization.

(** ** Client address and origin matching *)

Section ClientAddress.

Import WebSocketSecurityMiddleware Props Spec.

(** X4. Whenever [X-Forwarded-For] is a string or a non-empty list,
    [extractIp] returns the first comma-separated entry of its (first)
    value, trimmed, whatever [X-Real-IP] and the socket address are; the
    result contains no comma and has no white space left at either end. *)
Theorem extractIp_forwarded_first
    (request other : WebSocketUpgradeRequest) (forwarded : string) :
  firstValue (h_x_forwarded_for (headers request)) = Some forwarded ->
  firstValue (h_x_forwarded_for (headers other)) = Some forwarded ->
  extractIp request = trim (beforeComma forwarded) /\
  extractIp other = extractIp request /\
  containsChar ","%char (extractIp request) = false /\
  trim (extractIp request) = extractIp request.
Proof.
  assert (Hip : forall r, firstValue (h_x_forwarded_for (headers r)) = Some forwarded ->
                          extractIp r = trim (beforeComma forwarded)).
  { intros r H. unfold extractIp.
    destruct (h_x_forwarded_for (headers r)) as [|f|[|f l]]; try discriminate;
      cbn in H; by injection H as ->. }
  intros H1 H2. rewrite (Hip request H1), (Hip other H2).
  repeat apply conj; [reflexivity|reflexivity| |apply trim_idem].
  unfold trim. apply containsChar_trimEnd, containsChar_trimStart, beforeComma_no_comma.
Qed.

Lemma extractIp_forwarded_first_witness :
  extractIp {| headers := {| h_origin := HAbsent; h_user_agent := None;
                             h_x_forwarded_for := HString " 10.0.0.1 , 10.0.0.2";
                             h_x_real_ip := HString "172.16.0.9" |};
               remoteAddress := Some "192.168.1.1"; url := None |}
    = "10.0.0.1".
Proof.
  destruct (extractIp_forwarded_first
              {| headers := {| h_origin := HAbsent; h_user_agent := None;
                               h_x_forwarded_for := HString " 10.0.0.1 , 10.0.0.2";
                               h_x_real_ip := HString "172.16.0.9" |};
                 remoteAddress := Some "192.168.1.1"; url := None |}
              {| headers := {| h_origin := HAbsent; h_user_agent := None;
                               h_x_forwarded_for := HString " 10.0.0.1 , 10.0.0.2";
                               h_x_real_ip := HAbsent |};
                 remoteAddress := None; url := None |}
              " 10.0.0.1 , 10.0.0.2") as (Hip & _).
  - reflexivity.
  - reflexivity.
  - rewrite Hip. reflexivity.
Defined.

End ClientAddress.

Section SubdomainMatch.

Import WebSocketSecurityMiddleware Props Spec.

Lemma normalized_entry_lower (entry : string) :
  toLowerCase (trim (toLowerCase entry)) = trim (toLowerCase entry).
Proof.
  unfold trim. by rewrite toLowerCase_trimEnd, toLowerCase_trimStart, toLowerCase_idem.
Qed.

Lemma stripScheme_lower (s : string) :
  toLowerCase s = s -> toLowerCase (stripScheme s) = stripScheme s.
Proof.
  intros H. unfold stripScheme.
  destruct (startsWith s "https://"); [by rewrite toLowerCase_drop, H|].
  destruct (startsWith s "http://"); [by rewrite toLowerCase_drop, H|exact H].
Qed.

Lemma stripScheme_trimEnd (s : string) :
  trimEnd s = s -> trimEnd (stripScheme s) = stripScheme s.
Proof.
  intros H. unfold stripScheme.
  destruct (startsWith s "https://"); [by apply trimEnd_drop|].
  destruct (startsWith s "http://"); [by apply trimEnd_drop|exact H].
Qed.

Lemma dotted_suffix_survives (front host : string) :
  toLowerCase host = host -> trimEnd host = host ->
  EndsWith (trim (toLowerCase (front +:+ "." +:+ host))) ("." +:+ host).
Proof.
  intros Hlow Hend.
  change (front +:+ "." +:+ host) with (front +:+ String "." host).
  change ("." +:+ host) with (String "."%char host).
  rewrite toLowerCase_append. cbn [toLowerCase]. rewrite Hlow.
  change (lowerChar ".") with "."%char.
  destruct (trimStart_keeps (toLowerCase front) "."%char host eq_refl) as [a' Ha'].
  unfold trim. rewrite Ha'. exists a'.
  apply trimEnd_append; [discriminate|].
  cbn [trimEnd]. rewrite Hend. by destruct host.
Qed.

(** X5. The suffix rule of the origin validator does not look at the
    scheme: for every allow-list entry, any origin made of an arbitrary
    front part, a dot, and the entry's normalized host part is accepted,
    so a subdomain is accepted under any scheme. *)
Theorem subdomain_match_ignores_scheme
    (E : Env) (g : t) (request : WebSocketUpgradeRequest)
    (front entry : string) (w : World) :
  In entry (allowedOrigins (config g)) ->
  extractOrigin request
    = Some (front +:+ "." +:+ stripScheme (trim (toLowerCase entry))) ->
  exists w', validateOrigin E g request w = (Normal originAccepted, w').
Proof.
  intros Hin Horigin.
  destruct (validateOrigin_run E g request w) as (w' & Hrun & _).
  exists w'. rewrite Hrun, Horigin. f_equal. f_equal.
  unfold originVerdict.
  assert (Htruthy : truthy (front +:+ "." +:+ stripScheme (trim (toLowerCase entry))) = true).
  { apply truthy_true. destruct front; discriminate. }
  rewrite Htruthy.
  assert (Hallowed : originAllowed (allowedOrigins (config g))
                       (front +:+ "." +:+ stripScheme (trim (toLowerCase entry)))).
  { exists entry. split; [exact Hin|]. right.
    apply dotted_suffix_survives.
    - apply stripScheme_lower, normalized_entry_lower.
    - apply stripScheme_trimEnd. unfold trim. apply trimEnd_idem. }
  apply isAllowed_spec in Hallowed. by rewrite Hallowed.
Qed.

Lemma subdomain_match_ignores_scheme_witness :
  exists w',
    validateOrigin Examples.env (Examples.gateway None)
      (Examples.request (HString "http://evil.app.antigravity.dev") (Some "/ws"))
      Examples.emptyWorld = (Normal originAccepted, w').
Proof.
  apply (subdomain_match_ignores_scheme Examples.env (Examples.gateway None)
           (Examples.request (HString "http://evil.app.antigravity.dev") (Some "/ws"))
           "http://evil" "https://app.antigravity.dev" Examples.emptyWorld).
  - cbn. tauto.
  - reflexivity.
Defined.

End SubdomainMatch.

(** ** Sweep and counters of the in-process store *)

Section InProcessStore.

Import WebSocketRateLimiter RateLimiterMaintenance Spec Props.

Variable E : Env.

Lemma cleanup_lookup (key : string) (w : World) :
  memoryStorage (snd (cleanupMemoryStorage E w)) !! key
    = match memoryStorage w !! key with
      | Some s => if le (resetTime s) (Int (clock E (ticks w))) then None else Some s
      | None => None
      end.
Proof.
  unfold cleanupMemoryStorage, bind, Date_now. cbn.
  destruct (memoryStorage w !! key) as [s|] eqn:Hs.
  - destruct (le (resetTime s) (Int (clock E (ticks w)))) eqn:Hle.
    + apply map_lookup_filter_None. right. intros s' Hs'. cbn.
      rewrite Hs in Hs'. injection Hs' as <-. congruence.
    + apply map_lookup_filter_Some. split; [exact Hs|]. exact Hle.
  - apply map_lookup_filter_None. by left.
Qed.

(** X6. The sweep deletes exactly the entries whose [resetTime] is at or
    before the clock and leaves every other entry as it is; the verdict of
    any check made at a later instant is the same with or without the
    sweep. *)
Theorem sweep_keeps_later_verdicts
    (key : string) (maxRequests windowMs : Num) (t : Z) (w : World) :
  (forall s,
     memoryStorage (snd (cleanupMemoryStorage E w)) !! key = Some s <->
     memoryStorage w !! key = Some s /\
     le (resetTime s) (Int (clock E (ticks w))) = false) /\
  (clock E (ticks w) < t ->
   verdict (memoryStorage (snd (cleanupMemoryStorage E w)) !! key) maxRequests t windowMs
     = verdict (memoryStorage w !! key) maxRequests t windowMs).
Proof.
  rewrite cleanup_lookup. split.
  - intros s. destruct (memoryStorage w !! key) as [s0|]; [|split; [done|by intros []]].
    destruct (le (resetTime s0) (Int (clock E (ticks w)))) eqn:Hle.
    + split; [done|]. intros [Hs Hlt]. injection Hs as <-. congruence.
    + split; [intros Hs; injection Hs as <-; by split|by intros []].
  - intros Hlater. destruct (memoryStorage w !! key) as [s0|]; [|reflexivity].
    destruct (le (resetTime s0) (Int (clock E (ticks w)))) eqn:Hle; [|reflexivity].
    unfold verdict.
    destruct (resetTime s0) as [r| | |]; cbn in Hle |- *; try discriminate;
      apply Z.leb_le in Hle;
      match goal with |- context [?a >? ?b] => destruct (Z.gtb_spec a b) end;
      first [reflexivity | lia].
Qed.

End InProcessStore.

Lemma sweep_keeps_later_verdicts_witness :
  Spec.verdict (memoryStorage
             (snd (RateLimiterMaintenance.cleanupMemoryStorage Examples.lateEnv
                     (Examples.worldWith {["k" := Examples.sampleState]}))) !! "k")
          (Int 5) 201 (Int 1000)
    = Spec.verdict (memoryStorage (Examples.worldWith {["k" := Examples.sampleState]}) !! "k")
              (Int 5) 201 (Int 1000).
Proof.
  destruct (sweep_keeps_later_verdicts Examples.lateEnv "k" (Int 5) (Int 1000) 201
              (Examples.worldWith {["k" := Examples.sampleState]})) as [_ H].
  apply H. cbn. lia.
Defined.


(** ** The limiter on its in-process store *)

Section InProcessLimiter.

Import WebSocketRateLimiter RateLimiterMaintenance Spec Props.

Variable E : Env.
Variable lim : t.
Hypothesis in_process : redis lim = false.

Lemma incrementCounter_store (key : string) (windowMs : Num) (w : World) :
  memoryStorage (snd (incrementCounter E lim key windowMs w))
    = <[key := incrementedState E key windowMs w]> (memoryStorage w).
Proof.
  rewrite incrementCounter_memory by exact in_process.
  unfold incrementedState. cbn [snd].
  destruct (memoryStorage w !! key); reflexivity.
Qed.

Lemma incrementCounter_ticks (key : string) (windowMs : Num) (w : World) :
  (ticks w < ticks (snd (incrementCounter E lim key windowMs w)))%nat.
Proof.
  rewrite incrementCounter_memory by exact in_process. cbn [snd].
  destruct (memoryStorage w !! key); cbn; lia.
Qed.

(** The message check on the in-process store, in closed form. *)
Lemma checkMessageRateLimit_memory (connectionId messageType : string) (w : World) :
  let key := getMessageKey connectionId messageType in
  let c := limitConfigFor lim messageType in
  let r := verdict (memoryStorage w !! key) (lc_maxRequests c) (clock E (ticks w))
                   (lc_windowMs c) in
  checkMessageRateLimit E lim connectionId messageType w
    = if allowed r then
        (Normal {| allowed := true; remaining := minus (remaining r) (Int 1);
                   r_resetTime := r_resetTime r; retryAfter := None |},
         snd (incrementCounter E lim key (lc_windowMs c) (set_ticks (S (ticks w)) w)))
      else
        (Normal (withRetryAfter r
                   (ceilSeconds (minus (r_resetTime r) (Int (clock E (S (ticks w))))))),
         set_ticks (S (S (ticks w))) w).
Proof.
  intros key c r. unfold checkMessageRateLimit, bind.
  rewrite checkRateLimit_run, stored_in_process by exact in_process.
  fold key c r. destruct (allowed r); cbn [negb].
  - pose proof (incrementCounter_in_process E lim key (lc_windowMs c)
                  (set_ticks (S (ticks w)) w) in_process) as Hf.
    destruct (incrementCounter E lim key (lc_windowMs c) (set_ticks (S (ticks w)) w))
      as [res w1].
    cbn [fst snd] in *. subst res. reflexivity.
  - rewrite denyWithRetryAfter_run. reflexivity.
Qed.

(** The connection check on the in-process store, in closed form. *)
Lemma checkConnectionRateLimit_memory (userId ip : string) (w : World) :
  let userKey := getConnectionKey user_key userId in
  let ipKey := getConnectionKey ip_key ip in
  let c := connectionConfig lim in
  let ru := verdict (memoryStorage w !! userKey) (Int (maxConnectionsPerUser c))
                    (clock E (ticks w)) (Int (connWindowMs c)) in
  let ri := verdict (memoryStorage w !! ipKey) (Int (maxConnectionsPerIp c))
                    (clock E (S (ticks w))) (Int (connWindowMs c)) in
  checkConnectionRateLimit E lim userId ip w
    = if allowed ru then
        if allowed ri then
          (Normal {| allowed := true;
                     remaining := minus (Math_min (remaining ru) (remaining ri)) (Int 1);
                     r_resetTime := Math_max (r_resetTime ru) (r_resetTime ri);
                     retryAfter := None |},
           snd (incrementCounter E lim ipKey (Int (connWindowMs c))
                  (snd (incrementCounter E lim userKey (Int (connWindowMs c))
                          (set_ticks (S (S (ticks w))) w)))))
        else
          (Normal (withRetryAfter ri
                     (ceilSeconds
                        (minus (r_resetTime ri) (Int (clock E (S (S (ticks w)))))))),
           set_ticks (S (S (S (ticks w)))) w)
      else
        (Normal (withRetryAfter ru
                   (ceilSeconds (minus (r_resetTime ru) (Int (clock E (S (ticks w))))))),
         set_ticks (S (S (ticks w))) w).
Proof.
  intros userKey ipKey c ru ri. unfold checkConnectionRateLimit, bind.
  rewrite checkRateLimit_run, stored_in_process by exact in_process.
  fold userKey c ru. destruct (allowed ru); cbn [negb].
  - rewrite checkRateLimit_run, stored_in_process by exact in_process.
    cbn [ticks set_ticks memoryStorage]. fold ipKey ri.
    destruct (allowed ri); cbn [negb].
    + change (set_ticks (S (S (ticks w))) (set_ticks (S (ticks w)) w))
        with (set_ticks (S (S (ticks w))) w).
      pose proof (incrementCounter_in_process E lim userKey (Int (connWindowMs c))
                    (set_ticks (S (S (ticks w))) w) in_process) as Hu.
      destruct (incrementCounter E lim userKey (Int (connWindowMs c))
                  (set_ticks (S (S (ticks w))) w)) as [res w1].
      cbn [fst snd] in *. subst res.
      pose proof (incrementCounter_in_process E lim ipKey (Int (connWindowMs c)) w1
                    in_process) as Hi.
      destruct (incrementCounter E lim ipKey (Int (connWindowMs c)) w1) as [res w2].
      cbn [fst snd] in *. subst res. reflexivity.
    + rewrite denyWithRetryAfter_run. reflexivity.
  - rewrite denyWithRetryAfter_run. reflexivity.
Qed.

Lemma decrementMemory_store (key : string) (w : World) :
  decrementMemory key w
    = (Normal tt,
       match memoryStorage w !! key with
       | Some s =>
           if count s >? 0
           then set_memoryStorage (<[key := unbump s]> (memoryStorage w)) w
           else w
       | None => w
       end).
Proof.
  unfold decrementMemory. destruct (memoryStorage w !! key) as [s|]; [|reflexivity].
  destruct (count s >? 0); reflexivity.
Qed.

Lemma nonNegative_insert (key : string) (s : RateLimitState)
    (m : gmap string RateLimitState) :
  0 <= count s -> nonNegative m -> nonNegative (<[key := s]> m).
Proof.
  intros Hs Hm k s' Hk. destruct (decide (k = key)) as [->|Hne].
  - rewrite lookup_insert_eq in Hk. injection Hk as <-. exact Hs.
  - rewrite lookup_insert_ne in Hk by congruence. exact (Hm k s' Hk).
Qed.

Lemma nonNegative_incrementedState (key : string) (windowMs : Num) (w : World) :
  nonNegative (memoryStorage w) -> 0 <= count (incrementedState E key windowMs w).
Proof.
  intros Hm. unfold incrementedState.
  destruct (memoryStorage w !! key) as [s|] eqn:Hs; [|cbn; lia].
  destruct (gt _ (resetTime s)); cbn; [lia|].
  pose proof (Hm key s Hs). lia.
Qed.

Lemma nonNegative_increment (key : string) (windowMs : Num) (w : World) :
  nonNegative (memoryStorage w) ->
  nonNegative (memoryStorage (snd (incrementCounter E lim key windowMs w))).
Proof.
  intros Hm. rewrite incrementCounter_store.
  apply nonNegative_insert; [|exact Hm].
  by apply nonNegative_incrementedState.
Qed.

Lemma nonNegative_decrement (key : string) (w : World) :
  nonNegative (memoryStorage w) ->
  nonNegative (memoryStorage (snd (decrementMemory key w))).
Proof.
  intros Hm. rewrite decrementMemory_store. cbn [snd].
  destruct (memoryStorage w !! key) as [s|] eqn:Hs; [|exact Hm].
  destruct (Z.gtb_spec (count s) 0); [|exact Hm].
  cbn. apply nonNegative_insert; [cbn; lia|exact Hm].
Qed.

Lemma nonNegative_afterCall (c : LimiterCall) (w : World) :
  nonNegative (memoryStorage w) ->
  nonNegative (memoryStorage (afterCall E lim c w)).
Proof.
  intros Hm. destruct c as [u ip|cid ty|u ip|key|key| |]; cbn [afterCall].
  - pose proof (checkConnectionRateLimit_memory u ip w) as Hrun. cbv zeta in Hrun.
    rewrite Hrun.
    repeat match goal with |- context [if ?b then _ else _] => destruct b end;
      cbn [snd]; try exact Hm.
    by do 2 apply nonNegative_increment.
  - pose proof (checkMessageRateLimit_memory cid ty w) as Hrun. cbv zeta in Hrun.
    rewrite Hrun.
    match goal with |- context [if ?b then _ else _] => destruct b end;
      cbn [snd]; try exact Hm.
    by apply nonNegative_increment.
  - unfold decrementConnectionCounter, bind. rewrite in_process.
    rewrite (decrementMemory_store (getConnectionKey user_key u)).
    apply nonNegative_decrement.
    pose proof (nonNegative_decrement (getConnectionKey user_key u) w Hm) as H1.
    rewrite decrementMemory_store in H1. exact H1.
  - unfold resetRateLimit. rewrite in_process. cbn.
    intros k s Hk. apply lookup_delete_Some in Hk as [_ Hk]. exact (Hm k s Hk).
  - unfold getRateLimitStatus. rewrite in_process.
    destruct (memoryStorage w !! key) as [s|]; [|exact Hm].
    unfold bind, Date_now, ret. destruct (le _ _); exact Hm.
  - intros k s Hk. rewrite cleanup_lookup in Hk.
    destruct (memoryStorage w !! k) as [s0|] eqn:Hs0; [|done].
    destruct (le _ _); [done|]. injection Hk as <-. exact (Hm k s0 Hs0).
  - intros k s Hk. cbn in Hk. by rewrite lookup_empty in Hk.
Qed.

Lemma nonNegative_afterCalls (cs : list LimiterCall) (w : World) :
  nonNegative (memoryStorage w) ->
  nonNegative (memoryStorage (afterCalls E lim cs w)).
Proof.
  revert w. induction cs as [|c cs IH]; intros w Hm; [exact Hm|].
  cbn [afterCalls fold_left]. apply IH. by apply nonNegative_afterCall.
Qed.

Lemma decrementMemory_at_zero (k key : string) (w : World) (s : RateLimitState) :
  memoryStorage w !! key = Some s -> count s = 0 ->
  memoryStorage (snd (decrementMemory k w)) !! key = Some s.
Proof.
  intros Hs Hzero. rewrite decrementMemory_store. cbn [snd].
  destruct (memoryStorage w !! k) as [s0|] eqn:Hk; [|exact Hs].
  destruct (Z.gtb_spec (count s0) 0) as [Hpos|_]; [|exact Hs].
  cbn. destruct (decide (key = k)) as [->|Hne].
  - rewrite Hs in Hk. injection Hk as <-. lia.
  - by rewrite lookup_insert_ne by congruence.
Qed.

(** X7. On the in-process store no sequence of limiter operations
    (connection and message checks, releases, resets, status reads, sweeps,
    destroy) drives a counter below zero: a release leaves every counter
    that is at zero as it is. *)
Theorem counters_never_negative (cs : list LimiterCall) (w : World) :
  nonNegative (memoryStorage w) ->
  nonNegative (memoryStorage (afterCalls E lim cs w)) /\
  (forall userId ip key s,
     memoryStorage w !! key = Some s -> count s = 0 ->
     memoryStorage (afterCall E lim (Decrement userId ip) w) !! key = Some s).
Proof.
  intros Hm. split; [by apply nonNegative_afterCalls|].
  intros userId ip key s Hs Hzero. cbn [afterCall].
  unfold decrementConnectionCounter, bind. rewrite in_process.
  pose proof (decrementMemory_at_zero (getConnectionKey user_key userId) key w s
                Hs Hzero) as H1.
  rewrite (decrementMemory_store (getConnectionKey user_key userId)) in H1 |- *.
  cbn [snd] in H1. by apply decrementMemory_at_zero.
Qed.

End InProcessLimiter.

Lemma counters_never_negative_witness :
  Props.nonNegative
    (memoryStorage
       (Props.afterCalls Examples.env Examples.limiter
          [Props.CheckConnection "u1" "10.0.0.1"; Props.Decrement "u1" "10.0.0.1";
           Props.Decrement "u1" "10.0.0.1"; Props.Sweep]
          Examples.emptyWorld)).
Proof.
  apply (counters_never_negative Examples.env Examples.limiter).
  - reflexivity.
  - intros k s Hk. cbn in Hk. by rewrite lookup_empty in Hk.
Defined.

(** ** Verdicts and reach of the limiter, on either store *)

Section EitherStore.

Import WebSocketRateLimiter Spec Props.

Variable E : Env.
Variable lim : t.

Lemma incrementCounter_frame (key : string) (windowMs : Num) (w : World) :
  sameElsewhere key w (snd (incrementCounter E lim key windowMs w)).
Proof.
  intros k Hk. destruct (redis lim) eqn:Hredis.
  - rewrite incrementCounter_redis by assumption.
    destruct (stored E lim w key); cbn; [|by split].
    split; [reflexivity|]. by rewrite lookup_insert_ne by congruence.
  - rewrite incrementCounter_memory by assumption.
    destruct (memoryStorage w !! key); cbn;
      (split; [|reflexivity]); by rewrite lookup_insert_ne by congruence.
Qed.

Lemma checkConnectionRateLimit_frame (userId ip k : string) (w : World) :
  k <> getConnectionKey user_key userId ->
  k <> getConnectionKey ip_key ip ->
  sameAt k w (snd (checkConnectionRateLimit E lim userId ip w)).
Proof.
  intros Hu Hi. unfold checkConnectionRateLimit, bind. rewrite checkRateLimit_run.
  destruct (stored E lim w _) as [stU|e]; [|by split].
  destruct (allowed (verdict stU _ _ _)); cbn [negb]; [|by split].
  rewrite checkRateLimit_run.
  destruct (stored E lim _ _) as [stI|e]; [|by split].
  destruct (allowed (verdict stI _ _ _)); cbn [negb]; [|by split].
  match goal with
  | |- context [incrementCounter E lim ?key ?W ?w0] =>
      pose proof (incrementCounter_frame key W w0 k Hu) as Hfu;
      destruct (incrementCounter E lim key W w0) as [[[]|e] wu]
  end; cbn [snd] in *; [|exact Hfu].
  match goal with
  | |- context [incrementCounter E lim ?key ?W ?w0] =>
      pose proof (incrementCounter_frame key W w0 k Hi) as Hfi;
      destruct (incrementCounter E lim key W w0) as [[[]|e] wi]
  end; unfold ret; cbn [snd] in *;
    (split; [by rewrite (proj1 Hfi), (proj1 Hfu)|by rewrite (proj2 Hfi), (proj2 Hfu)]).
Qed.

Lemma decrementMemory_frame (key k : string) (w : World) :
  k <> key -> sameAt k w (snd (decrementMemory key w)).
Proof.
  intros Hk. unfold decrementMemory.
  destruct (memoryStorage w !! key) as [s|]; [|by split].
  destruct (count s >? 0); [|by split].
  split; cbn; [by rewrite lookup_insert_ne by congruence|reflexivity].
Qed.

Lemma decrementConnectionCounter_frame (userId ip k : string) (w : World) :
  k <> getConnectionKey user_key userId ->
  k <> getConnectionKey ip_key ip ->
  sameAt k w (snd (decrementConnectionCounter lim userId ip w)).
Proof.
  intros Hu Hi. unfold decrementConnectionCounter, bind.
  destruct (redis lim); [by split|].
  pose proof (decrementMemory_frame _ k w Hu) as H1.
  destruct (decrementMemory (getConnectionKey user_key userId) w) as [[[]|e] w1];
    cbn [snd] in *; [|exact H1].
  pose proof (decrementMemory_frame _ k w1 Hi) as H2.
  destruct (decrementMemory (getConnectionKey ip_key ip) w1) as [c w2];
    cbn [snd] in *.
  split; [by rewrite (proj1 H2), (proj1 H1)|by rewrite (proj2 H2), (proj2 H1)].
Qed.

Lemma getConnectionKey_inj (type : KeyType) (a b : string) :
  getConnectionKey type a = getConnectionKey type b -> a = b.
Proof. destruct type; cbn; intros H; exact (String.app_inj _ _ _ H). Qed.

Lemma message_key_is_no_connection_key (connectionId messageType : string)
    (type : KeyType) (identifier : string) :
  getMessageKey connectionId messageType <> getConnectionKey type identifier.
Proof. destruct type; discriminate. Qed.

(** X8. Granting or releasing a connection of one user from one address
    touches, in either store, only that user's and that address's
    connection counters: the counters of every other user and address, and
    every message counter, stay as they were. *)
Theorem connection_quota_reach
    (userId ip otherUser otherIp connectionId messageType : string) (w : World) :
  otherUser <> userId -> otherIp <> ip ->
  let granted := snd (checkConnectionRateLimit E lim userId ip w) in
  let released := snd (decrementConnectionCounter lim userId ip w) in
  (sameAt (getConnectionKey user_key otherUser) w granted /\
   sameAt (getConnectionKey ip_key otherIp) w granted /\
   sameAt (getMessageKey connectionId messageType) w granted) /\
  (sameAt (getConnectionKey user_key otherUser) w released /\
   sameAt (getConnectionKey ip_key otherIp) w released /\
   sameAt (getMessageKey connectionId messageType) w released).
Proof.
  intros Hu Hi granted released.
  assert (Hk1 : getConnectionKey user_key otherUser <> getConnectionKey user_key userId)
    by (intros H; apply Hu; exact (getConnectionKey_inj _ _ _ H)).
  assert (Hk2 : getConnectionKey ip_key otherIp <> getConnectionKey ip_key ip)
    by (intros H; apply Hi; exact (getConnectionKey_inj _ _ _ H)).
  assert (Hk3 : getConnectionKey user_key otherUser <> getConnectionKey ip_key ip)
    by apply connection_keys_differ.
  assert (Hk4 : getConnectionKey ip_key otherIp <> getConnectionKey user_key userId)
    by (intros H; symmetry in H; revert H; apply connection_keys_differ).
  pose proof (message_key_is_no_connection_key connectionId messageType user_key userId)
    as Hk5.
  pose proof (message_key_is_no_connection_key connectionId messageType ip_key ip)
    as Hk6.
  split; (split; [|split]);
    first [by apply checkConnectionRateLimit_frame
          |by apply decrementConnectionCounter_frame].
Qed.

Lemma retrySeconds_ceil (resetAt now : Z) :
  retrySeconds resetAt now (ceilDiv1000 (resetAt - now)).
Proof. unfold retrySeconds, ceilDiv1000. Z.div_mod_to_equations. lia. Qed.

Lemma retryFor_ceil (resetAt : Num) (now : Z) :
  retryFor resetAt now (ceilSeconds (minus resetAt (Int now))).
Proof.
  destruct resetAt as [t| | |]; cbn; try reflexivity;
    (eexists; split; [reflexivity|apply retrySeconds_ceil]).
Qed.

Lemma verdict_denied (st : option RateLimitState) (maxRequests : Num) (now : Z)
    (windowMs : Num) :
  allowed (verdict st maxRequests now windowMs) = false ->
  exists s, st = Some s /\ verdict st maxRequests now windowMs = exhausted s /\
            gt (Int now) (resetTime s) = false /\
            ge (Int (count s)) maxRequests = true.
Proof.
  unfold verdict. destruct st as [s|]; [|discriminate].
  destruct (gt (Int now) (resetTime s)) eqn:Hgt; [discriminate|].
  destruct (ge (Int (count s)) maxRequests) eqn:Hge; [|discriminate].
  intros _. exists s. by rewrite Hgt, Hge.
Qed.

Lemma shaped_denial (r : RateLimitResult) (n : nat) (w w' : World) :
  (ticks w < n < ticks w')%nat -> remaining r = Int 0 ->
  shaped E w w' (withRetryAfter {| allowed := false; remaining := remaining r;
                                r_resetTime := r_resetTime r;
                                retryAfter := retryAfter r |}
                (ceilSeconds (minus (r_resetTime r) (Int (clock E n))))).
Proof.
  intros Hn Hr. unfold shaped. cbn -[ceilSeconds minus]. split; [exact Hr|].
  eexists _, n.
  split; [reflexivity|]. split; [exact Hn|]. apply retryFor_ceil.
Qed.

(** The shape of a verdict, and what a denial leaves behind. *)
Lemma limiter_verdict_shape (userId ip connectionId messageType : string)
    (w w' : World) (r : RateLimitResult) :
  checkConnectionRateLimit E lim userId ip w = (Normal r, w') \/
  checkMessageRateLimit E lim connectionId messageType w = (Normal r, w') ->
  shaped E w w' r /\
  (allowed r = false -> sameStores w w').
Proof.
  intros [Hrun|Hrun].
  - unfold checkConnectionRateLimit, bind in Hrun. rewrite checkRateLimit_run in Hrun.
    destruct (stored E lim w _) as [stU|e]; [|discriminate].
    match type of Hrun with context [allowed ?v] => remember v as vU eqn:HvU end.
    destruct (allowed vU) eqn:HaU; cbn [negb] in Hrun.
    + rewrite checkRateLimit_run in Hrun.
      destruct (stored E lim _ _) as [stI|e]; [|discriminate].
      match type of Hrun with
      | context [negb (allowed ?v)] => remember v as vI eqn:HvI
      end.
      destruct (allowed vI) eqn:HaI; cbn [negb] in Hrun.
      * destruct (incrementCounter E lim _ _ _) as [[[]|e] wu]; [|discriminate].
        destruct (incrementCounter E lim _ _ _) as [[[]|e] wi]; [|discriminate].
        injection Hrun as <- <-. split; [reflexivity|discriminate].
      * rewrite denyWithRetryAfter_run in Hrun. injection Hrun as <- <-.
        rewrite HvI in HaI.
        destruct (verdict_denied _ _ _ _ HaI) as (s & _ & Hs & _).
        rewrite <- HvI in Hs. rewrite Hs.
        split; [|by split].
        apply (shaped_denial (exhausted s) (S (S (ticks w)))); cbn; [lia|reflexivity].
    + rewrite denyWithRetryAfter_run in Hrun. injection Hrun as <- <-.
      rewrite HvU in HaU.
      destruct (verdict_denied _ _ _ _ HaU) as (s & _ & Hs & _).
      rewrite <- HvU in Hs. rewrite Hs.
      split; [|by split].
      apply (shaped_denial (exhausted s) (S (ticks w))); cbn; [lia|reflexivity].
  - unfold checkMessageRateLimit, bind in Hrun. rewrite checkRateLimit_run in Hrun.
    destruct (stored E lim w _) as [st|e]; [|discriminate].
    match type of Hrun with context [allowed ?v] => remember v as vM eqn:HvM end.
    destruct (allowed vM) eqn:Ha; cbn [negb] in Hrun.
    + destruct (incrementCounter E lim _ _ _) as [[[]|e] wu]; [|discriminate].
      injection Hrun as <- <-. split; [reflexivity|discriminate].
    + rewrite denyWithRetryAfter_run in Hrun. injection Hrun as <- <-.
      rewrite HvM in Ha.
      destruct (verdict_denied _ _ _ _ Ha) as (s & _ & Hs & _).
      rewrite <- HvM in Hs. rewrite Hs.
      split; [|by split].
      apply (shaped_denial (exhausted s) (S (ticks w))); cbn; [lia|reflexivity].
Qed.

(** X9. Whichever store is in use, a verdict of a connection or message
    check carries [retryAfter] exactly when it is negative; a negative
    verdict has nothing remaining, its [retryAfter] is the number of whole
    seconds covering the time from a clock reading the call took after its
    first one to [resetTime] (not a number when the [resetTime] is none),
    and the check that produced it wrote to neither store. *)
Theorem denial_shape (userId ip connectionId messageType : string)
    (w w' : World) (r : RateLimitResult) :
  checkConnectionRateLimit E lim userId ip w = (Normal r, w') \/
  checkMessageRateLimit E lim connectionId messageType w = (Normal r, w') ->
  shaped E w w' r /\
  (allowed r = false -> sameStores w w').
Proof. apply limiter_verdict_shape. Qed.

End EitherStore.

Lemma connection_quota_reach_witness :
  Spec.sameAt (WebSocketRateLimiter.getConnectionKey WebSocketRateLimiter.user_key "bob")
    Examples.emptyWorld
    (snd (WebSocketRateLimiter.checkConnectionRateLimit Examples.env Examples.limiter
            "alice" "10.0.0.1" Examples.emptyWorld)).
Proof.
  refine (proj1 (proj1 (connection_quota_reach Examples.env Examples.limiter
                          "alice" "10.0.0.1" "bob" "10.0.0.2" "c1" "chat"
                          Examples.emptyWorld _ _))); discriminate.
Defined.

Lemma denial_shape_witness :
  exists r w',
    WebSocketRateLimiter.checkMessageRateLimit Examples.env Examples.limiter "c1" "chat"
      (Examples.worldWith
         {[WebSocketRateLimiter.getMessageKey "c1" "chat"
             := {| count := 1000; resetTime := Int 2500 |}]})
      = (Normal r, w') /\
    allowed r = false /\ retryAfter r = Some (Int 3) /\ Props.shaped Examples.env
      (Examples.worldWith
         {[WebSocketRateLimiter.getMessageKey "c1" "chat"
             := {| count := 1000; resetTime := Int 2500 |}]}) w' r.
Proof.
  eexists _, _. split; [vm_compute; reflexivity|].
  split; [reflexivity|]. split; [reflexivity|].
  refine (proj1 (denial_shape Examples.env Examples.limiter "u" "ip" "c1" "chat"
                   _ _ _ (or_intror _))).
  vm_compute. reflexivity.
Defined.

(** ** Release and recovery on the in-process store *)

Section ReleaseAndRecovery.

Import WebSocketRateLimiter Spec Props.

Variable E : Env.
Variable lim : t.
Hypothesis in_process : redis lim = false.

Lemma decrementMemory_lookup (key k : string) (w : World) :
  memoryStorage (snd (decrementMemory key w)) !! k
    = if decide (k = key) then
        match memoryStorage w !! key with
        | Some s => Some (if count s >? 0 then unbump s else s)
        | None => None
        end
      else memoryStorage w !! k.
Proof.
  rewrite decrementMemory_store. cbn [snd].
  destruct (decide (k = key)) as [->|Hne].
  - destruct (memoryStorage w !! key) as [s|] eqn:Hs; [|exact Hs].
    destruct (count s >? 0); [|exact Hs]. cbn. by rewrite lookup_insert_eq.
  - destruct (memoryStorage w !! key) as [s|]; [|reflexivity].
    destruct (count s >? 0); [|reflexivity]. cbn.
    by rewrite lookup_insert_ne by congruence.
Qed.

Lemma decrementConnectionCounter_lookup (userId ip k : string) (w : World) :
  let userKey := getConnectionKey user_key userId in
  let ipKey := getConnectionKey ip_key ip in
  memoryStorage (snd (decrementConnectionCounter lim userId ip w)) !! k
    = if decide (k = userKey) then
        match memoryStorage w !! userKey with
        | Some s => Some (if count s >? 0 then unbump s else s)
        | None => None
        end
      else if decide (k = ipKey) then
        match memoryStorage w !! ipKey with
        | Some s => Some (if count s >? 0 then unbump s else s)
        | None => None
        end
      else memoryStorage w !! k.
Proof.
  intros userKey ipKey. unfold decrementConnectionCounter, bind.
  rewrite in_process. fold userKey ipKey.
  assert (Hd : decrementMemory userKey w
               = (Normal tt, snd (decrementMemory userKey w)))
    by (rewrite decrementMemory_store; reflexivity).
  rewrite Hd. cbv beta iota.
  assert (Hne : ipKey <> userKey)
    by (intros H; symmetry in H; revert H; apply connection_keys_differ).
  rewrite decrementMemory_lookup.
  destruct (decide (k = ipKey)) as [->|Hi].
  - rewrite (decide_False (P := ipKey = userKey)) by exact Hne.
    rewrite decrementMemory_lookup.
    by rewrite (decide_False (P := ipKey = userKey)) by exact Hne.
  - rewrite decrementMemory_lookup. reflexivity.
Qed.

Lemma unbump_incrementedState (key : string) (windowMs : Num) (w : World) :
  nonNegative (memoryStorage w) ->
  (count (incrementedState E key windowMs w) >? 0) = true /\
  count (unbump (incrementedState E key windowMs w))
    = countInEffect (memoryStorage w !! key) (clock E (S (ticks w))).
Proof.
  intros Hm. unfold incrementedState, countInEffect.
  destruct (memoryStorage w !! key) as [s|] eqn:Hs; [|by split].
  destruct (gt _ (resetTime s)); [by split|].
  pose proof (Hm key s Hs). cbn. split; [|lia].
  apply Z.gtb_lt. lia.
Qed.

(** A release after an admission, for any world that holds the store the
    admission left. *)
Lemma release_after_admission (userId ip : string) (w granted : World)
    (r : RateLimitResult) :
  let userKey := getConnectionKey user_key userId in
  let ipKey := getConnectionKey ip_key ip in
  let released := snd (decrementConnectionCounter lim userId ip granted) in
  nonNegative (memoryStorage w) ->
  fst (checkConnectionRateLimit E lim userId ip w) = Normal r ->
  allowed r = true ->
  memoryStorage granted
    = memoryStorage (snd (checkConnectionRateLimit E lim userId ip w)) ->
  (exists su n, memoryStorage released !! userKey = Some su /\
                (ticks w < n <= ticks (snd (checkConnectionRateLimit E lim userId ip w)))%nat /\
                count su = countInEffect (memoryStorage w !! userKey) (clock E n)) /\
  (exists si n, memoryStorage released !! ipKey = Some si /\
                (ticks w < n <= ticks (snd (checkConnectionRateLimit E lim userId ip w)))%nat /\
                count si = countInEffect (memoryStorage w !! ipKey) (clock E n)) /\
  (forall k, k <> userKey -> k <> ipKey ->
             memoryStorage released !! k = memoryStorage w !! k).
Proof.
  intros userKey ipKey released Hm Hrun Hallowed Hgranted.
  assert (Hne : ipKey <> userKey)
    by (intros H; symmetry in H; revert H; apply connection_keys_differ).
  pose proof (checkConnectionRateLimit_memory E lim in_process userId ip w) as Hcf.
  cbv zeta in Hcf. fold userKey ipKey in Hcf.
  set (W := Int (connWindowMs (connectionConfig lim))) in *.
  set (w0 := set_ticks (S (S (ticks w))) w) in *.
  set (wu := snd (incrementCounter E lim userKey W w0)) in *.
  assert (Hadm : snd (checkConnectionRateLimit E lim userId ip w)
                 = snd (incrementCounter E lim ipKey W wu)).
  { rewrite Hcf in Hrun |- *.
    destruct (allowed (verdict (memoryStorage w !! userKey) _ _ _)) eqn:HaU.
    - destruct (allowed (verdict (memoryStorage w !! ipKey) _ _ _)) eqn:HaI;
        [reflexivity|].
      cbn [fst] in Hrun. injection Hrun as <-.
      unfold withRetryAfter in Hallowed. cbn [allowed] in Hallowed. congruence.
    - cbn [fst] in Hrun. injection Hrun as <-.
      unfold withRetryAfter in Hallowed. cbn [allowed] in Hallowed. congruence. }
  assert (Hwu : memoryStorage wu = <[userKey := incrementedState E userKey W w0]>
                                     (memoryStorage w))
    by (unfold wu; by rewrite incrementCounter_store).
  assert (Hwi : memoryStorage granted
                = <[ipKey := incrementedState E ipKey W wu]> (memoryStorage wu))
    by (rewrite Hgranted, Hadm; by rewrite incrementCounter_store).
  assert (Hmu : nonNegative (memoryStorage wu))
    by (unfold wu; by apply nonNegative_increment).
  destruct (unbump_incrementedState userKey W w0 Hm) as [Hpu Hcu].
  destruct (unbump_incrementedState ipKey W wu Hmu) as [Hpi Hci].
  pose proof (incrementCounter_ticks E lim in_process userKey W w0) as Htu.
  fold wu in Htu.
  pose proof (incrementCounter_ticks E lim in_process ipKey W wu) as Hti.
  rewrite Hadm. cbn [ticks set_ticks w0] in Htu.
  assert (Ht0 : ticks w0 = S (S (ticks w))) by reflexivity.
  split; [|split].
  - exists (unbump (incrementedState E userKey W w0)), (S (ticks w0)).
    split; [|split; [lia|exact Hcu]].
    unfold released. rewrite decrementConnectionCounter_lookup.
    rewrite decide_True by reflexivity. fold userKey.
    rewrite Hwi, lookup_insert_ne by exact Hne.
    rewrite Hwu, lookup_insert_eq. by rewrite Hpu.
  - exists (unbump (incrementedState E ipKey W wu)), (S (ticks wu)).
    split; [|split; [lia|]].
    + unfold released. rewrite decrementConnectionCounter_lookup.
      fold userKey ipKey. rewrite decide_False by exact Hne.
      rewrite decide_True by reflexivity.
      rewrite Hwi, lookup_insert_eq. by rewrite Hpi.
    + rewrite Hci, Hwu. by rewrite lookup_insert_ne by congruence.
  - intros k Hku Hki. unfold released. rewrite decrementConnectionCounter_lookup.
    fold userKey ipKey.
    rewrite decide_False by exact Hku. rewrite decide_False by exact Hki.
    rewrite Hwi, lookup_insert_ne by congruence.
    rewrite Hwu. by rewrite lookup_insert_ne by congruence.
Qed.

(** X10. On the in-process store a release gives back exactly the slot an
    admission took: after a positive connection check followed by the
    release for the same user and address, each of the two counters stands
    at the count that was in effect (zero for an absent or expired entry)
    at a clock reading of the admission, after its first one, and no other
    entry has changed. *)
Theorem release_returns_the_slot (userId ip : string) (w : World) (r : RateLimitResult) :
  let userKey := getConnectionKey user_key userId in
  let ipKey := getConnectionKey ip_key ip in
  let granted := snd (checkConnectionRateLimit E lim userId ip w) in
  let released := snd (decrementConnectionCounter lim userId ip granted) in
  nonNegative (memoryStorage w) ->
  fst (checkConnectionRateLimit E lim userId ip w) = Normal r ->
  allowed r = true ->
  (exists su n, memoryStorage released !! userKey = Some su /\
                (ticks w < n <= ticks granted)%nat /\
                count su = countInEffect (memoryStorage w !! userKey) (clock E n)) /\
  (exists si n, memoryStorage released !! ipKey = Some si /\
                (ticks w < n <= ticks granted)%nat /\
                count si = countInEffect (memoryStorage w !! ipKey) (clock E n)) /\
  (forall k, k <> userKey -> k <> ipKey ->
             memoryStorage released !! k = memoryStorage w !! k).
Proof.
  intros userKey ipKey granted released Hm Hrun Hallowed.
  by apply (release_after_admission userId ip w granted r).
Qed.

(** X11. On the in-process store a denial lasts exactly as long as the
    window: while the entry of a denied connection and message type is left
    as it is, the next check is positive if and only if the clock has moved
    strictly past the [resetTime] of the denial; a check made at [resetTime]
    itself is still denied, and a denial whose [resetTime] is no number
    never ends. *)
Theorem denial_ends_with_the_window (connectionId messageType : string)
    (w later : World) (r : RateLimitResult) :
  let key := getMessageKey connectionId messageType in
  fst (checkMessageRateLimit E lim connectionId messageType w) = Normal r ->
  allowed r = false ->
  memoryStorage later !! key = memoryStorage w !! key ->
  exists r',
    fst (checkMessageRateLimit E lim connectionId messageType later) = Normal r' /\
    (allowed r' = true <-> gt (Int (clock E (ticks later))) (r_resetTime r) = true).
Proof.
  intros key Hrun Hdenied Hsame.
  pose proof (checkMessageRateLimit_memory E lim in_process connectionId messageType w)
    as Hw.
  pose proof (checkMessageRateLimit_memory E lim in_process connectionId messageType later)
    as Hl.
  cbv zeta in Hw, Hl. fold key in Hw, Hl. rewrite Hsame in Hl.
  rewrite Hw in Hrun. rewrite Hl. clear Hw Hl.
  set (N := lc_maxRequests (limitConfigFor lim messageType)) in *.
  set (W := lc_windowMs (limitConfigFor lim messageType)) in *.
  destruct (allowed (verdict (memoryStorage w !! key) N (clock E (ticks w)) W)) eqn:Ha.
  { cbn in Hrun. injection Hrun as <-. discriminate. }
  destruct (verdict_denied _ _ _ _ Ha) as (s & Hs & Hv & Hnow & Hfull).
  cbn [fst] in Hrun. injection Hrun as <-. rewrite Hv. cbn [r_resetTime withRetryAfter exhausted].
  rewrite Hs. unfold verdict.
  destruct (gt (Int (clock E (ticks later))) (resetTime s)) eqn:Hpast.
  - eexists. split; [reflexivity|]. by split.
  - rewrite Hfull. eexists. split; [reflexivity|]. by split.
Qed.

End ReleaseAndRecovery.

Lemma release_returns_the_slot_witness :
  exists su,
    memoryStorage
      (snd (WebSocketRateLimiter.decrementConnectionCounter Examples.limiter
              "u1" "10.0.0.1"
              (snd (WebSocketRateLimiter.checkConnectionRateLimit Examples.env
                      Examples.limiter "u1" "10.0.0.1" Examples.emptyWorld))))
      !! WebSocketRateLimiter.getConnectionKey WebSocketRateLimiter.user_key "u1"
      = Some su /\ count su = 0.
Proof.
  destruct (release_returns_the_slot Examples.env Examples.limiter eq_refl
              "u1" "10.0.0.1" Examples.emptyWorld
              {| allowed := true; remaining := Int 4; r_resetTime := Int 60000;
                 retryAfter := None |})
    as [(su & n & Hsu & _ & Hcount) _].
  - intros k s Hk. cbn in Hk. by rewrite lookup_empty in Hk.
  - vm_compute. reflexivity.
  - reflexivity.
  - exists su. split; [exact Hsu|]. rewrite Hcount. reflexivity.
Defined.

Lemma denial_ends_with_the_window_witness :
  exists r',
    fst (WebSocketRateLimiter.checkMessageRateLimit Examples.lateEnv Examples.limiter
           "c1" "chat"
           (Examples.worldWith
              {[WebSocketRateLimiter.getMessageKey "c1" "chat"
                  := {| count := 1000; resetTime := Int 200 |}]}))
      = Normal r' /\
    (allowed r' = true <-> gt (Int 200) (Int 200) = true).
Proof.
  refine (denial_ends_with_the_window Examples.lateEnv Examples.limiter eq_refl
            "c1" "chat"
            (Examples.worldWith
               {[WebSocketRateLimiter.getMessageKey "c1" "chat"
                   := {| count := 1000; resetTime := Int 200 |}]})
            (Examples.worldWith
               {[WebSocketRateLimiter.getMessageKey "c1" "chat"
                   := {| count := 1000; resetTime := Int 200 |}]})
            {| allowed := false; remaining := Int 0; r_resetTime := Int 200;
               retryAfter := Some (Int 0) |} _ _ _).
  - vm_compute. reflexivity.
  - reflexivity.
  - reflexivity.
Defined.

(** ** The limiter on the external store *)

Section ExternalStore.

Import WebSocketRateLimiter Spec Props.

Variable E : Env.
Variable lim : t.
Hypothesis external : redis lim = true.
Variable key : string.
Variables N W : Z.

Lemma stored_external (w : World) (s : RateLimitState) :
  roundTrips E s -> holds E lim w key s -> stored E lim w key = Normal (Some s).
Proof.
  intros [Ht Hp]. unfold holds, stored. rewrite external.
  destruct (redisStorage w !! key) as [item|]; [|discriminate].
  cbn. intros Hv. injection Hv as Hv. unfold decode. by rewrite Hv, Ht, Hp.
Qed.

Lemma attempt_expired (w : World) (s : RateLimitState) :
  roundTrips E s -> holds E lim w key s ->
  gt (Int (clock E (ticks w))) (resetTime s) = true ->
  exists w',
    attempt E lim key N W w = (Normal true, w') /\
    holds E lim w' key (bump s) /\
    (ticks w < ticks w')%nat.
Proof.
  intros Hrt Hholds Hexpired.
  pose proof (stored_external w s Hrt Hholds) as Hst.
  unfold attempt, bind. rewrite checkRateLimit_run, Hst.
  unfold verdict. rewrite Hexpired.
  cbn [allowed freshQuota].
  rewrite incrementCounter_redis by exact external.
  change (stored E lim (set_ticks (S (ticks w)) w) key) with (stored E lim w key).
  rewrite Hst. eexists. split; [reflexivity|].
  split; [|cbn; lia].
  unfold holds. rewrite external. cbn. by rewrite lookup_insert_eq.
Qed.

Lemma attempts_expired (T : Z) (interleaved : list (World -> World)) :
  (forall n, T < clock E n) ->
  Forall (keepsItem key) interleaved ->
  forall (c : Z) (w : World),
    (forall j, (j <= length interleaved)%nat ->
               roundTrips E {| count := c + Z.of_nat j; resetTime := Int T |}) ->
    holds E lim w key {| count := c; resetTime := Int T |} ->
    exists w',
      attempts E lim key N W interleaved w = (repeat true (length interleaved), w') /\
      holds E lim w' key {| count := c + Z.of_nat (length interleaved); resetTime := Int T |}.
Proof.
  intros Hclock Hkeep. induction Hkeep as [|other rest Hother _ IH];
    intros c w Hrt Hholds.
  - exists w. split; [reflexivity|]. cbn. by rewrite Z.add_0_r.
  - assert (Hholds' : holds E lim (other w) key {| count := c; resetTime := Int T |}).
    { unfold holds in *. rewrite external in *. by rewrite Hother. }
    assert (Hrt0 : roundTrips E {| count := c; resetTime := Int T |}).
    { specialize (Hrt 0%nat ltac:(cbn; lia)). by rewrite Z.add_0_r in Hrt. }
    destruct (attempt_expired (other w) _ Hrt0 Hholds') as (w1 & Hrun & Hheld & _).
    { cbn. apply Z.gtb_lt, Hclock. }
    destruct (IH (c + 1) w1) as (w' & Hrest & Hfinal).
    + intros j Hj. specialize (Hrt (S j) ltac:(cbn; lia)).
      by replace (c + 1 + Z.of_nat j) with (c + Z.of_nat (S j)) by lia.
    + exact Hheld.
    + exists w'. split.
      * cbn [attempts]. rewrite Hrun, Hrest. reflexivity.
      * by replace (c + Z.of_nat (length (other :: rest)))
          with (c + 1 + Z.of_nat (length rest)) by (cbn [length]; lia).
Qed.

(** X12. On the external store a window that has run out is never
    replaced: while the entry stays in the store, every attempt on its key
    is let through whatever the quota, and each adds one to the old count
    under the old [resetTime]. *)
Theorem external_window_never_restarts
    (T c : Z) (interleaved : list (World -> World)) (w : World) :
  (forall n, T < clock E n) ->
  Forall (keepsItem key) interleaved ->
  (forall j, (j <= length interleaved)%nat ->
             roundTrips E {| count := c + Z.of_nat j; resetTime := Int T |}) ->
  holds E lim w key {| count := c; resetTime := Int T |} ->
  exists w',
    attempts E lim key N W interleaved w = (repeat true (length interleaved), w') /\
    holds E lim w' key {| count := c + Z.of_nat (length interleaved); resetTime := Int T |}.
Proof.
  intros Hclock Hkeep Hrt Hholds. by apply attempts_expired.
Qed.

End ExternalStore.

Lemma external_window_never_restarts_witness :
  exists w',
    Spec.attempts Examples.redisEnv Examples.redisLimiter "k" 1 1000 [id; id]
      (Examples.redisWorldWith "k" {| count := 5; resetTime := Int 100 |})
      = ([true; true], w') /\
    Spec.holds Examples.redisEnv Examples.redisLimiter w' "k"
      {| count := 7; resetTime := Int 100 |}.
Proof.
  refine (external_window_never_restarts Examples.redisEnv Examples.redisLimiter
            eq_refl "k" 1 1000 100 5 [id; id]
            (Examples.redisWorldWith "k" {| count := 5; resetTime := Int 100 |})
            _ _ _ _).
  - intros n. cbn. lia.
  - repeat constructor.
  - intros j Hj. destruct j as [|[|[|j]]]; [split; vm_compute; reflexivity..|].
    cbn in Hj. lia.
  - vm_compute. reflexivity.
Defined.

(** ** Traces of the gateway stages *)

Section StageTraces.

Import WebSocketSecurityMiddleware Spec Props.

Variable E : Env.
Variable g : t.

Lemma audited_nil : audited (config g) [] [].
Proof. unfold audited. by destruct (enableLogging (config g)). Qed.

Lemma audited_app (l1 l2 : list LogRecord) (t1 t2 : list SecurityEventType) :
  audited (config g) l1 t1 -> audited (config g) l2 t2 ->
  audited (config g) (l1 ++ l2) (t1 ++ t2).
Proof.
  unfold audited, blockedEvents. destruct (enableLogging (config g)).
  - intros <- <-. by rewrite omap_app, map_app.
  - by intros -> ->.
Qed.

Lemma logSecurityEvent_trace (e : SecurityAuditLog) (w : World) :
  exists w' l,
    logSecurityEvent g e w = (Normal tt, w') /\
    logged w' = logged w ++ l /\
    audited (config g) l (if blocked e then [event e] else []) /\
    ticks w' = ticks w /\ draws w' = draws w /\ calls w' = calls w /\
    memoryStorage w' = memoryStorage w /\ redisStorage w' = redisStorage w /\
    connectionContexts w' = connectionContexts w.
Proof.
  unfold logSecurityEvent, logger_log, ret, audited, blockedEvents.
  destruct (enableLogging (config g)).
  - eexists _, [LogEvent e]. split; [reflexivity|]. split; [reflexivity|].
    split; [|by repeat split]. cbn. by destruct (blocked e).
  - eexists _, []. split; [reflexivity|]. split; [by rewrite app_nil_r|].
    by repeat split.
Qed.

Lemma generateConnectionId_run (w : World) :
  generateConnectionId E w
    = (Normal (connectionIdAt E (ticks w) (draws w)),
       set_draws (S (draws w)) (set_ticks (S (ticks w)) w)).
Proof. reflexivity. Qed.

Lemma validateOrigin_trace (request : WebSocketUpgradeRequest) (w : World) :
  exists w' l,
    validateOrigin E g request w
      = (Normal (originVerdict (allowedOrigins (config g)) (extractOrigin request)), w') /\
    logged w' = logged w ++ l /\
    audited (config g) l
      (if valid (originVerdict (allowedOrigins (config g)) (extractOrigin request))
       then [] else [ORIGIN_VALIDATION_FAILED]) /\
    advances w w' /\ calls w' = calls w /\
    memoryStorage w' = memoryStorage w /\ redisStorage w' = redisStorage w /\
    connectionContexts w' = connectionContexts w.
Proof.
  assert (Hwarn : forall m meta,
    exists w' l,
      (let* _ := if enableLogging (config g) then logger_warn m meta else ret tt in
       ret {| valid := true; v_error := None; v_code := None |}) w
        = (Normal originAccepted, w') /\
      logged w' = logged w ++ l /\ audited (config g) l [] /\
      advances w w' /\ calls w' = calls w /\
      memoryStorage w' = memoryStorage w /\ redisStorage w' = redisStorage w /\
      connectionContexts w' = connectionContexts w).
  { intros m meta. unfold bind, ret, logger_warn, audited.
    destruct (enableLogging (config g)).
    - eexists _, [LogWarn m meta]. split; [reflexivity|]. by repeat split.
    - eexists _, []. split; [reflexivity|]. split; [by rewrite app_nil_r|].
      by repeat split. }
  unfold validateOrigin, originVerdict.
  destruct (extractOrigin request) as [o|]; [|apply Hwarn].
  destruct (truthy o); cbn [negb]; [|apply Hwarn].
  destruct (existsb _ _); cbn [negb];
    unfold bind; cbn [Date_now]; rewrite generateConnectionId_run;
    match goal with
    | |- context [logSecurityEvent g ?e ?w0] =>
        destruct (logSecurityEvent_trace e w0)
          as (w' & l & -> & Hl & Ha & Ht & Hd & Hc & Hm & Hr & Hx)
    end; cbn in Hl, Ha, Ht, Hd, Hc, Hm, Hr, Hx;
    exists w', l; (split; [reflexivity|]); (split; [exact Hl|]);
    (split; [exact Ha|]); (split; [split; lia|]); by repeat split.
Qed.

Lemma handler_authenticate_trace (request : WebSocketUpgradeRequest) (w : World) :
  exists result w',
    WebSocketAuthHandler.authenticate E (authHandler g) request w = (Normal result, w') /\
    logged w' = logged w /\ ticks w' = ticks w /\ (draws w <= draws w')%nat /\
    memoryStorage w' = memoryStorage w /\ redisStorage w' = redisStorage w /\
    connectionContexts w' = connectionContexts w /\
    (success result = true -> exists u, user result = Some u) /\
    (success result = false ->
       a_code result = Some 401 /\ exists message, a_error result = Some message).
Proof.
  unfold WebSocketAuthHandler.authenticate, bind, liftC.
  destruct (extractTokenFromUrl_never_throws E request) as [parsed ->].
  destruct parsed as [parsed|].
  - unfold WebSocketAuthHandler.verifyToken, tryCatch, bind, spy, liftC, ret. cbn.
    destruct (jwtVerify E _ _ _) as [payload|e].
    + unfold WebSocketAuthHandler.extractUserFromPayload, bind, ret, crypto_randomUUID.
      destruct (sub payload), (p_email payload);
        [destruct (sid payload) as [sid0|]; [destruct (truthy sid0)|]|..];
        eexists _, _; (split; [reflexivity|]); cbn;
        repeat apply conj;
        first [reflexivity | lia | discriminate | by eexists
              | intros _; split; [reflexivity|by eexists]].
    + destruct e as [name message|];
        [destruct (String.eqb name "JWTExpired");
           [|destruct (String.eqb name "JWTInvalid")]|];
        eexists _, _; (split; [reflexivity|]); cbn;
        repeat apply conj;
        first [reflexivity | lia | discriminate
              | intros _; split; [reflexivity|by eexists]].
  - eexists _, _. split; [reflexivity|]. cbn.
    repeat apply conj;
      first [reflexivity | lia | discriminate
            | intros _; split; [reflexivity|by eexists]].
Qed.

Lemma authenticate_trace (request : WebSocketUpgradeRequest) (w : World) :
  exists result w' l,
    authenticate E g request w = (Normal result, w') /\
    logged w' = logged w ++ l /\
    audited (config g) l (if success result then [] else [AUTHENTICATION_FAILED]) /\
    (ticks w < ticks w')%nat /\ (draws w < draws w')%nat /\
    memoryStorage w' = memoryStorage w /\ redisStorage w' = redisStorage w /\
    (success result = false ->
       connectionContexts w' = connectionContexts w /\ a_code result = Some 401 /\
       exists message, a_error result = Some message) /\
    (success result = true ->
       exists u ctx,
         user result = Some u /\ ctx_user ctx = Some u /\
         ctx_ip ctx = extractIp request /\ messageCount ctx = 0 /\
         connectionId ctx = connectionIdAt E (ticks w) (draws w) /\
         connectionContexts w' = <[connectionId ctx := ctx]> (connectionContexts w)).
Proof.
  unfold authenticate, bind. rewrite generateConnectionId_run.
  unfold spy.
  match goal with
  | |- context [WebSocketAuthHandler.authenticate E ?h ?r ?w0] =>
      destruct (handler_authenticate_trace r w0)
        as (result & w1 & -> & Hl1 & Ht1 & Hd1 & Hm1 & Hr1 & Hx1 & Hs & Hf)
  end.
  cbn in Hl1, Ht1, Hd1, Hm1, Hr1, Hx1.
  destruct (success result) eqn:Hsucc; cbn [negb].
  - destruct (Hs eq_refl) as [u Hu].
    unfold Date_now, setContext.
    match goal with
    | |- context [logSecurityEvent g ?e ?w0] =>
        destruct (logSecurityEvent_trace e w0)
          as (w' & l & -> & Hl & Ha & Ht & Hd & Hc & Hm & Hr & Hx)
    end.
    cbn in Hl, Ha, Ht, Hd, Hc, Hm, Hr, Hx.
    exists result, w', l. split; [reflexivity|].
    split; [congruence|]. split; [rewrite Hsucc; exact Ha|].
    split; [lia|]. split; [lia|]. split; [congruence|]. split; [congruence|].
    split; [intros; congruence|]. intros _. rewrite Hx, Hx1.
    match goal with
    | |- context [<[_ := ?c]> (connectionContexts w)] => exists u, c
    end.
    repeat apply conj; first [exact Hu | reflexivity].
  - unfold Date_now.
    match goal with
    | |- context [logSecurityEvent g ?e ?w0] =>
        destruct (logSecurityEvent_trace e w0)
          as (w' & l & -> & Hl & Ha & Ht & Hd & Hc & Hm & Hr & Hx)
    end.
    cbn in Hl, Ha, Ht, Hd, Hc, Hm, Hr, Hx.
    exists result, w', l. split; [reflexivity|].
    split; [congruence|]. split; [rewrite Hsucc; exact Ha|].
    split; [lia|]. split; [lia|]. split; [congruence|]. split; [congruence|].
    split; [|intros; congruence].
    intros _. split; [congruence|]. by apply Hf.
Qed.

End StageTraces.

(** ** Trace of the security check *)

Section CheckTrace.

Import WebSocketSecurityMiddleware Spec Props.

Variable E : Env.
Variable g : t.

Lemma incrementCounter_ticks_le (lim : WebSocketRateLimiter.t) (key : string)
    (windowMs : Num) (w : World) :
  (ticks w <= ticks (snd (WebSocketRateLimiter.incrementCounter E lim key windowMs w)))%nat.
Proof.
  destruct (WebSocketRateLimiter.redis lim) eqn:Hredis.
  - rewrite incrementCounter_redis by assumption.
    destruct (stored E lim w key); cbn; lia.
  - rewrite incrementCounter_memory by assumption.
    destruct (memoryStorage w !! key); cbn; lia.
Qed.

Lemma limiter_connection_ticks (lim : WebSocketRateLimiter.t) (userId ip : string)
    (w : World) :
  (ticks w <= ticks (snd (WebSocketRateLimiter.checkConnectionRateLimit E lim userId ip w)))%nat.
Proof.
  unfold WebSocketRateLimiter.checkConnectionRateLimit, bind.
  rewrite checkRateLimit_run.
  destruct (stored E lim w _) as [stU|e]; [|cbn; lia].
  destruct (allowed (verdict stU _ _ _)); cbn [negb]; [|cbn; lia].
  rewrite checkRateLimit_run.
  destruct (stored E lim _ _) as [stI|e]; [|cbn; lia].
  destruct (allowed (verdict stI _ _ _)); cbn [negb]; [|cbn; lia].
  match goal with
  | |- context [WebSocketRateLimiter.incrementCounter E lim ?key ?W ?w0] =>
      pose proof (incrementCounter_ticks_le lim key W w0) as Hu;
      destruct (WebSocketRateLimiter.incrementCounter E lim key W w0) as [[[]|e] wu]
  end; cbn [snd] in *; [|cbn in Hu; lia].
  match goal with
  | |- context [WebSocketRateLimiter.incrementCounter E lim ?key ?W ?w0] =>
      pose proof (incrementCounter_ticks_le lim key W w0) as Hi;
      destruct (WebSocketRateLimiter.incrementCounter E lim key W w0) as [[[]|e] wi]
  end; unfold ret; cbn [snd] in *; cbn in Hu; lia.
Qed.

Lemma stored_throws (lim : WebSocketRateLimiter.t) (key : string) (w : World)
    (e : Thrown) :
  stored E lim w key = Throw e -> e = syntaxError.
Proof.
  unfold stored, decode. destruct (WebSocketRateLimiter.redis lim); [|discriminate].
  destruct (redisStorage w !! key) as [item|]; [|discriminate].
  destruct (truthy (value item)); [|discriminate].
  destruct (JSON_parse E (value item)); [discriminate|]. by intros [= <-].
Qed.

Lemma incrementCounter_throws (lim : WebSocketRateLimiter.t) (key : string)
    (windowMs : Num) (w : World) (e : Thrown) :
  fst (WebSocketRateLimiter.incrementCounter E lim key windowMs w) = Throw e ->
  e = syntaxError.
Proof.
  destruct (WebSocketRateLimiter.redis lim) eqn:Hredis.
  - rewrite incrementCounter_redis by assumption.
    destruct (stored E lim w key) as [st|e'] eqn:Hst; [discriminate|].
    cbn. intros H. injection H as H. rewrite <- H. exact (stored_throws _ _ _ _ Hst).
  - by rewrite incrementCounter_in_process.
Qed.

Lemma limiter_connection_throws (lim : WebSocketRateLimiter.t) (userId ip : string)
    (w : World) (e : Thrown) :
  fst (WebSocketRateLimiter.checkConnectionRateLimit E lim userId ip w) = Throw e ->
  e = syntaxError.
Proof.
  unfold WebSocketRateLimiter.checkConnectionRateLimit, bind.
  rewrite checkRateLimit_run.
  destruct (stored E lim w _) as [stU|e'] eqn:HstU;
    [|cbn; intros H; injection H as H; rewrite <- H; exact (stored_throws _ _ _ _ HstU)].
  destruct (allowed (verdict stU _ _ _)); cbn [negb]; [|discriminate].
  rewrite checkRateLimit_run.
  match goal with
  | |- context [stored E lim ?w0 ?k] =>
      destruct (stored E lim w0 k) as [stI|e'] eqn:HstI
  end; [|cbn; intros H; injection H as H; rewrite <- H;
         exact (stored_throws _ _ _ _ HstI)].
  destruct (allowed (verdict stI _ _ _)); cbn [negb]; [|discriminate].
  match goal with
  | |- context [WebSocketRateLimiter.incrementCounter E lim ?key ?W ?w0] =>
      pose proof (incrementCounter_throws lim key W w0) as Hu;
      destruct (WebSocketRateLimiter.incrementCounter E lim key W w0) as [[[]|e'] wu]
  end; cbn [fst] in *; [|intros H; injection H as H; rewrite <- H; by apply Hu].
  match goal with
  | |- context [WebSocketRateLimiter.incrementCounter E lim ?key ?W ?w0] =>
      pose proof (incrementCounter_throws lim key W w0) as Hi;
      destruct (WebSocketRateLimiter.incrementCounter E lim key W w0) as [[[]|e'] wi]
  end; cbn [fst] in *; [discriminate|intros H; injection H as H; rewrite <- H; by apply Hi].
Qed.

Lemma gateway_check_trace (userId ip : string) (w : World) :
  let w0 := set_calls (calls w ++ [CallCheckConnectionRateLimit userId ip]) w in
  let run := WebSocketRateLimiter.checkConnectionRateLimit E (rateLimiter g) userId ip w0 in
  exists w' l,
    checkConnectionRateLimit E g userId ip w = (fst run, w') /\
    logged w' = logged w ++ l /\
    audited (config g) l
      (match fst run with
       | Normal r => if allowed r then [] else [CONNECTION_RATE_LIMIT_EXCEEDED]
       | Throw _ => []
       end) /\
    advances w w' /\
    memoryStorage w' = memoryStorage (snd run) /\
    redisStorage w' = redisStorage (snd run) /\
    connectionContexts w' = connectionContexts w /\
    (ticks (snd run) <= ticks w')%nat.
Proof.
  intros w0 run.
  pose proof (checkConnectionRateLimit_limiterOnly E (rateLimiter g) userId ip w0)
    as (Hx0 & _ & Hl0 & Hd0).
  pose proof (limiter_connection_ticks (rateLimiter g) userId ip w0) as Ht0.
  fold run in Hx0, Hl0, Hd0, Ht0.
  unfold checkConnectionRateLimit, bind, spy. fold w0 run.
  change (connectionContexts w0) with (connectionContexts w) in Hx0.
  change (logged w0) with (logged w) in Hl0.
  change (draws w0) with (draws w) in Hd0.
  change (ticks w0) with (ticks w) in Ht0.
  clearbody run. clear w0.
  destruct run as [[r|e] w1]; cbn [fst snd] in *.
  - destruct (allowed r); cbn [negb].
    + exists w1, []. split; [reflexivity|]. split; [by rewrite app_nil_r|].
      split; [apply audited_nil|]. split; [split; cbn in *; lia|].
      split; [reflexivity|]. split; [reflexivity|]. split; [exact Hx0|]. lia.
    + unfold Date_now. rewrite generateConnectionId_run.
      match goal with
      | |- context [logSecurityEvent g ?e ?w2] =>
          destruct (logSecurityEvent_trace g e w2)
            as (w' & l & -> & Hl & Ha & Ht & Hd & Hc & Hm & Hr & Hx)
      end.
      cbn in Hl, Ha, Ht, Hd, Hc, Hm, Hr, Hx.
      exists w', l. split; [reflexivity|]. split; [congruence|].
      split; [exact Ha|]. split; [split; cbn in *; lia|].
      split; [exact Hm|]. split; [exact Hr|]. split; [congruence|]. lia.
  - exists w1, []. split; [reflexivity|]. split; [by rewrite app_nil_r|].
    split; [apply audited_nil|]. split; [split; cbn in *; lia|].
    split; [reflexivity|]. split; [reflexivity|]. split; [exact Hx0|]. lia.
Qed.

(** What a run of the security check does, stage by stage. *)
Lemma performSecurityCheck_trace (request : WebSocketUpgradeRequest) (w : World) :
  exists c w' l,
    performSecurityCheck E g request w = (c, w') /\
    logged w' = logged w ++ l /\
    advances w w' /\
    match c with
    | Throw e =>
        WebSocketRateLimiter.redis (rateLimiter g) = true /\
        exists name message, e = ErrorObject name message
    | Normal res =>
        audited (config g) l (eventsFor (sc_code res)) /\
        if sc_allowed res then
          sc_error res = None /\ sc_code res = None /\
          exists authResult u ctx w2 r,
            sc_result res = Some authResult /\ user authResult = Some u /\
            ctx_user ctx = Some u /\ ctx_ip ctx = extractIp request /\
            messageCount ctx = 0 /\
            (exists t d, (ticks w <= t)%nat /\ (draws w <= d < draws w')%nat /\
                         connectionId ctx = connectionIdAt E t d) /\
            connectionContexts w' = <[connectionId ctx := ctx]> (connectionContexts w) /\
            memoryStorage w2 = memoryStorage w /\ redisStorage w2 = redisStorage w /\
            (ticks w <= ticks w2)%nat /\
            fst (WebSocketRateLimiter.checkConnectionRateLimit E (rateLimiter g)
                   (user_id u) (extractIp request) w2) = Normal r /\
            allowed r = true /\
            memoryStorage w'
              = memoryStorage (snd (WebSocketRateLimiter.checkConnectionRateLimit E
                                      (rateLimiter g) (user_id u) (extractIp request) w2)) /\
            redisStorage w'
              = redisStorage (snd (WebSocketRateLimiter.checkConnectionRateLimit E
                                     (rateLimiter g) (user_id u) (extractIp request) w2)) /\
            (ticks (snd (WebSocketRateLimiter.checkConnectionRateLimit E
                           (rateLimiter g) (user_id u) (extractIp request) w2))
             <= ticks w')%nat
        else
          sc_result res = None /\
          (sc_code res = Some 403 \/ sc_code res = Some 401 \/ sc_code res = Some 429) /\
          (exists message, sc_error res = Some message) /\
          sameStores w w' /\
          (sc_code res <> Some 429 -> connectionContexts w' = connectionContexts w) /\
          (sc_code res = Some 429 ->
           exists u ctx w2 r,
             ctx_user ctx = Some u /\
             connectionContexts w' = <[connectionId ctx := ctx]> (connectionContexts w) /\
             memoryStorage w2 = memoryStorage w /\ redisStorage w2 = redisStorage w /\
             (ticks w <= ticks w2)%nat /\
             fst (WebSocketRateLimiter.checkConnectionRateLimit E (rateLimiter g)
                    (user_id u) (extractIp request) w2) = Normal r /\
             allowed r = false)
    end.
Proof.
  unfold performSecurityCheck, bind.
  destruct (validateOrigin_trace E g request w)
    as (w1 & l1 & -> & Hl1 & Ha1 & [Ht1 Hd1] & _ & Hm1 & Hr1 & Hx1).
  destruct (valid (originVerdict _ _)) eqn:Hvalid; cbn [negb].
  2:{ rewrite (originVerdict_denied _ _ Hvalid).
      eexists _, w1, l1. split; [reflexivity|]. split; [exact Hl1|].
      split; [by split|]. cbn. split; [exact Ha1|].
      split; [reflexivity|]. split; [by left|]. split; [by eexists|].
      split; [by split|]. split; [done|]. discriminate. }
  destruct (authenticate_trace E g request w1)
    as (authResult & w2 & l2 & -> & Hl2 & Ha2 & Ht2 & Hd2 & Hm2 & Hr2 & Hfail & Hok).
  destruct (success authResult) eqn:Hsucc; cbn [negb].
  2:{ destruct (Hfail eq_refl) as (Hx2 & Hcode & Hmsg).
      eexists _, w2, (l1 ++ l2). split; [reflexivity|].
      split; [by rewrite Hl2, Hl1, app_assoc|].
      split; [split; lia|]. cbn. rewrite Hcode. cbn.
      split; [exact (audited_app g _ _ [] _ Ha1 Ha2)|].
      split; [reflexivity|]. split; [by right; left|].
      split; [exact Hmsg|].
      split; [split; congruence|]. split; [intros _; congruence|]. discriminate. }
  destruct (Hok eq_refl) as (u & ctx & Hu & Hcu & Hip & Hcount & Hid & Hx2).
  rewrite Hu. unfold bind.
  destruct (gateway_check_trace (user_id u) (extractIp request) w2)
    as (w3 & l3 & Hrun3 & Hl3 & Ha3 & [Ht3 Hd3] & Hm3 & Hr3 & Hx3 & Htk3).
  cbv zeta in Hrun3, Ha3, Hm3, Hr3, Htk3. rewrite Hrun3.
  set (w2' := set_calls (calls w2 ++ [CallCheckConnectionRateLimit (user_id u)
                                        (extractIp request)]) w2) in *.
  destruct (fst (WebSocketRateLimiter.checkConnectionRateLimit E (rateLimiter g)
                   (user_id u) (extractIp request) w2')) as [r|e] eqn:Hfst.
  - destruct (allowed r) eqn:Hallowed; cbn [negb ret].
    + unfold Date_now. rewrite generateConnectionId_run.
      match goal with
      | |- context [logSecurityEvent g ?e ?w0] =>
          destruct (logSecurityEvent_trace g e w0)
            as (w4 & l4 & -> & Hl4 & Ha4 & Ht4 & Hd4 & Hc4 & Hm4 & Hr4 & Hx4)
      end.
      cbn in Hl4, Ha4, Ht4, Hd4, Hc4, Hm4, Hr4, Hx4.
      eexists _, w4, (l1 ++ l2 ++ l3 ++ l4). split; [reflexivity|].
      split; [by rewrite Hl4, Hl3, Hl2, Hl1, <- !app_assoc|].
      split; [split; lia|]. cbn.
      split.
      { exact (audited_app g _ _ [] [] Ha1
                 (audited_app g _ _ [] [] Ha2 (audited_app g _ _ [] [] Ha3 Ha4))). }
      split; [reflexivity|]. split; [reflexivity|].
      exists authResult, u, ctx, w2', r.
      split; [reflexivity|]. split; [exact Hu|]. split; [exact Hcu|].
      split; [exact Hip|]. split; [exact Hcount|].
      split; [exists (ticks w1), (draws w1); split; [lia|split; [lia|exact Hid]]|].
      split; [by rewrite Hx4, Hx3, Hx2, Hx1|].
      split; [exact (eq_trans Hm2 Hm1)|]. split; [exact (eq_trans Hr2 Hr1)|].
      split; [cbn; lia|]. split; [exact Hfst|]. split; [exact Hallowed|].
      split; [by rewrite Hm4|]. split; [by rewrite Hr4|]. lia.
    + eexists _, w3, (l1 ++ l2 ++ l3). split; [reflexivity|].
      split; [by rewrite Hl3, Hl2, Hl1, <- !app_assoc|].
      split; [split; lia|]. cbn.
      split.
      { exact (audited_app g _ _ [] _ Ha1 (audited_app g _ _ [] _ Ha2 Ha3)). }
      split; [reflexivity|]. split; [by right; right|]. split; [by eexists|].
      assert (Hsame : sameStores w2' (snd (WebSocketRateLimiter.checkConnectionRateLimit
                                             E (rateLimiter g) (user_id u)
                                             (extractIp request) w2'))).
      { destruct (WebSocketRateLimiter.checkConnectionRateLimit E (rateLimiter g)
                    (user_id u) (extractIp request) w2') as [c wl] eqn:Hrun.
        cbn [fst snd] in *. subst c.
        exact (proj2 (limiter_verdict_shape E (rateLimiter g) (user_id u)
                        (extractIp request) "" "" w2' wl r (or_introl Hrun)) Hallowed). }
      destruct Hsame as [Hsm Hsr]. cbn in Hsm, Hsr.
      split; [split; congruence|]. split; [intros H; by destruct H|].
      intros _. exists u, ctx, w2', r.
      split; [exact Hcu|]. split; [by rewrite Hx3, Hx2, Hx1|].
      split; [exact (eq_trans Hm2 Hm1)|]. split; [exact (eq_trans Hr2 Hr1)|].
      split; [cbn; lia|]. split; [exact Hfst|exact Hallowed].
  - eexists _, w3, (l1 ++ l2 ++ l3). split; [reflexivity|].
    split; [by rewrite Hl3, Hl2, Hl1, <- !app_assoc|].
    split; [split; lia|].
    pose proof (limiter_connection_throws _ _ _ _ _ Hfst) as ->.
    split; [|by eexists _, _].
    destruct (WebSocketRateLimiter.redis (rateLimiter g)) eqn:Hredis; [reflexivity|].
    destruct (checkConnectionRateLimit_in_process E (rateLimiter g) (user_id u)
                (extractIp request) w2' Hredis) as [r Hr].
    congruence.
Qed.

End CheckTrace.

(** ** The gateway from connect to close *)

Section GatewayLifecycleFacts.

Import WebSocketSecurityMiddleware GatewayLifecycle Spec Props.

Variable E : Env.
Variable g : t.

Lemma handleConnectionClose_unknown (connectionId : string) (w : World) :
  connectionContexts w !! connectionId = None ->
  exists w',
    handleConnectionClose E g connectionId w = (Normal tt, w') /\
    sameStores w w' /\
    connectionContexts w' = connectionContexts w /\
    calls w' = calls w.
Proof.
  intros Hnone. unfold handleConnectionClose, bind, getContext, deleteContext.
  rewrite Hnone. unfold ret, Date_now.
  match goal with
  | |- context [logSecurityEvent g ?e ?w0] =>
      destruct (logSecurityEvent_trace g e w0)
        as (w' & l & -> & _ & _ & _ & _ & Hc & Hm & Hr & Hx)
  end.
  cbn in Hc, Hm, Hr, Hx. exists w'. split; [reflexivity|].
  split; [by split|]. split; [|exact Hc].
  by rewrite Hx, delete_id.
Qed.

Lemma handleConnectionClose_known (connectionId : string) (w : World)
    (ctx : WebSocketConnectionContext) (u : AuthenticatedUser) :
  connectionContexts w !! connectionId = Some ctx ->
  ctx_user ctx = Some u ->
  let w0 := set_calls (calls w ++ [CallDecrementConnectionCounter (user_id u) (ctx_ip ctx)])
                      w in
  let released :=
    snd (WebSocketRateLimiter.decrementConnectionCounter (rateLimiter g)
           (user_id u) (ctx_ip ctx) w0) in
  exists w',
    handleConnectionClose E g connectionId w = (Normal tt, w') /\
    memoryStorage w' = memoryStorage released /\
    redisStorage w' = redisStorage released /\
    connectionContexts w' = delete connectionId (connectionContexts w).
Proof.
  intros Hsome Hu w0 released.
  unfold handleConnectionClose, bind, getContext, deleteContext, spy.
  rewrite Hsome, Hu. fold w0.
  destruct (decrementConnectionCounter_contexts g (user_id u) (ctx_ip ctx) w0)
    as (w1 & Hrun & Hx1).
  assert (Hrel : released = w1) by (unfold released; by rewrite Hrun).
  rewrite Hrun. unfold ret, Date_now.
  match goal with
  | |- context [logSecurityEvent g ?e ?w2] =>
      destruct (logSecurityEvent_trace g e w2)
        as (w' & l & -> & _ & _ & _ & _ & Hc & Hm & Hr & Hx)
  end.
  cbn in Hc, Hm, Hr, Hx. exists w'. split; [reflexivity|].
  rewrite Hrel. split; [exact Hm|]. split; [exact Hr|].
  by rewrite Hx, Hx1.
Qed.

(** X13. Closing a connection id that the registry does not hold releases
    nothing: both stores, the registry and the calls made to the limiter
    stay as they were.  In particular a second close of the same id, after
    any first one, gives no slot back. *)
Theorem second_close_releases_nothing (connectionId : string) (w : World) :
  (connectionContexts w !! connectionId = None ->
   exists w',
     handleConnectionClose E g connectionId w = (Normal tt, w') /\
     sameStores w w' /\ connectionContexts w' = connectionContexts w /\
     calls w' = calls w) /\
  (let closed := snd (handleConnectionClose E g connectionId w) in
   exists w',
     handleConnectionClose E g connectionId closed = (Normal tt, w') /\
     sameStores closed w' /\ connectionContexts w' = connectionContexts closed /\
     calls w' = calls closed).
Proof.
  split; [apply handleConnectionClose_unknown|].
  intros closed. apply handleConnectionClose_unknown.
  unfold closed. rewrite handleConnectionClose_contexts. apply lookup_delete_eq.
Qed.

(** X14. With logging on, a denied security check appends exactly one
    blocked audit event, of the type that goes with the status code of the
    denial (403 origin, 401 authentication, 429 connection rate limit), and
    an accepted check appends no blocked event; with logging off nothing is
    appended at all. *)
Theorem audit_trail_matches_verdict (request : WebSocketUpgradeRequest)
    (w w' : World) (res : SecurityCheckResult) :
  performSecurityCheck E g request w = (Normal res, w') ->
  exists l,
    logged w' = logged w ++ l /\
    audited (config g) l (eventsFor (sc_code res)) /\
    (sc_allowed res = true -> eventsFor (sc_code res) = []) /\
    (sc_allowed res = false -> exists type, eventsFor (sc_code res) = [type]).
Proof.
  intros Hrun.
  destruct (performSecurityCheck_trace E g request w) as (c & w1 & l & Hrun' & Hl & _ & Hc).
  rewrite Hrun in Hrun'. injection Hrun' as <- <-.
  destruct Hc as [Ha Hc]. exists l. split; [exact Hl|]. split; [exact Ha|].
  destruct (sc_allowed res).
  - destruct Hc as (_ & -> & _). by split.
  - destruct Hc as (_ & [->|[->| ->]] & _); split; try discriminate; by eexists.
Qed.

(** X15. The Express adapter never throws and never both answers and
    passes on.  It answers through [response] exactly when the check
    denies, with status 403, 401 or 429 equal to the code in the body and
    an error message; it calls [next()] exactly when the check accepts,
    having attached the authenticated user and a connection id generated
    after the check; it calls [next(error)] only when the check itself
    threw, which takes the external store, and then with the [Error] as
    thrown. *)
Theorem adapter_outcomes (request : WebSocketUpgradeRequest) (w : World) :
  exists o w',
    expressMiddleware E g request w = (Normal o, w') /\
    match o with
    | Responded status error code =>
        fst (performSecurityCheck E g request w) = Normal (denial error code) /\
        w' = snd (performSecurityCheck E g request w) /\
        code = Some status /\
        (status = 403 \/ status = 401 \/ status = 429) /\
        exists message, error = Some message
    | Next attached connectionId =>
        (exists res u,
           fst (performSecurityCheck E g request w) = Normal res /\
           sc_allowed res = true /\
           sc_result res ≫= user = attached /\ attached = Some u) /\
        connectionId
          = connectionIdAt E (ticks (snd (performSecurityCheck E g request w)))
                           (draws (snd (performSecurityCheck E g request w)))
    | NextError wrapped e =>
        fst (performSecurityCheck E g request w) = Throw e /\
        wrapped = false /\
        WebSocketRateLimiter.redis (rateLimiter g) = true
    end.
Proof.
  destruct (performSecurityCheck_trace E g request w) as (c & w1 & l & Hrun & _ & _ & Hc).
  unfold expressMiddleware, tryCatch, bind. rewrite Hrun. cbn [fst snd].
  destruct c as [res|e].
  - destruct Hc as [_ Hc]. destruct (sc_allowed res) eqn:Hallowed; cbn [negb].
    + destruct Hc as (_ & _ & authResult & u & ctx & w2 & r & Hres & Hu & _).
      rewrite generateConnectionId_run. eexists _, _. split; [reflexivity|].
      cbn. split; [|reflexivity].
      exists res, u. split; [reflexivity|]. split; [exact Hallowed|].
      rewrite Hres. cbn. by rewrite Hu.
    + destruct Hc as (Hnone & Hcode & [message Hmsg] & _).
      eexists _, _. split; [reflexivity|]. cbn.
      split.
      { destruct res as [a rs er cd]. cbn in *. by subst. }
      split; [reflexivity|].
      destruct Hcode as [->|[->| ->]]; cbn;
        (split; [reflexivity|]); (split; [tauto|]); by exists message.
  - destruct Hc as (Hredis & name & message & ->).
    eexists _, _. split; [reflexivity|]. by repeat split.
Qed.

End GatewayLifecycleFacts.

(** ** Connection ids, slots and the 429 answer *)

Section ConnectAndClose.

Import WebSocketSecurityMiddleware GatewayLifecycle Spec Props.

Variable E : Env.
Variable g : t.

(** X16. The connection id the Express adapter attaches to an accepted
    request is not the id under which the check registered the connection:
    when generated ids are unique and none of them is in the registry
    beforehand, the registry holds the context of the attached user under
    another id and nothing under the attached one, so that closing or
    message-limiting by the attached id finds no context. *)
Theorem attached_id_is_unregistered (request : WebSocketUpgradeRequest)
    (w w' : World) (attached : option AuthenticatedUser) (attachedId : string) :
  (forall t t' d d', d <> d' -> connectionIdAt E t d <> connectionIdAt E t' d') ->
  (forall t d, (draws w <= d)%nat ->
               connectionContexts w !! connectionIdAt E t d = None) ->
  expressMiddleware E g request w = (Normal (Next attached attachedId), w') ->
  connectionContexts w' !! attachedId = None /\
  exists registeredId ctx,
    registeredId <> attachedId /\
    connectionContexts w' !! registeredId = Some ctx /\
    ctx_user ctx = attached.
Proof.
  intros Huniq Hfresh Hrun.
  destruct (performSecurityCheck_trace E g request w)
    as (c & w1 & l & Hcheck & _ & [_ Hdraws] & Hc).
  unfold expressMiddleware, tryCatch, bind in Hrun. rewrite Hcheck in Hrun.
  destruct c as [res|e].
  2:{ destruct Hc as (_ & name & message & ->). discriminate. }
  destruct Hc as [_ Hc]. destruct (sc_allowed res); cbn [negb] in Hrun; [|discriminate].
  destruct Hc as (_ & _ & authResult & u & ctx & w2 & r & Hres & Hu & Hcu & _ & _
                  & (t & d & _ & [Hd1 Hd2] & Hid) & Hx & _).
  rewrite generateConnectionId_run in Hrun. cbn in Hrun.
  injection Hrun as <- <- <-. cbn [connectionContexts set_draws set_ticks].
  assert (Hne : connectionId ctx <> connectionIdAt E (ticks w1) (draws w1)).
  { rewrite Hid. apply Huniq. lia. }
  split.
  - rewrite Hx, lookup_insert_ne by exact Hne. apply Hfresh. exact Hdraws.
  - exists (connectionId ctx), ctx.
    split; [exact Hne|]. split; [by rewrite Hx, lookup_insert_eq|].
    rewrite Hres. cbn. by rewrite Hu, Hcu.
Qed.

(** X17. On the in-process store an accepted connection that is closed
    under its registered id leaves the limiter as it found it: the registry
    no longer holds the id, the user's and the address's connection
    counters stand at the counts that were in effect at a clock reading of
    the check, after its first one, and no other counter has changed. *)
Theorem connect_then_close_returns_the_slot (request : WebSocketUpgradeRequest)
    (w w' : World) (res : SecurityCheckResult) :
  WebSocketRateLimiter.redis (rateLimiter g) = false ->
  nonNegative (memoryStorage w) ->
  performSecurityCheck E g request w = (Normal res, w') ->
  sc_allowed res = true ->
  exists registeredId ctx u,
    connectionContexts w' = <[registeredId := ctx]> (connectionContexts w) /\
    ctx_user ctx = Some u /\ sc_result res ≫= user = Some u /\
    let userKey := WebSocketRateLimiter.getConnectionKey
                     WebSocketRateLimiter.user_key (user_id u) in
    let ipKey := WebSocketRateLimiter.getConnectionKey
                   WebSocketRateLimiter.ip_key (extractIp request) in
    let closed := snd (handleConnectionClose E g registeredId w') in
    connectionContexts closed = delete registeredId (connectionContexts w) /\
    (exists su n, memoryStorage closed !! userKey = Some su /\
                  (ticks w < n <= ticks w')%nat /\
                  count su = countInEffect (memoryStorage w !! userKey) (clock E n)) /\
    (exists si n, memoryStorage closed !! ipKey = Some si /\
                  (ticks w < n <= ticks w')%nat /\
                  count si = countInEffect (memoryStorage w !! ipKey) (clock E n)) /\
    (forall k, k <> userKey -> k <> ipKey ->
               memoryStorage closed !! k = memoryStorage w !! k).
Proof.
  intros Hmem Hnn Hrun Hallowed.
  destruct (performSecurityCheck_trace E g request w) as (c & w1 & l & Hrun' & _ & _ & Hc).
  rewrite Hrun in Hrun'. injection Hrun' as <- <-.
  destruct Hc as [_ Hc]. rewrite Hallowed in Hc.
  destruct Hc as (_ & _ & authResult & u & ctx & w2 & r & Hres & Hu & Hcu & Hip & _
                  & _ & Hx & Hm2 & _ & Ht2 & Hfst & Hr & Hm' & _ & Htk).
  exists (connectionId ctx), ctx, u.
  split; [exact Hx|]. split; [exact Hcu|].
  split; [rewrite Hres; cbn; exact Hu|].
  intros userKey ipKey closed.
  assert (Hlook : connectionContexts w' !! connectionId ctx = Some ctx)
    by (by rewrite Hx, lookup_insert_eq).
  destruct (handleConnectionClose_known E g (connectionId ctx) w' ctx u Hlook Hcu)
    as (w3 & Hclose & Hm3 & _ & Hx3).
  cbv zeta in Hm3. rewrite Hip in Hm3.
  assert (Hclosed : closed = w3) by (unfold closed; by rewrite Hclose).
  rewrite Hclosed, Hm3.
  split; [by rewrite Hx3, Hx, delete_insert_eq|].
  assert (Hnn2 : nonNegative (memoryStorage w2)) by (by rewrite Hm2).
  pose proof (release_after_admission E (rateLimiter g) Hmem (user_id u)
                (extractIp request) w2
                (set_calls (calls w' ++ [CallDecrementConnectionCounter (user_id u)
                                           (extractIp request)]) w')
                r Hnn2 Hfst Hr Hm') as Hrel.
  cbv zeta in Hrel. fold userKey ipKey in Hrel. rewrite Hm2 in Hrel.
  destruct Hrel as ((su & n & Hsu & Hn & Hcu') & (si & m & Hsi & Hm & Hci') & Hrest).
  split; [exists su, n; split; [exact Hsu|split; [lia|exact Hcu']]|].
  split; [exists si, m; split; [exact Hsi|split; [lia|exact Hci']]|].
  exact Hrest.
Qed.

Lemma limiter_connection_denied (lim : WebSocketRateLimiter.t) (userId ip : string)
    (w : World) (r : RateLimitResult) :
  fst (WebSocketRateLimiter.checkConnectionRateLimit E lim userId ip w) = Normal r ->
  allowed r = false ->
  exists s n,
    (ticks w <= n)%nat /\ gt (Int (clock E n)) (resetTime s) = false /\
    ((stored E lim w (WebSocketRateLimiter.getConnectionKey
                        WebSocketRateLimiter.user_key userId) = Normal (Some s) /\
      maxConnectionsPerUser (WebSocketRateLimiter.connectionConfig lim) <= count s) \/
     (stored E lim w (WebSocketRateLimiter.getConnectionKey
                        WebSocketRateLimiter.ip_key ip) = Normal (Some s) /\
      maxConnectionsPerIp (WebSocketRateLimiter.connectionConfig lim) <= count s)).
Proof.
  unfold WebSocketRateLimiter.checkConnectionRateLimit, bind.
  rewrite checkRateLimit_run.
  destruct (stored E lim w _) as [stU|e] eqn:HstU; [|discriminate].
  match goal with |- context [allowed ?v] => remember v as vU eqn:HvU end.
  destruct (allowed vU) eqn:HaU; cbn [negb].
  - rewrite checkRateLimit_run.
    match goal with
    | |- context [stored E lim ?w0 ?k] =>
        destruct (stored E lim w0 k) as [stI|e] eqn:HstI
    end; [|discriminate].
    match goal with
    | |- context [negb (allowed ?v)] => remember v as vI eqn:HvI
    end.
    destruct (allowed vI) eqn:HaI; cbn [negb].
    + destruct (WebSocketRateLimiter.incrementCounter E lim _ _ _) as [[[]|e] wu];
        [|discriminate].
      destruct (WebSocketRateLimiter.incrementCounter E lim _ _ _) as [[[]|e] wi];
        [|discriminate].
      cbn. intros H. injection H as <-. discriminate.
    + intros _ _. rewrite HvI in HaI.
      destruct (verdict_denied _ _ _ _ HaI) as (s & -> & _ & Hnow & Hfull).
      exists s, (S (ticks w)). split; [lia|]. split; [exact Hnow|].
      right. split; [exact HstI|]. cbn in Hfull. by apply Z.geb_le.
  - intros _ _. rewrite HvU in HaU.
    destruct (verdict_denied _ _ _ _ HaU) as (s & -> & _ & Hnow & Hfull).
    exists s, (ticks w). split; [lia|]. split; [exact Hnow|].
    left. split; [reflexivity|]. cbn in Hfull. by apply Z.geb_le.
Qed.

(** X18. The check answers 429 only when a counter is full: the
    authenticated user's or the client address's connection counter was,
    at a clock reading taken during the check, not past its [resetTime], with
    a count at or above the configured maximum. *)
Theorem rate_limited_only_when_full (request : WebSocketUpgradeRequest)
    (w w' : World) (res : SecurityCheckResult) :
  performSecurityCheck E g request w = (Normal res, w') ->
  sc_code res = Some 429 ->
  exists u ctx s n,
    connectionContexts w' !! connectionId ctx = Some ctx /\ ctx_user ctx = Some u /\
    (ticks w <= n)%nat /\ gt (Int (clock E n)) (resetTime s) = false /\
    ((stored E (rateLimiter g) w
        (WebSocketRateLimiter.getConnectionKey WebSocketRateLimiter.user_key (user_id u))
        = Normal (Some s) /\
      maxConnectionsPerUser (WebSocketRateLimiter.connectionConfig (rateLimiter g))
        <= count s) \/
     (stored E (rateLimiter g) w
        (WebSocketRateLimiter.getConnectionKey WebSocketRateLimiter.ip_key
           (extractIp request))
        = Normal (Some s) /\
      maxConnectionsPerIp (WebSocketRateLimiter.connectionConfig (rateLimiter g))
        <= count s)).
Proof.
  intros Hrun Hcode.
  destruct (performSecurityCheck_trace E g request w) as (c & w1 & l & Hrun' & _ & _ & Hc).
  rewrite Hrun in Hrun'. injection Hrun' as <- <-.
  destruct Hc as [_ Hc]. destruct (sc_allowed res).
  { destruct Hc as (_ & Hnone & _). congruence. }
  destruct Hc as (_ & _ & _ & _ & _ & Hlimited).
  destruct (Hlimited Hcode) as (u & ctx & w2 & r & Hcu & Hx & Hm2 & Hr2 & Ht2 & Hfst & Hr).
  destruct (limiter_connection_denied _ _ _ _ _ Hfst Hr) as (s & n & Hn & Hclock & Hfull).
  exists u, ctx, s, n.
  split; [by rewrite Hx, lookup_insert_eq|]. split; [exact Hcu|].
  split; [lia|]. split; [exact Hclock|].
  assert (Hsame : forall k, stored E (rateLimiter g) w2 k = stored E (rateLimiter g) w k).
  { intros k. apply stored_local. split; [by rewrite Hm2|by rewrite Hr2]. }
  by rewrite <- !Hsame.
Qed.

End ConnectAndClose.

(** ** Construction of the gateway *)

Section Construction.

Import WebSocketSecurityMiddleware Spec Props.

Lemma merge_connection_total (c : ConnectionRateLimitConfig) :
  WebSocketRateLimiter.mergeConnectionConfig (asPartialConnection c) = c.
Proof. by destruct c. Qed.

Lemma merge_rate_limit_total (c : RateLimitConfig) :
  WebSocketRateLimiter.mergeRateLimitConfig (asPartialRateLimit c) = c.
Proof. by destruct c. Qed.

Lemma defaults_merged_once (m : gmap string RateLimitConfig) :
  (m ∪ DEFAULT_MESSAGE_RATE_LIMITS) ∪ DEFAULT_MESSAGE_RATE_LIMITS
    = m ∪ DEFAULT_MESSAGE_RATE_LIMITS.
Proof. by rewrite <- (assoc_L (∪)), (idemp_L (∪)). Qed.

Lemma long_secret_truthy (secret : string) :
  (32 <= String.length secret)%nat -> truthy secret = true.
Proof. destruct secret; cbn; [lia|reflexivity]. Qed.

(** X19. A configuration whose secret has at least 32 characters yields a
    gateway, and the gateway's limiter works with exactly the limits of
    the gateway's merged configuration: a message type is limited by the
    caller's entry for it if there is one, else by the built-in entry for
    that type; a type with neither that is named like a member every
    object inherits gets that member, which carries no limits; any other
    type is limited by the caller's default limit, else by the built-in
    default. *)
Theorem gateway_and_limiter_agree (c : PartialConfig) (redis : bool) :
  (32 <= String.length (cfg_jwtSecret c))%nat ->
  exists g,
    new c redis = Normal g /\
    config g = mergedConfig c /\
    WebSocketRateLimiter.connectionConfig (rateLimiter g) = connectionRateLimit (config g) /\
    WebSocketRateLimiter.defaultLimit (rateLimiter g) = defaultRateLimit (config g) /\
    WebSocketRateLimiter.messageLimits (rateLimiter g) = messageRateLimits (config g) /\
    WebSocketRateLimiter.redis (rateLimiter g) = redis /\
    forall messageType,
      WebSocketRateLimiter.limitConfigFor (rateLimiter g) messageType
        = match cfg_messageRateLimits c !! messageType with
          | Some limit => WebSocketRateLimiter.Limits limit
          | None =>
              match DEFAULT_MESSAGE_RATE_LIMITS !! messageType with
              | Some limit => WebSocketRateLimiter.Limits limit
              | None =>
                  if inherited messageType then WebSocketRateLimiter.InheritedMember
                  else WebSocketRateLimiter.Limits
                         (default DEFAULT_RATE_LIMIT (cfg_defaultRateLimit c))
              end
          end.
Proof.
  intros Hlen. unfold new, WebSocketAuthHandler.createWebSocketAuthHandler.
  cbn [jwtSecret mergedConfig].
  rewrite (long_secret_truthy _ Hlen).
  assert (Hlt : (String.length (cfg_jwtSecret c) <? 32)%nat = false)
    by (apply Nat.ltb_ge; exact Hlen).
  rewrite Hlt. cbn [negb orb].
  eexists. split; [reflexivity|]. cbn [config rateLimiter].
  unfold WebSocketRateLimiter.createWebSocketRateLimiter, WebSocketRateLimiter.new.
  cbn [WebSocketRateLimiter.connectionConfig WebSocketRateLimiter.defaultLimit
       WebSocketRateLimiter.messageLimits WebSocketRateLimiter.redis].
  split; [reflexivity|]. split; [apply merge_connection_total|].
  split; [apply merge_rate_limit_total|]. split; [apply defaults_merged_once|].
  split; [reflexivity|].
  intros messageType. unfold WebSocketRateLimiter.limitConfigFor.
  cbn [WebSocketRateLimiter.defaultLimit WebSocketRateLimiter.messageLimits].
  cbn [messageRateLimits defaultRateLimit mergedConfig].
  rewrite defaults_merged_once, merge_rate_limit_total.
  destruct (cfg_messageRateLimits c !! messageType) as [limit|] eqn:Hc.
  - by rewrite (lookup_union_Some_l _ _ _ _ Hc).
  - rewrite (lookup_union_r _ _ _ Hc).
    by destruct (DEFAULT_MESSAGE_RATE_LIMITS !! messageType).
Qed.

End Construction.

Lemma gateway_and_limiter_agree_witness :
  exists g,
    WebSocketSecurityMiddleware.new Scenarios.customConfig false = Normal g /\
    WebSocketRateLimiter.limitConfigFor (WebSocketSecurityMiddleware.rateLimiter g)
      "CHAT_MESSAGE"
      = WebSocketRateLimiter.Limits {| windowMs := 1000; maxRequests := 2 |} /\
    WebSocketRateLimiter.limitConfigFor (WebSocketSecurityMiddleware.rateLimiter g)
      "METRICS_REQUEST"
      = WebSocketRateLimiter.Limits {| windowMs := 60000; maxRequests := 200 |} /\
    WebSocketRateLimiter.limitConfigFor (WebSocketSecurityMiddleware.rateLimiter g)
      "toString" = WebSocketRateLimiter.InheritedMember.
Proof.
  destruct (gateway_and_limiter_agree Scenarios.customConfig false)
    as (g & Hnew & _ & _ & _ & _ & _ & Hlimit).
  - cbn. lia.
  - exists g. split; [exact Hnew|]. split; [|split]; rewrite Hlimit; reflexivity.
Defined.

(** ** Scenarios *)

Lemma example_ids_unique (t t' d d' : nat) :
  d <> d' -> Props.connectionIdAt Examples.env t d <> Props.connectionIdAt Examples.env t' d'.
Proof.
  intros Hne Heq. apply Hne. unfold Props.connectionIdAt in Heq. cbn in Heq.
  apply String.app_inj in Heq. apply String.app_inj in Heq.
  apply String.app_inj in Heq. by apply (inj pretty).
Qed.

Lemma second_close_releases_nothing_witness :
  exists w',
    WebSocketSecurityMiddleware.handleConnectionClose Examples.env (Examples.gateway None)
      "ws_0_0" Examples.emptyWorld = (Normal tt, w') /\
    Spec.sameStores Examples.emptyWorld w' /\
    connectionContexts w' = connectionContexts Examples.emptyWorld /\
    calls w' = calls Examples.emptyWorld.
Proof.
  apply (proj1 (second_close_releases_nothing Examples.env (Examples.gateway None)
                  "ws_0_0" Examples.emptyWorld)).
  reflexivity.
Defined.

Lemma audit_trail_matches_verdict_witness :
  exists res w',
    WebSocketSecurityMiddleware.performSecurityCheck Examples.env (Examples.gateway None)
      Scenarios.foreignRequest Examples.emptyWorld = (Normal res, w') /\
    exists l,
      logged w' = logged Examples.emptyWorld ++ l /\
      map event (Props.blockedEvents l) = [ORIGIN_VALIDATION_FAILED].
Proof.
  eexists _, _. split; [vm_compute; reflexivity|].
  edestruct (audit_trail_matches_verdict Examples.env (Examples.gateway None)
               Scenarios.foreignRequest Examples.emptyWorld) as (l & Hl & Ha & _).
  - vm_compute. reflexivity.
  - exists l. split; [exact Hl|exact Ha].
Defined.

Lemma attached_id_is_unregistered_witness :
  exists attached attachedId w',
    GatewayLifecycle.expressMiddleware Examples.env (Examples.gateway None)
      Scenarios.goodRequest Examples.emptyWorld
      = (Normal (GatewayLifecycle.Next attached attachedId), w') /\
    connectionContexts w' !! attachedId = None.
Proof.
  eexists _, _, _. split; [vm_compute; reflexivity|].
  refine (proj1 (attached_id_is_unregistered Examples.env (Examples.gateway None)
                   Scenarios.goodRequest Examples.emptyWorld _ _ _
                   example_ids_unique _ _)).
  - intros t d _. cbn. apply lookup_empty.
  - vm_compute. reflexivity.
Defined.

Lemma connect_then_close_returns_the_slot_witness :
  exists res w',
    WebSocketSecurityMiddleware.performSecurityCheck Examples.env (Examples.gateway None)
      Scenarios.goodRequest Examples.emptyWorld = (Normal res, w') /\
    exists registeredId ctx u,
      connectionContexts w'
        = <[registeredId := ctx]> (connectionContexts Examples.emptyWorld) /\
      ctx_user ctx = Some u.
Proof.
  eexists _, _. split; [vm_compute; reflexivity|].
  edestruct (connect_then_close_returns_the_slot Examples.env (Examples.gateway None)
               Scenarios.goodRequest Examples.emptyWorld)
    as (registeredId & ctx & u & Hx & Hu & _).
  - reflexivity.
  - intros k s Hk. cbn in Hk. by rewrite lookup_empty in Hk.
  - vm_compute. reflexivity.
  - reflexivity.
  - exists registeredId, ctx, u. split; [exact Hx|exact Hu].
Defined.

Lemma rate_limited_only_when_full_witness :
  exists res w',
    WebSocketSecurityMiddleware.performSecurityCheck Examples.env (Examples.gateway None)
      Scenarios.goodRequest Scenarios.fullForU1 = (Normal res, w') /\
    exists u ctx,
      connectionContexts w' !! connectionId ctx = Some ctx /\ ctx_user ctx = Some u.
Proof.
  eexists _, _. split; [vm_compute; reflexivity|].
  edestruct (rate_limited_only_when_full Examples.env (Examples.gateway None)
               Scenarios.goodRequest Scenarios.fullForU1)
    as (u & ctx & s & n & Hx & Hu & _).
  - vm_compute. reflexivity.
  - reflexivity.
  - exists u, ctx. split; [exact Hx|exact Hu].
Defined.

(** ** Destroying the gateway *)

Section Destroy.

Import WebSocketSecurityMiddleware GatewayLifecycle Spec Props.

Variable E : Env.
Variable g : t.

(** X20. [destroy] forgets every connection and, on the in-process store,
    every counter: afterwards no connection id resolves to a context, and
    the next security check is not answered with 429 whatever the counters
    were before. *)
Theorem destroy_clears_quotas (request : WebSocketUpgradeRequest)
    (w w' : World) (res : SecurityCheckResult) :
  WebSocketRateLimiter.redis (rateLimiter g) = false ->
  performSecurityCheck E g request (snd (destroy w)) = (Normal res, w') ->
  sc_code res <> Some 429 /\
  forall connectionId,
    fst (getConnectionContext connectionId (snd (destroy w))) = Normal None.
Proof.
  intros Hmem Hrun. split; [|intros connectionId; cbn; by rewrite lookup_empty].
  intros Hcode.
  destruct (performSecurityCheck_trace E g request (snd (destroy w)))
    as (c & w1 & l & Hrun' & _ & _ & Hc).
  rewrite Hrun in Hrun'. injection Hrun' as <- <-.
  destruct Hc as [_ Hc]. destruct (sc_allowed res).
  { destruct Hc as (_ & Hnone & _). congruence. }
  destruct Hc as (_ & _ & _ & _ & _ & Hlimited).
  destruct (Hlimited Hcode) as (u & ctx & w2 & r & _ & _ & Hm2 & _ & _ & Hfst & Hr).
  destruct (limiter_connection_denied E _ _ _ _ _ Hfst Hr) as (s & n & _ & _ & Hfull).
  rewrite !stored_in_process in Hfull by exact Hmem.
  rewrite Hm2 in Hfull. cbn in Hfull. rewrite !lookup_empty in Hfull.
  by destruct Hfull as [[? _]|[? _]].
Qed.

End Destroy.

Lemma destroy_clears_quotas_witness :
  exists res w',
    WebSocketSecurityMiddleware.performSecurityCheck Examples.env (Examples.gateway None)
      Scenarios.goodRequest (snd (GatewayLifecycle.destroy Scenarios.fullForU1))
      = (Normal res, w') /\
    WebSocketSecurityMiddleware.sc_code res <> Some 429.
Proof.
  eexists _, _. split; [vm_compute; reflexivity|].
  refine (proj1 (destroy_clears_quotas Examples.env (Examples.gateway None)
                   Scenarios.goodRequest Scenarios.fullForU1 _ _ eq_refl _)).
  vm_compute. reflexivity.
Defined.

(** ** The two stores side by side *)

Section StoresAgree.

Import WebSocketRateLimiter Spec Props.

Variable E : Env.
Variable lim : t.

Lemma external_check_run (connectionId messageType : string) (w : World)
    (st : option RateLimitState) :
  let key := getMessageKey connectionId messageType in
  let c := limitConfigFor lim messageType in
  let r := verdict st (lc_maxRequests c) (clock E (ticks w)) (lc_windowMs c) in
  stored E (external lim) w key = Normal st ->
  checkMessageRateLimit E (external lim) connectionId messageType w
    = if allowed r then
        (Normal {| allowed := true; remaining := minus (remaining r) (Int 1);
                   r_resetTime := r_resetTime r; retryAfter := None |},
         set_redisStorage
           (<[key := {| value := JSON_stringify E
                          (match st with
                           | None =>
                               {| count := 1;
                                  resetTime := plus (Int (clock E (S (ticks w))))
                                                    (lc_windowMs c) |}
                           | Some s => bump s
                           end);
                        px := px_of (lc_windowMs c) |}]> (redisStorage w))
           (set_ticks (S (S (ticks w))) w))
      else
        (Normal (withRetryAfter r
                   (ceilSeconds (minus (r_resetTime r) (Int (clock E (S (ticks w))))))),
         set_ticks (S (S (ticks w))) w).
Proof.
  intros key c r Hst. unfold checkMessageRateLimit, bind.
  rewrite checkRateLimit_run.
  change (limitConfigFor (external lim) messageType) with c. fold key.
  rewrite Hst. fold r. destruct (allowed r); cbn [negb].
  - rewrite incrementCounter_redis by reflexivity.
    change (stored E (external lim) (set_ticks (S (ticks w)) w) key)
      with (stored E (external lim) w key).
    rewrite Hst. reflexivity.
  - rewrite denyWithRetryAfter_run. reflexivity.
Qed.

(** X21. While a window is current the two stores are interchangeable: a
    message check on the external store and one on the in-process store,
    started at the same clock position on the same state of the key (absent,
    or with a [resetTime] that the readings of the call have not passed),
    return the same verdict and leave the same state under the key,
    provided the JSON codec returns the written state. *)
Theorem stores_agree_within_window (connectionId messageType : string)
    (wm wr : World) :
  let key := getMessageKey connectionId messageType in
  let inMemory := checkMessageRateLimit E (inProcess lim) connectionId messageType wm in
  let onRedis := checkMessageRateLimit E (external lim) connectionId messageType wr in
  ticks wm = ticks wr ->
  stored E (external lim) wr key = Normal (memoryStorage wm !! key) ->
  (forall s, memoryStorage wm !! key = Some s ->
             gt (Int (clock E (ticks wm))) (resetTime s) = false /\
             gt (Int (clock E (S (S (ticks wm))))) (resetTime s) = false) ->
  roundTrips E (incrementedState E key (lc_windowMs (limitConfigFor lim messageType))
                  (set_ticks (S (ticks wm)) wm)) ->
  fst inMemory = fst onRedis /\
  stored E (external lim) (snd onRedis) key
    = Normal (memoryStorage (snd inMemory) !! key).
Proof.
  intros key inMemory onRedis Hticks Hstored Hcurrent Hcodec.
  pose proof (checkMessageRateLimit_memory E (inProcess lim) eq_refl
                connectionId messageType wm) as Hm.
  pose proof (external_check_run connectionId messageType wr _ Hstored) as Hr.
  cbv zeta in Hm, Hr.
  change (limitConfigFor (inProcess lim) messageType)
    with (limitConfigFor lim messageType) in Hm.
  fold key in Hm, Hr. rewrite <- Hticks in Hr.
  unfold inMemory, onRedis. rewrite Hm, Hr. clear Hm Hr.
  set (c := limitConfigFor lim messageType) in *.
  destruct (allowed (verdict (memoryStorage wm !! key) (lc_maxRequests c)
                       (clock E (ticks wm)) (lc_windowMs c))) eqn:Hallowed.
  - cbn [fst snd]. split; [reflexivity|].
    rewrite (incrementCounter_store E (inProcess lim) eq_refl), lookup_insert_eq.
    assert (Hsame : match memoryStorage wm !! key with
                    | Some s => bump s
                    | None => {| count := 1;
                                 resetTime := plus (Int (clock E (S (ticks wm))))
                                                   (lc_windowMs c) |}
                    end
                    = incrementedState E key (lc_windowMs c)
                        (set_ticks (S (ticks wm)) wm)).
    { unfold incrementedState. cbn [memoryStorage set_ticks ticks].
      destruct (memoryStorage wm !! key) as [s|] eqn:Hs; [|reflexivity].
      destruct (Hcurrent s eq_refl) as [_ Hlate]. by rewrite Hlate. }
    rewrite Hsame. destruct Hcodec as [Htruthy Hparse].
    unfold stored. cbn -[plus]. rewrite lookup_insert_eq. unfold decode. cbn -[plus].
    by rewrite Htruthy, Hparse.
  - cbn [fst snd]. split; [reflexivity|]. exact Hstored.
Qed.

End StoresAgree.

Lemma stores_agree_within_window_witness :
  fst (WebSocketRateLimiter.checkMessageRateLimit Examples.redisEnv
         (Props.inProcess Examples.limiter) "c1" "CHAT_MESSAGE"
         Scenarios.chatInProcess)
    = fst (WebSocketRateLimiter.checkMessageRateLimit Examples.redisEnv
             (Props.external Examples.limiter) "c1" "CHAT_MESSAGE"
             Scenarios.chatExternal).
Proof.
  refine (proj1 (stores_agree_within_window Examples.redisEnv Examples.limiter
                   "c1" "CHAT_MESSAGE"
                   Scenarios.chatInProcess
                   Scenarios.chatExternal
                   eq_refl _ _ _)).
  - vm_compute. reflexivity.
  - intros s Hs. vm_compute in Hs. injection Hs as <-. by split.
  - split; vm_compute; reflexivity.
Defined.

(** ** A message quota through one window *)

Section Countdown.

Import WebSocketRateLimiter Spec Props.

Variable E : Env.
Variable lim : t.
Hypothesis in_process : redis lim = false.
Variables connectionId messageType : string.
Variable c : RateLimitConfig.
Hypothesis limits_known : limitConfigFor lim messageType = Limits c.

Lemma countdown_first (w : World) :
  let key := getMessageKey connectionId messageType in
  let N := maxRequests c in
  let W := windowMs c in
  memoryStorage w !! key = None ->
  exists r,
    fst (checkMessageRateLimit E lim connectionId messageType w) = Normal r /\
    allowed r = true /\ remaining r = Int (N - 1) /\
    r_resetTime r = Int (clock E (ticks w) + W) /\
    memoryStorage (snd (checkMessageRateLimit E lim connectionId messageType w)) !! key
      = Some {| count := 1; resetTime := Int (clock E (S (ticks w)) + W) |}.
Proof.
  intros key N W Hnone.
  pose proof (checkMessageRateLimit_memory E lim in_process connectionId messageType w)
    as Hrun.
  cbv zeta in Hrun. rewrite limits_known in Hrun. cbn [lc_maxRequests lc_windowMs] in Hrun.
  fold key N W in Hrun. rewrite Hnone in Hrun.
  unfold verdict in Hrun. cbn [allowed freshQuota remaining r_resetTime] in Hrun.
  rewrite Hrun. eexists. split; [reflexivity|]. cbn [fst snd allowed remaining r_resetTime].
  repeat split.
  rewrite (incrementCounter_store E lim in_process), lookup_insert_eq.
  unfold incrementedState. cbn [memoryStorage set_ticks ticks]. by rewrite Hnone.
Qed.

Lemma countdown_step (T : Z) (j : nat) (w : World) :
  let key := getMessageKey connectionId messageType in
  let N := maxRequests c in
  (forall n, clock E n <= T) ->
  (1 <= j)%nat ->
  memoryStorage w !! key
    = Some {| count := Z.min (Z.of_nat j) N; resetTime := Int T |} ->
  exists r,
    fst (checkMessageRateLimit E lim connectionId messageType w) = Normal r /\
    allowed r = (Z.of_nat j <? N) /\
    remaining r = Int (if Z.of_nat j <? N then N - Z.of_nat j - 1 else 0) /\
    r_resetTime r = Int T /\
    memoryStorage (snd (checkMessageRateLimit E lim connectionId messageType w)) !! key
      = Some {| count := Z.min (Z.of_nat (S j)) N; resetTime := Int T |}.
Proof.
  intros key N Hclock Hj Hstate.
  pose proof (checkMessageRateLimit_memory E lim in_process connectionId messageType w)
    as Hrun.
  cbv zeta in Hrun. rewrite limits_known in Hrun. cbn [lc_maxRequests lc_windowMs] in Hrun.
  fold key N in Hrun. rewrite Hstate in Hrun.
  unfold verdict in Hrun. cbn [toNumber count resetTime gt ge] in Hrun.
  destruct (Z.gtb_spec (clock E (ticks w)) T) as [Hlate|_];
    [pose proof (Hclock (ticks w)); lia|].
  rewrite Hrun. clear Hrun.
  destruct (Z.ltb_spec (Z.of_nat j) N) as [Hlt|Hge].
  - destruct (Z.geb_spec (Z.min (Z.of_nat j) N) N) as [Hfull|_]; [lia|].
    cbn [allowed withinQuota]. eexists. split; [reflexivity|].
    cbn [toNumber fst snd allowed remaining r_resetTime withinQuota count resetTime minus].
    split; [reflexivity|]. split; [f_equal; lia|]. split; [reflexivity|].
    rewrite (incrementCounter_store E lim in_process), lookup_insert_eq.
    unfold incrementedState. cbn [memoryStorage set_ticks ticks]. rewrite Hstate.
    cbn [toNumber resetTime gt].
    destruct (Z.gtb_spec (clock E (S (S (ticks w)))) T) as [Hlate|_];
      [pose proof (Hclock (S (S (ticks w)))); lia|].
    unfold bump. cbn [count resetTime]. f_equal. f_equal. lia.
  - destruct (Z.geb_spec (Z.min (Z.of_nat j) N) N) as [_|Hnot]; [|lia].
    cbn [allowed exhausted]. eexists. split; [reflexivity|].
    cbn [fst snd allowed remaining r_resetTime withRetryAfter exhausted resetTime].
    repeat split. cbn [memoryStorage set_ticks]. rewrite Hstate. f_equal. f_equal. lia.
Qed.

Lemma afterChecks_current (T : Z) (m : nat) :
  let key := getMessageKey connectionId messageType in
  let N := maxRequests c in
  (forall n, clock E n <= T) ->
  forall (j : nat) (w : World),
    (1 <= j)%nat ->
    memoryStorage w !! key
      = Some {| count := Z.min (Z.of_nat j) N; resetTime := Int T |} ->
    memoryStorage (afterChecks E lim connectionId messageType m w) !! key
      = Some {| count := Z.min (Z.of_nat (j + m)) N; resetTime := Int T |}.
Proof.
  intros key N Hclock. induction m as [|m IH]; intros j w Hj Hstate.
  - cbn. by rewrite Nat.add_0_r.
  - cbn [afterChecks].
    destruct (countdown_step T j w Hclock Hj Hstate) as (r & _ & _ & _ & _ & Hnext).
    rewrite (IH (S j) _ ltac:(lia) Hnext). do 3 f_equal. lia.
Qed.

(** X22. On the in-process store, for a message type whose lookup in the
    limits yields a configuration (an entry of its own, or the default for
    a name that no object inherits), with a quota of at least one and every
    clock reading inside the window opened by the first check, the message
    checks of a connection and that type on a fresh key count the quota
    down: check number [k] (from 0) is positive with [N - k - 1] remaining
    while [k < N], and negative with nothing remaining from then on.  The
    first verdict shows the [resetTime] it computed from its own clock
    reading, all later ones the stored one. *)
Theorem message_quota_counts_down (k : nat) (w : World) :
  let key := getMessageKey connectionId messageType in
  let N := maxRequests c in
  let W := windowMs c in
  1 <= N ->
  memoryStorage w !! key = None ->
  (forall n, clock E n <= clock E (S (ticks w)) + W) ->
  exists r,
    fst (checkMessageRateLimit E lim connectionId messageType
           (afterChecks E lim connectionId messageType k w)) = Normal r /\
    let expected := countdown N k (clock E (ticks w) + W) (clock E (S (ticks w)) + W) in
    allowed r = allowed expected /\
    remaining r = remaining expected /\
    r_resetTime r = r_resetTime expected.
Proof.
  intros key N W HN Hnone Hclock. destruct k as [|k].
  - destruct (countdown_first w Hnone) as (r & Hrun & Ha & Hrem & Hreset & _).
    exists r. split; [exact Hrun|]. unfold countdown.
    destruct (Z.ltb_spec (Z.of_nat 0) N); [|lia]. cbn.
    split; [exact Ha|]. split; [fold N in Hrem; rewrite Hrem; f_equal; lia|exact Hreset].
  - cbn [afterChecks].
    destruct (countdown_first w Hnone) as (_ & _ & _ & _ & _ & Hfirst).
    assert (Hone : memoryStorage (snd (checkMessageRateLimit E lim connectionId messageType w))
                     !! key
                   = Some {| count := Z.min (Z.of_nat 1) N;
                             resetTime := Int (clock E (S (ticks w)) + W) |}).
    { unfold key, W. rewrite Hfirst. do 2 f_equal. lia. }
    pose proof (afterChecks_current _ k Hclock 1%nat _ ltac:(lia) Hone) as Hstate.
    destruct (countdown_step _ (1 + k) _ Hclock ltac:(lia) Hstate)
      as (r & Hrun & Ha & Hrem & Hreset & _).
    exists r. split; [exact Hrun|]. unfold countdown.
    change (S k) with (1 + k)%nat. fold N in Ha, Hrem.
    rewrite Ha, Hrem, Hreset. by destruct (Z.of_nat (1 + k) <? N).
Qed.

End Countdown.

Lemma message_quota_counts_down_witness :
  exists r,
    fst (WebSocketRateLimiter.checkMessageRateLimit Examples.env Examples.limiter
           "c1" "CHAT_MESSAGE"
           (Spec.afterChecks Examples.env Examples.limiter "c1" "CHAT_MESSAGE" 2
              Examples.emptyWorld)) = Normal r /\
    allowed r = true /\ remaining r = Int 47 /\ r_resetTime r = Int 60000.
Proof.
  apply (message_quota_counts_down Examples.env Examples.limiter eq_refl
           "c1" "CHAT_MESSAGE" {| windowMs := 60000; maxRequests := 50 |} eq_refl
           2 Examples.emptyWorld).
  - change (1 <= 50). lia.
  - reflexivity.
  - intros n. change (0 <= 0 + 60000). lia.
Defined.

(** ** Message types named like inherited members *)

Section InheritedNames.

Import WebSocketRateLimiter Spec Props.

Variable E : Env.
Variable lim : t.

Lemma unlimited_verdict (st : option RateLimitState) (now : Z) :
  allowed (verdict st Undefined now Undefined) = true /\
  minus (remaining (verdict st Undefined now Undefined)) (Int 1) = NaN.
Proof.
  unfold verdict. destruct st as [s|]; [|by split].
  destruct (gt (Int now) (resetTime s)); by split.
Qed.

(** X24. A message type that has no entry of its own in the limits and is
    named like a member every object inherits (such as [constructor]) is
    never limited: whatever the stores hold, a message check for it that
    returns is positive, reports a [remaining] that is not a number and no
    [retryAfter], and has counted the message under its key; on the
    in-process store the check always returns. *)
Theorem inherited_name_is_never_limited
    (connectionId messageType : string) (w : World) :
  messageLimits lim !! messageType = None ->
  inherited messageType = true ->
  (redis lim = false ->
   exists r, fst (checkMessageRateLimit E lim connectionId messageType w) = Normal r) /\
  (forall r w',
     checkMessageRateLimit E lim connectionId messageType w = (Normal r, w') ->
     allowed r = true /\ remaining r = NaN /\ retryAfter r = None /\
     exists st,
       stored E lim w (getMessageKey connectionId messageType) = Normal st /\
       holds E lim w' (getMessageKey connectionId messageType)
         (afterIncrement lim st NaN (clock E (2 + ticks w)))).
Proof.
  intros Hnone Hinherited.
  split; [apply checkMessageRateLimit_in_process|].
  intros r w'. unfold checkMessageRateLimit, bind, limitConfigFor.
  rewrite Hnone, Hinherited. cbn [lc_maxRequests lc_windowMs].
  rewrite checkRateLimit_run.
  destruct (stored E lim w _) as [st|e] eqn:Hst; [|discriminate].
  destruct (unlimited_verdict st (clock E (ticks w))) as [Ha Hrem].
  rewrite Ha. cbn [negb].
  destruct (incrementCounter_run E lim (getMessageKey connectionId messageType)
              Undefined (set_ticks (S (ticks w)) w) st Hst)
    as (w1 & -> & Hholds & _).
  cbn [ret]. intros H. injection H as <- <-.
  cbn [allowed remaining retryAfter]. rewrite Hrem.
  split; [reflexivity|]. split; [reflexivity|]. split; [reflexivity|].
  exists st. split; [reflexivity|exact Hholds].
Qed.

End InheritedNames.

Lemma inherited_name_is_never_limited_witness :
  exists r w',
    WebSocketRateLimiter.checkMessageRateLimit Examples.env Examples.limiter
      "c1" "constructor"
      (Spec.afterChecks Examples.env Examples.limiter "c1" "constructor" 500
         Examples.emptyWorld) = (Normal r, w') /\
    allowed r = true /\ remaining r = NaN /\
    memoryStorage w' !! WebSocketRateLimiter.getMessageKey "c1" "constructor"
      = Some {| count := 501; resetTime := NaN |}.
Proof.
  eexists _, _. split; [vm_compute; reflexivity|].
  edestruct (inherited_name_is_never_limited Examples.env Examples.limiter
               "c1" "constructor"
               (Spec.afterChecks Examples.env Examples.limiter "c1" "constructor" 500
                  Examples.emptyWorld))
    as [_ Hcheck]; [reflexivity..|].
  edestruct Hcheck as (Ha & Hrem & _); [vm_compute; reflexivity|].
  split; [exact Ha|]. split; [exact Hrem|]. vm_compute. reflexivity.
Defined.

(** ** Normal forms of origins *)

Section OriginNormalForms.

Import WebSocketSecurityMiddleware Spec Props.

Variable E : Env.

Lemma normal_form_fixed (s : string) :
  trim (toLowerCase (trim (toLowerCase s))) = trim (toLowerCase s).
Proof. by rewrite normalized_entry_lower, trim_idem. Qed.

Lemma originMatches_normal_entry (n entry : string) :
  originMatches n (trim (toLowerCase entry)) = originMatches n entry.
Proof. unfold originMatches. by rewrite normal_form_fixed. Qed.

Lemma existsb_normal_entries (n : string) (allowList : list string) :
  existsb (originMatches n) (map (fun entry => trim (toLowerCase entry)) allowList)
    = existsb (originMatches n) allowList.
Proof.
  induction allowList as [|entry rest IH]; [reflexivity|].
  cbn [map existsb]. by rewrite originMatches_normal_entry, IH.
Qed.

(** X23. The origin validator compares normal forms only: its verdict is
    the same when the origin of the request and every entry of the allow
    list are replaced by their lower-cased, trimmed forms. *)
Theorem origin_check_compares_normal_forms (g normalized : t)
    (request normalRequest : WebSocketUpgradeRequest) (origin : string) (w w0 : World) :
  extractOrigin request = Some origin ->
  extractOrigin normalRequest = Some (trim (toLowerCase origin)) ->
  truthy (trim (toLowerCase origin)) = true ->
  allowedOrigins (config normalized)
    = map (fun entry => trim (toLowerCase entry)) (allowedOrigins (config g)) ->
  fst (validateOrigin E normalized normalRequest w0) = fst (validateOrigin E g request w).
Proof.
  intros Ho Hn Htruthy Hlist.
  destruct (validateOrigin_run E g request w) as (w' & -> & _).
  destruct (validateOrigin_run E normalized normalRequest w0) as (w0' & -> & _).
  cbn [fst]. f_equal. rewrite Ho, Hn, Hlist. unfold originVerdict.
  rewrite Htruthy, normal_form_fixed, existsb_normal_entries.
  assert (Hto : truthy origin = true) by (by destruct origin).
  by rewrite Hto.
Qed.

End OriginNormalForms.

Lemma origin_check_compares_normal_forms_witness :
  fst (WebSocketSecurityMiddleware.validateOrigin Examples.env Scenarios.normalGateway
         Scenarios.normalRequest Examples.emptyWorld)
    = fst (WebSocketSecurityMiddleware.validateOrigin Examples.env Scenarios.paddedGateway
             Scenarios.paddedRequest Examples.emptyWorld).
Proof.
  apply (origin_check_compares_normal_forms Examples.env Scenarios.paddedGateway
           Scenarios.normalGateway Scenarios.paddedRequest Scenarios.normalRequest
           " https://APP.example "); reflexivity.
Defined.
